(** * SORT: the render scheduler of [src/system.cpp]

    A shallow embedding of [System] (tile generation, the render pass, the
    progress report and [Setup]) and the properties of the specification that
    are about it.

    Conventions of the embedding.
    - C++ [int] and [unsigned] values are integers of [Z]; the wrap-around of
      [unsigned] arithmetic is written out with [u32].
    - [float] is IEEE 754 binary32 (precision 24, [emax] 128), through the
      operations of the standard library's [SpecFloat]; every operation rounds
      to nearest even, as an SSE build evaluates a [float] expression.
    - A pointer is an [option]: [None] is the null pointer.  Dereferencing a
      null pointer, like every other undefined behaviour the code can reach,
      ends the run in a [Fault].
    - Calls into collaborators whose code is not part of the file (timer,
      scene, image sensor, task queue, threads, log, console) are recorded as
      [event]s in the order they are made. *)

From Stdlib Require Import ZArith List Lia Bool String Ascii Permutation.
From Stdlib Require Import SpecFloat DecimalString.

#[local] Set Warnings "-register-all".
Import ListNotations.
Local Open Scope Z_scope.

(* ------------------------------------------------------------------ *)
(** ** Machine arithmetic *)

(** Conversion to [unsigned] (32 bits). *)
Definition u32 (z : Z) : Z := z mod 2 ^ 32.

(** Conversion of an out-of-range value to [int]: two's complement. *)
Definition s32 (z : Z) : Z := (z + 2 ^ 31) mod 2 ^ 32 - 2 ^ 31.

Module F32.

Definition prec : Z := 24.
Definition emax : Z := 128.

(** [(float)n] for an integer [n]. *)
Definition of_Z (n : Z) : spec_float := binary_normalize prec emax n 0 false.

Definition div : spec_float -> spec_float -> spec_float := SFdiv prec emax.
Definition mul : spec_float -> spec_float -> spec_float := SFmul prec emax.

(** The integer part of a finite float, rounded up ([ceil]) or towards zero
    (the conversion to an integer type); [None] for infinities and NaN. *)
Definition ceil (f : spec_float) : option Z :=
  match f with
  | S754_zero _ => Some 0
  | S754_finite s m e =>
      let v := if s then Zneg m else Zpos m in
      Some (if 0 <=? e then v * 2 ^ e else - ((- v) / 2 ^ (- e)))
  | _ => None
  end.

Definition trunc (f : spec_float) : option Z :=
  match f with
  | S754_zero _ => Some 0
  | S754_finite s m e =>
      let v := if s then Zneg m else Zpos m in
      Some (if 0 <=? e then v * 2 ^ e else Z.quot v (2 ^ (- e)))
  | _ => None
  end.

(** Conversion of a float's integer part to [int] and to [unsigned].  Out of
    range the conversion is undefined; the value x86 produces is used. *)
Definition to_int (o : option Z) : Z :=
  match o with
  | Some z => if (- 2 ^ 31 <=? z) && (z <? 2 ^ 31) then z else - 2 ^ 31
  | None => - 2 ^ 31
  end.

Definition to_unsigned (o : option Z) : Z :=
  match o with
  | Some z => if (0 <=? z) && (z <? 2 ^ 32) then z else 0
  | None => 0
  end.

End F32.

(** [(int)ceil(dim / (float)tilesize)], lines 190, 406 and 407. *)
Definition ceil_div_float (dim tilesize : Z) : Z :=
  F32.to_int (F32.ceil (F32.div (F32.of_Z dim) (F32.of_Z tilesize))).

(* ------------------------------------------------------------------ *)
(** ** Tiles and render tasks *)

Module Vector2i.

Record t : Set := mk { x : Z; y : Z }.

(** [operator+=] and [operator/] ([int] division truncates). *)
Definition add (a b : t) : t := mk (x a + x b) (y a + y b).
Definition div (a : t) (n : Z) : t := mk (Z.quot (x a) n) (Z.quot (y a) n).

Definition eqb (a b : t) : bool := (x a =? x b) && (y a =? y b).

End Vector2i.

(** The fields of a [RenderTask] that [_pushRenderTask] computes per tile.
    The scene, sampler, camera, completion table and sample count are the
    same in every task, and [pixelSamples] is a fresh buffer. *)
Record RenderTask : Set := mkRenderTask {
  taskId : Z;
  ori : Vector2i.t;
  size : Vector2i.t
}.

(** The local variables of the loop of [_pushRenderTask], with the queue
    of [RenderTaskQueue] (oldest task first). *)
Record spiral : Set := mkSpiral {
  cur_pos : Vector2i.t;
  cur_dir : Z;
  cur_len : Z;
  cur_dir_len : Z;
  taskid : Z;
  queue : list RenderTask
}.

(** [const Vector2i dir[4]], line 197. *)
Definition dir : list Vector2i.t :=
  [ Vector2i.mk 0 (-1); Vector2i.mk (-1) 0; Vector2i.mk 0 1; Vector2i.mk 1 0 ].

Section PushRenderTask.

(** Sensor width and height ([GetWidth], [GetHeight]) and
    [unsigned tilesize = g_iTileSize]. *)
Variables width height tilesize : Z.

(** Line 190. *)
Definition tile_num : Vector2i.t :=
  Vector2i.mk (ceil_div_float width tilesize) (ceil_div_float height tilesize).

(** The condition of line 202. *)
Definition inside (tn p : Vector2i.t) : bool :=
  (0 <=? Vector2i.x p) && (Vector2i.x p <? Vector2i.x tn)
  && (0 <=? Vector2i.y p) && (Vector2i.y p <? Vector2i.y tn).

(** The condition of line 229. *)
Definition outside_both (tn p : Vector2i.t) : bool :=
  ((Vector2i.x p <? 0) || (Vector2i.x tn <=? Vector2i.x p))
  && ((Vector2i.y p <? 0) || (Vector2i.y tn <=? Vector2i.y p)).

(** Lines 204 to 208: the task of the grid cell [p], with id [id]. *)
Definition make_task (id : Z) (p : Vector2i.t) : RenderTask :=
  let ox := u32 (Vector2i.x p * tilesize) in
  let oy := u32 (Vector2i.y p * tilesize) in
  let sx := if tilesize <? u32 (width - ox) then tilesize else u32 (width - ox) in
  let sy := if tilesize <? u32 (height - oy) then tilesize else u32 (height - oy) in
  mkRenderTask id (Vector2i.mk ox oy) (Vector2i.mk sx sy).

(** Lines 202 to 215. *)
Definition emit (tn : Vector2i.t) (s : spiral) : spiral :=
  if inside tn (cur_pos s) then
    mkSpiral (cur_pos s) (cur_dir s) (cur_len s) (cur_dir_len s)
             (u32 (taskid s + 1))
             (queue s ++ [make_task (taskid s) (cur_pos s)])
  else s.

(** Lines 218 to 223. *)
Definition turn (s : spiral) : spiral :=
  if cur_dir_len s <=? cur_len s then
    let d := Z.rem (cur_dir s + 1) 4 in
    mkSpiral (cur_pos s) d 0 (cur_dir_len s + (1 - Z.rem d 2)) (taskid s) (queue s)
  else s.

(** Lines 225 to 227. *)
Definition advance (s : spiral) : spiral :=
  mkSpiral (Vector2i.add (cur_pos s) (nth (Z.to_nat (cur_dir s)) dir (Vector2i.mk 0 0)))
           (cur_dir s) (cur_len s + 1) (cur_dir_len s) (taskid s) (queue s).

(** One pass through the body of [while (true)], up to the test of line 229. *)
Definition body (tn : Vector2i.t) (s : spiral) : spiral :=
  advance (turn (emit tn s)).

(** The loop of lines 199 to 231.  [None]: the loop has not returned within
    [fuel] passes. *)
Fixpoint spiral_loop (fuel : nat) (tn : Vector2i.t) (s : spiral) : option spiral :=
  match fuel with
  | O => None
  | S fuel' =>
      let s' := body tn s in
      if outside_both tn (cur_pos s') then Some s' else spiral_loop fuel' tn s'
  end.

(** Lines 193 to 196. *)
Definition spiral_init (tn : Vector2i.t) : spiral :=
  mkSpiral (Vector2i.div tn 2) 0 0 1 0 [].

(** The inner and the outer [for] of lines 180 to 182, counting in
    [m_totalTask]. *)
Fixpoint count_row (fuel : nat) (j total : Z) : option Z :=
  match fuel with
  | O => None
  | S fuel' =>
      if j <? width then count_row fuel' (u32 (j + tilesize)) (u32 (total + 1))
      else Some total
  end.

Fixpoint count_rows (fuel : nat) (i total : Z) : option Z :=
  match fuel with
  | O => None
  | S fuel' =>
      if i <? height then
        match count_row fuel 0 total with
        | Some total' => count_rows fuel' (u32 (i + tilesize)) total'
        | None => None
        end
      else Some total
  end.

(** What [_pushRenderTask] leaves behind: [m_totalTask], the zeroed
    [m_taskDone] and the tasks pushed, in the order of the pushes. *)
Record pushed : Set := mkPushed {
  p_totalTask : Z;
  p_taskDone : list bool;
  p_queue : list RenderTask
}.

Definition pushRenderTask (fuel : nat) : option pushed :=
  match count_rows fuel 0 0 with
  | None => None
  | Some total =>
      match spiral_loop fuel tile_num (spiral_init tile_num) with
      | None => None
      | Some s => Some (mkPushed total (repeat false (Z.to_nat total)) (queue s))
      end
  end.

End PushRenderTask.

(* ------------------------------------------------------------------ *)
(** ** Scene files (TinyXML) and [atoi] *)

(** An element of the document: its name, its attributes in document order
    and its child elements in document order. *)
Inductive TiXmlElement : Set :=
| Element (value : string) (attributes : list (string * string))
          (children : list TiXmlElement).

Definition element_value (e : TiXmlElement) : string :=
  match e with Element v _ _ => v end.

Definition element_attributes (e : TiXmlElement) : list (string * string) :=
  match e with Element _ a _ => a end.

Definition element_children (e : TiXmlElement) : list TiXmlElement :=
  match e with Element _ _ c => c end.

(** [e->Attribute(name)]: the value of the first attribute of that name, or
    the null pointer. *)
Definition Attribute (name : string) (e : TiXmlElement) : option string :=
  match find (fun a => String.eqb (fst a) name) (element_attributes e) with
  | Some a => Some (snd a)
  | None => None
  end.

(** The children [FirstChildElement(name)] and then [NextSiblingElement(name)]
    walk through. *)
Definition ChildElements (name : string) (e : TiXmlElement) : list TiXmlElement :=
  filter (fun c => String.eqb (element_value c) name) (element_children e).

Definition FirstChildElement (name : string) (e : TiXmlElement) : option TiXmlElement :=
  hd_error (ChildElements name e).

Definition isspace (c : ascii) : bool :=
  let n := nat_of_ascii c in (Nat.eqb n 32 || (Nat.leb 9 n && Nat.leb n 13))%bool.

Definition isdigit (c : ascii) : bool :=
  let n := nat_of_ascii c in (Nat.leb 48 n && Nat.leb n 57)%bool.

Fixpoint skip_spaces (s : string) : string :=
  match s with
  | String c r => if isspace c then skip_spaces r else s
  | EmptyString => s
  end.

Fixpoint digits_value (s : string) (acc : Z) : Z :=
  match s with
  | String c r =>
      if isdigit c then digits_value r (10 * acc + (Z.of_nat (nat_of_ascii c) - 48))
      else acc
  | EmptyString => acc
  end.

(** [strtol] keeps a value that does not fit a [long] at the end of the
    range. *)
Definition strtol_range (z : Z) : Z := Z.max (- 2 ^ 63) (Z.min (2 ^ 63 - 1) z).

(** [atoi]: leading blanks, an optional sign, decimal digits.  A value that
    does not fit an [int] is undefined; the value of the C library's
    [(int)strtol] is used: the [long] cut to 32 bits. *)
Definition atoi (s : string) : Z :=
  match skip_spaces s with
  | String "-"%char r => s32 (strtol_range (- digits_value r 0))
  | String "+"%char r => s32 (strtol_range (digits_value r 0))
  | r => s32 (strtol_range (digits_value r 0))
  end.

(* ------------------------------------------------------------------ *)
(** ** The system and what surrounds it *)

(** The image sensor ([BlenderImage] or [RenderTargetImage]). *)
Record ImageSensor : Set := mkImageSensor {
  sensor_blender : bool;
  sensor_width : Z;
  sensor_height : Z;
  sensor_properties : list (string * string)
}.

Record Camera : Set := mkCamera {
  camera_type : string;
  camera_properties : list (string * string)
}.

Record Sampler : Set := mkSampler { sampler_type : string }.

Record Property : Set := mkProperty { prop_name : string; prop_value : string }.

(** The members of [System].  A pointer into the shared region
    ([m_pProgress]) is its offset from the first byte of the region. *)
Record System : Set := mkSystem {
  m_camera : option Camera;
  m_uRenderingTime : Z;
  m_uPreProcessingTime : Z;
  m_thread_num : Z;
  m_pProgress : option Z;
  m_imagesensor : option ImageSensor;
  m_pSampler : option Sampler;
  m_iSamplePerPixel : Z;
  m_totalTask : Z;
  m_taskDone : list bool;
  m_integratorType : string;
  m_integratorProperty : list Property
}.

Inductive log_level : Set := INFO | WARNING.

(** The calls that leave [System], in the order they are made. *)
Inductive event : Set :=
| E_slog (level : log_level) (msg : string)
| E_StartTimer
| E_StopTimer
| E_LoadScene (file : string)
| E_ScenePreProcess
| E_PushTask (rt : RenderTask)
| E_SensorPreProcess
| E_SensorPostProcess
| E_IntegratorSetProperty (name value : string)
| E_IntegratorPreProcess
| E_IntegratorSetupCamera
| E_PreMalloc (bytes thread : Z)
| E_NewThread (thread : Z)
| E_BeginThread (thread : Z)
| E_Join (thread : Z)
| E_cout_unsigned (v : Z)
| E_cout_string (s : string)
| E_cout_endl
| E_RoundSize (round : Z)
| E_CameraSetImageSensor
| E_CameraPreProcess
| E_CreateSharedMemory (name : string) (size : Z).

(** [SharedMemory]: the first byte of the region (null when there is none),
    with the bytes it holds by offset, and the size of the region. *)
Record SharedMemory : Type := mkSharedMemory {
  sm_bytes : option (Z -> Z);
  sm_size : Z
}.

(** The state a call of [System] runs in: the object, the task queue of
    [RenderTaskQueue], the shared region and the calls made so far. *)
Record machine : Type := mkMachine {
  sys : System;
  task_queue : list RenderTask;
  shared : SharedMemory;
  trace : list event
}.

Inductive fault : Set :=
| NullDereference (pointer : string)
| Undefined (what : string)
| Unfinished.

(** How a piece of a function body ends: it falls through to what follows
    ([Next]), the function returns ([Return]), or the run stops in undefined
    behaviour ([Fault]). *)
Inductive outcome (R A : Type) : Type :=
| Next (a : A) (m : machine)
| Return (r : R) (m : machine)
| Fault (f : fault) (m : machine).

Arguments Next {R A} a m.
Arguments Return {R A} r m.
Arguments Fault {R A} f m.

Definition code (R A : Type) : Type := machine -> outcome R A.

Definition ret {R A : Type} (a : A) : code R A := fun m => Next a m.

Definition bind {R A B : Type} (c : code R A) (k : A -> code R B) : code R B :=
  fun m =>
    match c m with
    | Next a m' => k a m'
    | Return r m' => Return r m'
    | Fault f m' => Fault f m'
    end.

Notation "x <- c ;; k" := (bind c (fun x => k))
  (at level 61, c at next level, right associativity).
Notation "c ;; k" := (bind c (fun _ => k))
  (at level 61, right associativity).

Definition return_ {R A : Type} (r : R) : code R A := fun m => Return r m.
Definition crash {R A : Type} (f : fault) : code R A := fun m => Fault f m.

(** A call of a function whose body is [c]: falling off the end of the body
    returns [default]. *)
Definition call {R R' : Type} (default : R) (c : code R unit) : code R' R :=
  fun m =>
    match c m with
    | Next _ m' => Next default m'
    | Return r m' => Next r m'
    | Fault f m' => Fault f m'
    end.

(** The machine a run ends in. *)
Definition final {R A : Type} (o : outcome R A) : machine :=
  match o with
  | Next _ m => m
  | Return _ m => m
  | Fault _ m => m
  end.

Definition get_sys {R : Type} : code R System := fun m => Next (sys m) m.

Definition update {R : Type} (f : System -> System) : code R unit :=
  fun m => Next tt (mkMachine (f (sys m)) (task_queue m) (shared m) (trace m)).

Definition emit_event {R : Type} (e : event) : code R unit :=
  fun m => Next tt (mkMachine (sys m) (task_queue m) (shared m) (trace m ++ [e])).

Definition emit_events {R : Type} (es : list event) : code R unit :=
  fun m => Next tt (mkMachine (sys m) (task_queue m) (shared m) (trace m ++ es)).

(** A change of the shared region. *)
Definition update_shared {R : Type} (f : SharedMemory -> SharedMemory) : code R unit :=
  fun m => Next tt (mkMachine (sys m) (task_queue m) (f (shared m)) (trace m)).

(** [p->...] for a pointer [p] named [name]. *)
Definition deref {R A : Type} (name : string) (p : option A) : code R A :=
  match p with
  | Some a => ret a
  | None => crash (NullDereference name)
  end.

(** A [const char*] handed to code that reads the string it points to. *)
Definition c_str {R : Type} (what : string) (p : option string) : code R string :=
  match p with
  | Some s => ret s
  | None => crash (Undefined what)
  end.

Definition set_m_camera (v : option Camera) (s : System) : System :=
  mkSystem v (m_uRenderingTime s) (m_uPreProcessingTime s) (m_thread_num s)
           (m_pProgress s) (m_imagesensor s) (m_pSampler s) (m_iSamplePerPixel s)
           (m_totalTask s) (m_taskDone s) (m_integratorType s) (m_integratorProperty s).

Definition set_m_uRenderingTime (v : Z) (s : System) : System :=
  mkSystem (m_camera s) v (m_uPreProcessingTime s) (m_thread_num s)
           (m_pProgress s) (m_imagesensor s) (m_pSampler s) (m_iSamplePerPixel s)
           (m_totalTask s) (m_taskDone s) (m_integratorType s) (m_integratorProperty s).

Definition set_m_uPreProcessingTime (v : Z) (s : System) : System :=
  mkSystem (m_camera s) (m_uRenderingTime s) v (m_thread_num s)
           (m_pProgress s) (m_imagesensor s) (m_pSampler s) (m_iSamplePerPixel s)
           (m_totalTask s) (m_taskDone s) (m_integratorType s) (m_integratorProperty s).

Definition set_m_thread_num (v : Z) (s : System) : System :=
  mkSystem (m_camera s) (m_uRenderingTime s) (m_uPreProcessingTime s) v
           (m_pProgress s) (m_imagesensor s) (m_pSampler s) (m_iSamplePerPixel s)
           (m_totalTask s) (m_taskDone s) (m_integratorType s) (m_integratorProperty s).

Definition set_m_pProgress (v : option Z) (s : System) : System :=
  mkSystem (m_camera s) (m_uRenderingTime s) (m_uPreProcessingTime s) (m_thread_num s)
           v (m_imagesensor s) (m_pSampler s) (m_iSamplePerPixel s)
           (m_totalTask s) (m_taskDone s) (m_integratorType s) (m_integratorProperty s).

Definition set_m_imagesensor (v : option ImageSensor) (s : System) : System :=
  mkSystem (m_camera s) (m_uRenderingTime s) (m_uPreProcessingTime s) (m_thread_num s)
           (m_pProgress s) v (m_pSampler s) (m_iSamplePerPixel s)
           (m_totalTask s) (m_taskDone s) (m_integratorType s) (m_integratorProperty s).

Definition set_sampler (p : option Sampler) (spp : Z) (s : System) : System :=
  mkSystem (m_camera s) (m_uRenderingTime s) (m_uPreProcessingTime s) (m_thread_num s)
           (m_pProgress s) (m_imagesensor s) p spp
           (m_totalTask s) (m_taskDone s) (m_integratorType s) (m_integratorProperty s).

Definition set_tasks (total : Z) (done : list bool) (s : System) : System :=
  mkSystem (m_camera s) (m_uRenderingTime s) (m_uPreProcessingTime s) (m_thread_num s)
           (m_pProgress s) (m_imagesensor s) (m_pSampler s) (m_iSamplePerPixel s)
           total done (m_integratorType s) (m_integratorProperty s).

Definition set_m_integratorType (v : string) (s : System) : System :=
  mkSystem (m_camera s) (m_uRenderingTime s) (m_uPreProcessingTime s) (m_thread_num s)
           (m_pProgress s) (m_imagesensor s) (m_pSampler s) (m_iSamplePerPixel s)
           (m_totalTask s) (m_taskDone s) v (m_integratorProperty s).

Definition set_m_integratorProperty (v : list Property) (s : System) : System :=
  mkSystem (m_camera s) (m_uRenderingTime s) (m_uPreProcessingTime s) (m_thread_num s)
           (m_pProgress s) (m_imagesensor s) (m_pSampler s) (m_iSamplePerPixel s)
           (m_totalTask s) (m_taskDone s) (m_integratorType s) v.

(** [_preInit], lines 52 to 61.  The members it leaves alone are
    indeterminate in the source and taken as null, zero and empty. *)
Definition _preInit : System :=
  mkSystem None 0 0 1 None None None 0 0 [] EmptyString [].

(* ------------------------------------------------------------------ *)
(** ** The member functions of [System] *)

(** ["\rProgress: "], line 133. *)
Definition progress_label : string := String (ascii_of_nat 13) "Progress: ".

(** The entries of [m_taskDone] that the loop of lines 126 and 127 adds up. *)
Fixpoint count_done (n : nat) (table : list bool) (taskDone : Z) : Z :=
  match n with
  | O => taskDone
  | S n' =>
      match table with
      | b :: rest => count_done n' rest (u32 (taskDone + (if b then 1 else 0)))
      | [] => count_done n' [] taskDone
      end
  end.

(** Line 130: [(unsigned)((float)taskDone / (float)m_totalTask * 100)]. *)
Definition progress_of (taskDone totalTask : Z) : Z :=
  F32.to_unsigned
    (F32.trunc (F32.mul (F32.div (F32.of_Z taskDone) (F32.of_Z totalTask)) (F32.of_Z 100))).

(** Lines 355 to 357: [unsigned round = atoi(str_round)], clamped. *)
Definition sampler_round (str_round : string) : Z :=
  let round := u32 (atoi str_round) in
  let round := if round <? 1 then 1 else round in
  if 1024 <? round then 1024 else round.

(** Storing through a pointer into the shared region (a byte). *)
Definition store_byte (offset v : Z) (sm : SharedMemory) : SharedMemory :=
  match sm_bytes sm with
  | Some mem => mkSharedMemory (Some (fun a => if a =? offset then v mod 256 else mem a)) (sm_size sm)
  | None => sm
  end.

(** [memset(sm.bytes, 0, sm.size)]. *)
Definition memset_zero (sm : SharedMemory) : SharedMemory :=
  match sm_bytes sm with
  | Some mem =>
      mkSharedMemory (Some (fun a => if (0 <=? a) && (a <? sm_size sm) then 0 else mem a))
                     (sm_size sm)
  | None => sm
  end.

Definition decimal (z : Z) : string := DecimalString.NilZero.string_of_int (Z.to_int z).

Section SystemCode.

(** [extern bool g_bBlenderMode; extern int g_iTileSize;] *)
Variable g_bBlenderMode : bool.
Variable g_iTileSize : Z.

(** The collaborators whose code is not part of the file:
    - [CREATE_TYPE(name, T)] of [utility/creator.h], by the names it knows;
    - [Sampler::RoundSize];
    - the reading of the timer, given the calls made so far;
    - [SMManager::CreateSharedMemory];
    - the worker threads: the completion table they leave behind once all of
      them are joined, given the thread count, the queue and the table. *)
Variable camera_registered : string -> bool.
Variable sampler_registered : string -> bool.
Variable integrator_registered : string -> bool.
Variable RoundSize : Sampler -> Z -> Z.
Variable timer_reading : list event -> Z.
Variable CreateSharedMemory : string -> Z -> SharedMemory.
Variable run_threads : Z -> list RenderTask -> list bool -> list bool.

Definition read_timer {R : Type} : code R Z := fun m => Next (timer_reading (trace m)) m.

(** [PreProcess], lines 89 to 113. *)
Definition PreProcess : code unit unit :=
  emit_event E_StartTimer ;;
  s <- get_sys ;;
  match m_imagesensor s with
  | None =>
      emit_event (E_slog WARNING
        "There is no render target in the system, can't render anything.") ;;
      return_ tt
  | Some _ => ret tt
  end ;;
  match m_camera s with
  | None =>
      emit_event (E_slog WARNING
        "There is no camera attached in the system , can't render anything.") ;;
      return_ tt
  | Some _ => ret tt
  end ;;
  emit_event E_ScenePreProcess ;;
  emit_event E_StopTimer ;;
  t <- read_timer ;;
  update (set_m_uPreProcessingTime t) ;;
  emit_event (E_slog INFO ("Time spent on preprocessing is " ++ decimal t ++ " ms.")%string).

(** [_outputProgress], lines 122 to 138. *)
Definition _outputProgress : code unit unit :=
  s <- get_sys ;;
  let taskDone := count_done (Z.to_nat (m_totalTask s)) (m_taskDone s) 0 in
  let progress := progress_of taskDone (m_totalTask s) in
  (if negb g_bBlenderMode then
     emit_event (E_cout_unsigned progress) ;;
     emit_event (E_cout_string progress_label)
   else
     match m_pProgress s with
     | Some p => update_shared (store_byte p progress)
     | None => ret tt
     end) ;;
  emit_event E_cout_endl.

(** [RenderTaskQueue::GetSingleton().PushTask(rt)], for each task in turn. *)
Definition push_tasks {R : Type} (q : list RenderTask) : code R unit :=
  fun m => Next tt (mkMachine (sys m) (task_queue m ++ q) (shared m)
                              (trace m ++ map E_PushTask q)).

(** [_pushRenderTask], lines 172 to 232; the loops are in [pushRenderTask]. *)
Definition _pushRenderTask (fuel : nat) : code unit unit :=
  s <- get_sys ;;
  sensor <- deref "m_imagesensor" (m_imagesensor s) ;;
  match pushRenderTask (sensor_width sensor) (sensor_height sensor) (u32 g_iTileSize) fuel with
  | None => crash Unfinished
  | Some p =>
      update (set_tasks (p_totalTask p) (p_taskDone p)) ;;
      push_tasks (p_queue p)
  end.

(** [_allocateIntegrator], lines 264 to 282: the integrator, by its name. *)
Definition _allocateIntegrator : code (option string) unit :=
  s <- get_sys ;;
  if integrator_registered (m_integratorType s) then
    emit_events (map (fun p => E_IntegratorSetProperty (prop_name p) (prop_value p))
                     (m_integratorProperty s)) ;;
    return_ (Some (m_integratorType s))
  else
    emit_event (E_slog WARNING ("No integrator with name of " ++ m_integratorType s)%string) ;;
    return_ None.

(** The values [i] takes in [for (unsigned i = 0; i < m_thread_num; ++i)]. *)
Definition thread_ids (n : Z) : list Z := map Z.of_nat (seq 0 (Z.to_nat n)).

(** The threads run between the first [BeginThread] and the last [Join]:
    they empty the queue and fill in the completion table.  Without a
    thread the queue stays as it is. *)
Definition threads_done {R : Type} : code R unit :=
  fun m =>
    let s := sys m in
    Next tt (mkMachine
               (set_tasks (m_totalTask s)
                          (run_threads (m_thread_num s) (task_queue m) (m_taskDone s)) s)
               (if 0 <? m_thread_num s then [] else task_queue m)
               (shared m) (trace m)).

(** [_executeRenderingTasks], lines 235 to 261. *)
Definition _executeRenderingTasks : code unit unit :=
  s <- get_sys ;;
  _ <- deref "m_imagesensor" (m_imagesensor s) ;;
  emit_event E_SensorPreProcess ;;
  integrator <- call None _allocateIntegrator ;;
  _ <- deref "integrator" integrator ;;
  emit_event E_IntegratorPreProcess ;;
  emit_event E_IntegratorSetupCamera ;;
  emit_events (map (E_PreMalloc (1024 * 1024 * 64)) (thread_ids (m_thread_num s))) ;;
  emit_events (map E_NewThread (thread_ids (m_thread_num s))) ;;
  emit_events (map E_BeginThread (thread_ids (m_thread_num s))) ;;
  emit_events (map E_Join (thread_ids (m_thread_num s))) ;;
  threads_done ;;
  call tt _outputProgress ;;
  emit_event E_SensorPostProcess.

(** [Render], lines 64 to 79. *)
Definition Render (fuel : nat) : code unit unit :=
  call tt PreProcess ;;
  emit_event E_StartTimer ;;
  call tt (_pushRenderTask fuel) ;;
  call tt _executeRenderingTasks ;;
  emit_event E_StopTimer ;;
  t <- read_timer ;;
  update (set_m_uRenderingTime t).

(** *** [Setup], lines 285 to 426, block by block *)

Definition update_sensor {R : Type} (f : ImageSensor -> ImageSensor) : code R unit :=
  s <- get_sys ;;
  sensor <- deref "m_imagesensor" (m_imagesensor s) ;;
  update (set_m_imagesensor (Some (f sensor))).

(** [SetSensorSize(w, h)]: the sensor keeps unsigned sizes. *)
Definition SetSensorSize (w h : Z) (i : ImageSensor) : ImageSensor :=
  mkImageSensor (sensor_blender i) (u32 w) (u32 h) (sensor_properties i).

Definition SetSensorProperty (name value : string) (i : ImageSensor) : ImageSensor :=
  mkImageSensor (sensor_blender i) (sensor_width i) (sensor_height i)
                (sensor_properties i ++ [(name, value)]).

Definition SetCameraProperty (name value : string) (c : Camera) : Camera :=
  mkCamera (camera_type c) (camera_properties c ++ [(name, value)]).

(** Lines 303 to 313. *)
Definition setup_scene (root : TiXmlElement) : code bool unit :=
  match FirstChildElement "Scene" root with
  | Some element =>
      match Attribute "value" element with
      | Some str_scene => emit_event (E_LoadScene str_scene)
      | None => return_ false
      end
  | None => return_ false
  end.

(** The loop of lines 323 to 334. *)
Fixpoint integrator_properties (props : list TiXmlElement) : code bool unit :=
  match props with
  | [] => ret tt
  | prop :: rest =>
      name <- c_str "property._name" (Attribute "name" prop) ;;
      value <- c_str "property._property" (Attribute "value" prop) ;;
      update (fun s => set_m_integratorProperty
                         (m_integratorProperty s ++ [mkProperty name value]) s) ;;
      integrator_properties rest
  end.

(** Lines 315 to 336. *)
Definition setup_integrator (root : TiXmlElement) : code bool unit :=
  match FirstChildElement "Integrator" root with
  | Some element =>
      type <- c_str "m_integratorType" (Attribute "type" element) ;;
      update (set_m_integratorType type) ;;
      integrator_properties (ChildElements "Property" element)
  | None => return_ false
  end.

(** Lines 338 to 346. *)
Definition setup_target (root : TiXmlElement) : code bool unit :=
  match FirstChildElement "RenderTargetSize" root with
  | Some element =>
      str_width <- c_str "atoi(str_width)" (Attribute "w" element) ;;
      str_height <- c_str "atoi(str_height)" (Attribute "h" element) ;;
      update_sensor (SetSensorSize (atoi str_width) (atoi str_height))
  | None => update_sensor (SetSensorSize 1920 1080)
  end.

(** Lines 348 to 366. *)
Definition setup_sampler (root : TiXmlElement) : code bool unit :=
  match FirstChildElement "Sampler" root with
  | Some element =>
      str_round <- c_str "atoi(str_round)" (Attribute "round" element) ;;
      let round := sampler_round str_round in
      str_type <- c_str "CREATE_TYPE(str_type, Sampler)" (Attribute "type" element) ;;
      let created :=
        if sampler_registered str_type then Some (mkSampler str_type) else None in
      s <- get_sys ;;
      update (set_sampler created (m_iSamplePerPixel s)) ;;
      sampler <- deref "m_pSampler" created ;;
      emit_event (E_RoundSize round) ;;
      update (set_sampler created (RoundSize sampler round))
  | None =>
      let sampler := mkSampler "StratifiedSampler" in
      emit_event (E_RoundSize 16) ;;
      update (set_sampler (Some sampler) (RoundSize sampler 16))
  end.

(** The loop of lines 381 to 388. *)
Definition camera_properties_of (props : list TiXmlElement) (c : Camera) : Camera :=
  fold_left
    (fun c prop =>
       match Attribute "name" prop, Attribute "value" prop with
       | Some name, Some value => SetCameraProperty name value c
       | _, _ => c
       end)
    props c.

(** Lines 368 to 389. *)
Definition setup_camera (root : TiXmlElement) : code bool unit :=
  match FirstChildElement "Camera" root with
  | Some element =>
      str_camera <- c_str "CREATE_TYPE(str_camera, Camera)" (Attribute "type" element) ;;
      let created :=
        if camera_registered str_camera then Some (mkCamera str_camera []) else None in
      update (set_m_camera created) ;;
      match created with
      | None => return_ false
      | Some c =>
          update (set_m_camera
                    (Some (camera_properties_of (ChildElements "Property" element) c)))
      end
  | None => ret tt
  end.

(** Lines 391 to 393. *)
Definition setup_output (root : TiXmlElement) : code bool unit :=
  match FirstChildElement "OutputFile" root with
  | Some element =>
      name <- c_str "SetProperty(filename, null)" (Attribute "name" element) ;;
      update_sensor (SetSensorProperty "filename" name)
  | None => ret tt
  end.

(** Lines 395 to 397. *)
Definition setup_threads (root : TiXmlElement) : code bool unit :=
  match FirstChildElement "ThreadNum" root with
  | Some element =>
      name <- c_str "atoi(name)" (Attribute "name" element) ;;
      update (set_m_thread_num (u32 (atoi name)))
  | None => ret tt
  end.

(** Lines 399 to 403. *)
Definition setup_camera_sensor : code bool unit :=
  s <- get_sys ;;
  _ <- deref "m_camera" (m_camera s) ;;
  emit_event E_CameraSetImageSensor ;;
  emit_event E_CameraPreProcess.

(** Lines 406 to 411: the tile counts, the header size and [size].  The
    products are of [int]s up to [sizeof(float)], then of [size_t]. *)
Definition header_size_of (w h : Z) : Z :=
  ceil_div_float w g_iTileSize * ceil_div_float h g_iTileSize.

Definition shared_size_of (w h : Z) : Z :=
  let header_size := header_size_of w h in
  s32 ((header_size * g_iTileSize * g_iTileSize * 4 * 4 * 2 + header_size + 2) mod 2 ^ 64).

(** Lines 405 to 423. *)
Definition setup_shared_memory : code bool unit :=
  s <- get_sys ;;
  sensor <- deref "m_imagesensor" (m_imagesensor s) ;;
  let size := shared_size_of (sensor_width sensor) (sensor_height sensor) in
  emit_event (E_CreateSharedMemory "SORTBLEND_SHAREMEM" size) ;;
  let sm := CreateSharedMemory "SORTBLEND_SHAREMEM" size in
  match sm_bytes sm with
  | Some _ =>
      update_shared (fun _ => memset_zero sm) ;;
      update (set_m_pProgress (Some (sm_size sm - 2)))
  | None => update_shared (fun _ => sm)
  end.

(** Lines 287 to 397: the image sensor, then the elements of the file. *)
Definition setup_elements (root : TiXmlElement) : code bool unit :=
  update (set_m_imagesensor (Some (mkImageSensor g_bBlenderMode 0 0 []))) ;;
  setup_scene root ;;
  setup_integrator root ;;
  setup_target root ;;
  setup_sampler root ;;
  setup_camera root ;;
  setup_output root ;;
  setup_threads root.

(** [Setup], for a scene file that loads, with root element [root]. *)
Definition Setup (root : TiXmlElement) : code bool unit :=
  setup_elements root ;;
  setup_camera_sensor ;;
  setup_shared_memory ;;
  return_ true.

End SystemCode.

(* ------------------------------------------------------------------ *)
(** ** The vocabulary of the specification *)

(** [ceil(a/b)] of the specification, in exact arithmetic. *)
Definition cdiv (a b : Z) : Z := (a + b - 1) / b.

(** The pixel [(px, py)] lies in the rectangle of the task [t]. *)
Definition covers (t : RenderTask) (px py : Z) : Prop :=
  Vector2i.x (ori t) <= px < Vector2i.x (ori t) + Vector2i.x (size t) /\
  Vector2i.y (ori t) <= py < Vector2i.y (ori t) + Vector2i.y (size t).

Definition coversb (t : RenderTask) (px py : Z) : bool :=
  (Vector2i.x (ori t) <=? px) && (px <? Vector2i.x (ori t) + Vector2i.x (size t))
  && (Vector2i.y (ori t) <=? py) && (py <? Vector2i.y (ori t) + Vector2i.y (size t)).

(** The number of pixels of a task's rectangle. *)
Definition area (t : RenderTask) : Z := Vector2i.x (size t) * Vector2i.y (size t).

(** The square spiral as the specification words it: directions in the order
    up, left, down, right (rows are numbered downwards), and runs of
    1, 1, 2, 2, 3, 3, ... cells. *)
Definition up : Vector2i.t := Vector2i.mk 0 (-1).
Definition left : Vector2i.t := Vector2i.mk (-1) 0.
Definition down : Vector2i.t := Vector2i.mk 0 1.
Definition right : Vector2i.t := Vector2i.mk 1 0.

Definition leg_direction (leg : nat) : Vector2i.t :=
  match (leg mod 4)%nat with
  | 0%nat => up
  | 1%nat => left
  | 2%nat => down
  | _ => right
  end.

Definition run_length (leg : nat) : nat := S (leg / 2).

(** The [n] cells that follow [p] in direction [d], and the cell a walk of
    [n] steps ends in. *)
Fixpoint walk (p d : Vector2i.t) (n : nat) : list Vector2i.t :=
  match n with
  | O => []
  | S n' => Vector2i.add p d :: walk (Vector2i.add p d) d n'
  end.

Fixpoint walk_end (p d : Vector2i.t) (n : nat) : Vector2i.t :=
  match n with
  | O => p
  | S n' => walk_end (Vector2i.add p d) d n'
  end.

(** The cells of [legs] consecutive runs, the first of them run number
    [leg], starting after the cell [p]. *)
Fixpoint spiral_legs (legs leg : nat) (p : Vector2i.t) : list Vector2i.t :=
  match legs with
  | O => []
  | S legs' =>
      walk p (leg_direction leg) (run_length leg)
      ++ spiral_legs legs' (S leg) (walk_end p (leg_direction leg) (run_length leg))
  end.

Definition square_spiral (start : Vector2i.t) (legs : nat) : list Vector2i.t :=
  start :: spiral_legs legs 0 start.

(** The tasks of a list of cells, numbered as [taskid++] numbers them. *)
Fixpoint make_tasks (width height tilesize id : Z) (cells : list Vector2i.t) : list RenderTask :=
  match cells with
  | [] => []
  | p :: rest =>
      make_task width height tilesize id p
      :: make_tasks width height tilesize (u32 (id + 1)) rest
  end.

(** The state of the loop of [_pushRenderTask] after [n] passes, and the
    cells the first [n] passes looked at. *)
Definition iterate (width height tilesize : Z) (tn : Vector2i.t) (n : nat) : spiral :=
  Nat.iter n (body width height tilesize tn) (spiral_init tn).

Definition trail (width height tilesize : Z) (tn : Vector2i.t) (n : nat) : list Vector2i.t :=
  map (fun i => cur_pos (iterate width height tilesize tn i)) (seq 0 n).

(** Where the loop stands while it walks the ring [k] around the centre [c]:
    the direction, the run length, the position, and the number [n] of
    passes made. *)
Definition on_leg (c : Vector2i.t) (k : Z) (s : spiral) (n : Z) : Prop :=
  let cx := Vector2i.x c in
  let cy := Vector2i.y c in
  let px := Vector2i.x (cur_pos s) in
  let py := Vector2i.y (cur_pos s) in
  let l := cur_len s in
  (cur_dir s = 0 /\ cur_dir_len s = 2 * k + 1 /\ 0 <= l <= 2 * k + 1 /\ (l = 0 -> k = 0) /\
   px = cx + k /\ py = cy + k - l /\ n = 4 * (k * k) + 2 * k + l)
  \/ (cur_dir s = 1 /\ cur_dir_len s = 2 * k + 1 /\ 1 <= l <= 2 * k + 1 /\
      px = cx + k - l /\ py = cy - k - 1 /\ n = 4 * (k * k) + 4 * k + 1 + l)
  \/ (cur_dir s = 2 /\ cur_dir_len s = 2 * k + 2 /\ 1 <= l <= 2 * k + 2 /\
      px = cx - k - 1 /\ py = cy - k - 1 + l /\ n = 4 * (k * k) + 6 * k + 2 + l)
  \/ (cur_dir s = 3 /\ cur_dir_len s = 2 * k + 2 /\ 1 <= l <= 2 * k + 2 /\
      px = cx - k - 1 + l /\ py = cy + k + 1 /\ n = 4 * (k * k) + 8 * k + 4 + l).

(** The cells the loop has looked at before the current one. *)
Definition visited (c : Vector2i.t) (k : Z) (s : spiral) (qx qy : Z) : Prop :=
  let cx := Vector2i.x c in
  let cy := Vector2i.y c in
  let l := cur_len s in
  (cur_dir s = 0 /\
   ((cx - k <= qx <= cx + k - 1 /\ cy - k <= qy <= cy + k)
    \/ (qx = cx + k /\ cy + k - l < qy <= cy + k)))
  \/ (cur_dir s = 1 /\
      ((cx - k <= qx <= cx + k /\ cy - k <= qy <= cy + k)
       \/ (qy = cy - k - 1 /\ cx + k - l < qx <= cx + k)))
  \/ (cur_dir s = 2 /\
      ((cx - k <= qx <= cx + k /\ cy - k - 1 <= qy <= cy + k)
       \/ (qx = cx - k - 1 /\ cy - k - 1 <= qy < cy - k - 1 + l)))
  \/ (cur_dir s = 3 /\
      ((cx - k - 1 <= qx <= cx + k /\ cy - k - 1 <= qy <= cy + k)
       \/ (qy = cy + k + 1 /\ cx - k - 1 <= qx < cx - k - 1 + l))).

(** A bound on the number of passes of the loop, from the size of the grid. *)
Definition pass_bound (tn : Vector2i.t) : Z :=
  let m := Z.max (Vector2i.x tn) (Vector2i.y tn) in 4 * (m * m) + 10 * m + 8.

(** The value of [taskid] after the cells of a list have been given a task. *)
Definition next_id (cells : list Vector2i.t) (id : Z) : Z :=
  fold_left (fun i _ => u32 (i + 1)) cells id.

(** The cell the runs [leg], ..., [leg + legs - 1] end in, walked from [p]. *)
Fixpoint legs_end (legs leg : nat) (p : Vector2i.t) : Vector2i.t :=
  match legs with
  | O => p
  | S legs' => legs_end legs' (S leg) (walk_end p (leg_direction leg) (run_length leg))
  end.

(** The loop is [o] cells into run number [j]. *)
Definition in_leg (j o : nat) (s : spiral) : Prop :=
  cur_dir s = Z.of_nat (j mod 4) /\
  cur_dir_len s = Z.of_nat (run_length j) /\
  cur_len s = Z.of_nat o /\ (o <= run_length j)%nat.

(** The passes the [for] loops of lines 180 and 181 still make from [i]. *)
Definition passes_left (limit tilesize i : Z) : Z :=
  if i <? limit then cdiv (limit - i) tilesize else 0.

(** The cell of the tile grid a pixel falls in. *)
Definition cell_of (tilesize px py : Z) : Vector2i.t :=
  Vector2i.mk (px / tilesize) (py / tilesize).

(** A cell's number in row-major order. *)
Definition cell_index (tn p : Vector2i.t) : nat :=
  Z.to_nat (Vector2i.y p * Vector2i.x tn + Vector2i.x p).

(** Fuel that lets [pushRenderTask] finish on a grid [tn]. *)
Definition push_fuel (tn : Vector2i.t) : nat :=
  Z.to_nat (pass_bound tn + Vector2i.x tn + Vector2i.y tn + 2).

(** *** Properties of runs *)

(** Every run of [c] ends in a machine related by [I] to the one it
    started in. *)
Definition keeps {R A : Type} (I : machine -> machine -> Prop) (c : code R A) : Prop :=
  forall m, I m (final (c m)).

Definition is_push (e : event) : bool :=
  match e with E_PushTask _ => true | _ => false end.

Definition is_thread (e : event) : bool :=
  match e with E_NewThread _ | E_BeginThread _ | E_Join _ => true | _ => false end.

Definition no_push (e : event) : bool := negb (is_push e).
Definition no_thread (e : event) : bool := negb (is_thread e).
Definition quiet (e : event) : bool := no_push e && no_thread e.

(** The run appended events, all of them of the class [P]. *)
Definition appends (P : event -> bool) (m m' : machine) : Prop :=
  exists evs, trace m' = trace m ++ evs /\ forallb P evs = true.

(** The run appended events in two phases: first events that are no thread
    event, then events that are no push. *)
Definition two_phases (m m' : machine) : Prop :=
  exists before after,
    trace m' = trace m ++ before ++ after /\
    forallb no_thread before = true /\ forallb no_push after = true.

(** The run left the members [m_camera] and [m_pProgress] as they were,
    and an attached image sensor attached. *)
Definition untouched (m m' : machine) : Prop :=
  m_camera (sys m') = m_camera (sys m) /\
  m_pProgress (sys m') = m_pProgress (sys m) /\
  (m_imagesensor (sys m) <> None -> m_imagesensor (sys m') <> None).

(** The entries set among the first [n] of a completion table. *)
Definition done_among (n : nat) (table : list bool) : Z :=
  Z.of_nat (List.length (filter (fun b => b) (firstn n table))).

(** [progress_of k N] is [floor(100 k / N)] or one less. *)
Definition progress_near_floor (k N : Z) : bool :=
  (100 * k / N - 1 <=? progress_of k N) && (progress_of k N <=? 100 * k / N).

(** [progress_near_floor] for every total from 1 to [n] and every count up
    to the total. *)
Definition progress_check (n : nat) : bool :=
  forallb (fun N => forallb (fun k => progress_near_floor (Z.of_nat k) (Z.of_nat N))
                            (seq 0 (S N)))
          (seq 1 n).

(** The run left the progress pointer as it was. *)
Definition same_progress (m m' : machine) : Prop :=
  m_pProgress (sys m') = m_pProgress (sys m).


(** Every attribute [Setup] reads from the elements before line 400 is
    there, and a [Sampler] element names a sampler [CREATE_TYPE] knows. *)
Definition reads_succeed (sampler_registered : string -> bool) (root : TiXmlElement) : Prop :=
  (exists e v, FirstChildElement "Scene" root = Some e /\ Attribute "value" e = Some v) /\
  (exists e t,
     FirstChildElement "Integrator" root = Some e /\ Attribute "type" e = Some t /\
     Forall (fun p => Attribute "name" p <> None /\ Attribute "value" p <> None)
            (ChildElements "Property" e)) /\
  (forall e, FirstChildElement "RenderTargetSize" root = Some e ->
             Attribute "w" e <> None /\ Attribute "h" e <> None) /\
  (forall e, FirstChildElement "Sampler" root = Some e ->
             exists r t, Attribute "round" e = Some r /\ Attribute "type" e = Some t /\
                         sampler_registered t = true) /\
  (forall e, FirstChildElement "OutputFile" root = Some e -> Attribute "name" e <> None) /\
  (forall e, FirstChildElement "ThreadNum" root = Some e -> Attribute "name" e <> None).

(** The exact size of the shared region: the header, the pixel buffer and
    the two trailing bytes. *)
Definition region_size (w h tile : Z) : Z :=
  cdiv w tile * cdiv h tile
  + cdiv w tile * cdiv h tile * tile * tile * 4 * 4 * 2
  + 2.

(** *** Sample runs *)

Module Sample.

#[local] Open Scope string_scope.

Definition element (name : string) (attributes : list (string * string)) : TiXmlElement :=
  Element name attributes [].

(** A scene file with every element [Setup] looks for. *)
Definition full_scene : TiXmlElement :=
  Element "Root" []
    [ element "Scene" [("value", "scene/cornell.scene")];
      Element "Integrator" [("type", "pt")]
        [ element "Property" [("name", "max_bounce"); ("value", "8")] ];
      element "RenderTargetSize" [("w", "1920"); ("h", "1080")];
      element "Sampler" [("type", "stratified"); ("round", "-5")];
      Element "Camera" [("type", "perspective")]
        [ element "Property" [("name", "fov"); ("value", "45")] ];
      element "OutputFile" [("name", "result.bmp")];
      element "ThreadNum" [("name", "2")] ].

(** The same file without its [Camera] element. *)
Definition scene_without_camera : TiXmlElement :=
  Element "Root" []
    [ element "Scene" [("value", "scene/cornell.scene")];
      Element "Integrator" [("type", "pt")]
        [ element "Property" [("name", "max_bounce"); ("value", "8")] ];
      element "RenderTargetSize" [("w", "64"); ("h", "64")];
      element "Sampler" [("type", "stratified"); ("round", "4000")] ].

(** A [Scene] element that names no file, an [Integrator] and no [Camera]. *)
Definition scene_without_value : TiXmlElement :=
  Element "Root" []
    [ element "Scene" [("file", "scene/cornell.scene")];
      element "Integrator" [("type", "pt")] ].

Definition registered (name : string) : bool := true.
Definition RoundSize (s : Sampler) (round : Z) : Z := round.
Definition timer_reading (calls : list event) : Z := Z.of_nat (List.length calls).

(** An allocation that fails, and one that hands out a region of the size
    asked for, with every byte set. *)
Definition no_region (name : string) (size : Z) : SharedMemory := mkSharedMemory None 0.
Definition dirty_region (name : string) (size : Z) : SharedMemory :=
  mkSharedMemory (Some (fun _ => 255)) size.

(** Threads that finish every task. *)
Definition run_threads (threads : Z) (q : list RenderTask) (table : list bool) : list bool :=
  map (fun _ => true) table.

(** A [System] as its constructor leaves it. *)
Definition constructed : machine := mkMachine _preInit [] (mkSharedMemory None 0) [].

(** A [System] with a 64 by 64 image sensor and no camera. *)
Definition sensor_only : machine :=
  mkMachine (set_m_imagesensor (Some (mkImageSensor false 64 64 [])) _preInit)
            [] (mkSharedMemory None 0) [].

(** A [System] with a camera and no image sensor. *)
Definition camera_only : machine :=
  mkMachine (set_m_camera (Some (mkCamera "perspective" [])) _preInit)
            [] (mkSharedMemory None 0) [].

(** A [System] with a 64 by 64 image sensor and a camera. *)
Definition ready : machine :=
  mkMachine (set_m_camera (Some (mkCamera "perspective" [])) (sys sensor_only))
            [] (mkSharedMemory None 0) [].

(** [constructed] once [Setup] has read [full_scene] and set the camera up,
    in Blender mode. *)
Definition after_elements : machine :=
  final ((setup_elements true registered registered RoundSize full_scene ;;
          setup_camera_sensor) constructed).

(** [constructed] after [Setup] of [full_scene], in Blender mode with tiles
    of 32 and without a shared region. *)
Definition set_up_without_region : machine :=
  final (Setup true 32 registered registered RoundSize no_region full_scene constructed).

(** Four tasks, two of them done. *)
Definition half_done (m : machine) : machine :=
  mkMachine (set_tasks 4 [true; true; false; false] (sys m))
            (task_queue m) (shared m) (trace m).

End Sample.

(* ------------------------------------------------------------------ *)
(** ** More notions for the runs of [System] *)

(** The events [_executeRenderingTasks] adds for a registered integrator,
    up to the progress report: the sensor, the integrator with its
    properties, then one block per loop over the threads. *)
Definition execution_events (type : string) (properties : list Property) (threads : Z)
  : list event :=
  [E_SensorPreProcess]
  ++ map (fun p => E_IntegratorSetProperty (prop_name p) (prop_value p)) properties
  ++ [E_IntegratorPreProcess; E_IntegratorSetupCamera]
  ++ map (E_PreMalloc (1024 * 1024 * 64)) (thread_ids threads)
  ++ map E_NewThread (thread_ids threads)
  ++ map E_BeginThread (thread_ids threads)
  ++ map E_Join (thread_ids threads).

(** The events of one progress report. *)
Definition progress_events (blender : bool) (progress : Z) : list event :=
  (if blender then [] else [E_cout_unsigned progress; E_cout_string progress_label])
  ++ [E_cout_endl].

(** A run of [c] that returns, returns [r0]. *)
Definition only_returns {R A : Type} (r0 : R) (c : code R A) : Prop :=
  forall m r m', c m = Return r m' -> r = r0.

(** The run left the value [f] reads from the members as it was. *)
Definition field_kept {T : Type} (f : System -> T) (m m' : machine) : Prop :=
  f (sys m') = f (sys m).

(** The run left the shared region as it was. *)
Definition shared_kept (m m' : machine) : Prop := shared m' = shared m.

(** No request for a shared region and no call of the camera. *)
Definition before_camera (e : event) : bool :=
  match e with
  | E_CreateSharedMemory _ _ | E_CameraSetImageSensor | E_CameraPreProcess => false
  | _ => true
  end.

(** The [Property] children that have both a [name] and a [value], as the
    pairs [SetProperty] gets. *)
Definition complete_pairs (props : list TiXmlElement) : list (string * string) :=
  flat_map (fun p =>
              match Attribute "name" p, Attribute "value" p with
              | Some name, Some value => [(name, value)]
              | _, _ => []
              end) props.

(** The properties the loop of lines 323 to 334 stores, when every
    [Property] child has its [name] and [value]. *)
Definition stored_properties (props : list TiXmlElement) : list Property :=
  flat_map (fun p =>
              match Attribute "name" p, Attribute "value" p with
              | Some name, Some value => [mkProperty name value]
              | _, _ => []
              end) props.

(** The size [Setup] gives the sensor: that of the [RenderTargetSize]
    element, or 1920 by 1080. *)
Definition target_size (root : TiXmlElement) : Z * Z :=
  match FirstChildElement "RenderTargetSize" root with
  | Some element =>
      match Attribute "w" element, Attribute "h" element with
      | Some w, Some h => (u32 (atoi w), u32 (atoi h))
      | _, _ => (0, 0)
      end
  | None => (1920, 1080)
  end.

(** *** More sample runs *)

Module Cases.

#[local] Open Scope string_scope.

Definition unregistered (name : string) : bool := false.

(** A [System] ready to render a 100 by 50 image with three threads and
    an integrator with two properties, its eight tasks not yet done. *)
Definition ready_100_50 : machine :=
  mkMachine
    (mkSystem (Some (mkCamera "perspective" [])) 0 0 3 None
              (Some (mkImageSensor false 100 50 [])) (Some (mkSampler "stratified")) 4
              8 (repeat false 8) "pt" [mkProperty "max_bounce" "8"; mkProperty "rr" "0.5"])
    [] (mkSharedMemory None 0) [].

End Cases.

(** The size and the kind of the attached sensor. *)
Definition sensor_size (s : System) : option (Z * Z) :=
  option_map (fun i => (sensor_width i, sensor_height i)) (m_imagesensor s).

Definition sensor_kind (s : System) : option bool :=
  option_map sensor_blender (m_imagesensor s).

Module Files.

#[local] Open Scope string_scope.

(** A scene file whose camera is of a type nobody registered, and whose
    camera has one property without a value. *)
Definition odd_camera : TiXmlElement :=
  Element "Root" []
    [ Sample.element "Scene" [("value", "scene/box.scene")];
      Sample.element "Integrator" [("type", "bdpt")];
      Element "Camera" [("type", "fisheye")]
        [ Sample.element "Property" [("name", "fov"); ("value", "170")];
          Sample.element "Property" [("name", "lens")];
          Sample.element "Property" [("name", "up"); ("value", "0 1 0")] ] ].

(** Every camera type but [fisheye] is known. *)
Definition no_fisheye (name : string) : bool := negb (String.eqb name "fisheye").

(** A [System] that has been set up before: it has a camera and two
    integrator properties. *)
Definition used : machine :=
  mkMachine
    (mkSystem (Some (mkCamera "ortho" [])) 0 0 1 None None None 0 0 [] "pt"
              [mkProperty "max_bounce" "8"; mkProperty "rr" "0.5"])
    [] (mkSharedMemory None 0) [].

(** A scene file for an 8192 by 8192 image, with a sampler of 64 rounds. *)
Definition large_target : TiXmlElement :=
  Element "Root" []
    [ Sample.element "Scene" [("value", "scene/cornell.scene")];
      Sample.element "Integrator" [("type", "pt")];
      Sample.element "RenderTargetSize" [("w", "8192"); ("h", "8192")];
      Sample.element "Sampler" [("type", "stratified"); ("round", "64")];
      Sample.element "Camera" [("type", "perspective")];
      Sample.element "OutputFile" [("name", "result.bmp")];
      Sample.element "ThreadNum" [("name", "8")] ].

End Files.

(** How many rings a cell is away from the cell [c]. *)
Definition ring (c p : Vector2i.t) : Z :=
  Z.max (Z.abs (Vector2i.x p - Vector2i.x c)) (Z.abs (Vector2i.y p - Vector2i.y c)).

(** The cell of the tile grid a task starts in. *)
Definition task_cell (tilesize : Z) (t : RenderTask) : Vector2i.t :=
  cell_of tilesize (Vector2i.x (ori t)) (Vector2i.y (ori t)).

(* ------------------------------------------------------------------ *)
(** ** The spiral of [_pushRenderTask] *)

(** Evaluates the remainders and table lookups of a pass once the direction
    is known. *)
Ltac eval_turn :=
  repeat match goal with
    | |- context [Z.rem ?a ?b] =>
        let v := eval vm_compute in (Z.rem a b) in progress change (Z.rem a b) with v
    | |- context [Z.to_nat ?a] =>
        let v := eval vm_compute in (Z.to_nat a) in progress change (Z.to_nat a) with v
    end;
  cbv beta iota; cbn [Vector2i.x Vector2i.y].

Lemma visited_up c k s qx qy :
  cur_dir s = 0 ->
  (visited c k s qx qy <->
   (Vector2i.x c - k <= qx <= Vector2i.x c + k - 1 /\ Vector2i.y c - k <= qy <= Vector2i.y c + k)
   \/ (qx = Vector2i.x c + k /\ Vector2i.y c + k - cur_len s < qy <= Vector2i.y c + k)).
Proof. unfold visited; cbv zeta; intros ->; lia. Qed.

Lemma visited_left c k s qx qy :
  cur_dir s = 1 ->
  (visited c k s qx qy <->
   (Vector2i.x c - k <= qx <= Vector2i.x c + k /\ Vector2i.y c - k <= qy <= Vector2i.y c + k)
   \/ (qy = Vector2i.y c - k - 1 /\ Vector2i.x c + k - cur_len s < qx <= Vector2i.x c + k)).
Proof. unfold visited; cbv zeta; intros ->; lia. Qed.

Lemma visited_down c k s qx qy :
  cur_dir s = 2 ->
  (visited c k s qx qy <->
   (Vector2i.x c - k <= qx <= Vector2i.x c + k /\ Vector2i.y c - k - 1 <= qy <= Vector2i.y c + k)
   \/ (qx = Vector2i.x c - k - 1 /\
       Vector2i.y c - k - 1 <= qy < Vector2i.y c - k - 1 + cur_len s)).
Proof. unfold visited; cbv zeta; intros ->; lia. Qed.

Lemma visited_right c k s qx qy :
  cur_dir s = 3 ->
  (visited c k s qx qy <->
   (Vector2i.x c - k - 1 <= qx <= Vector2i.x c + k /\
    Vector2i.y c - k - 1 <= qy <= Vector2i.y c + k)
   \/ (qy = Vector2i.y c + k + 1 /\
       Vector2i.x c - k - 1 <= qx < Vector2i.x c - k - 1 + cur_len s)).
Proof. unfold visited; cbv zeta; intros ->; lia. Qed.

Section SpiralFacts.

Variables width height tilesize : Z.
Variable tn : Vector2i.t.

Lemma on_leg_body (c : Vector2i.t) (k : Z) (s : spiral) (n : Z) :
  0 <= k -> on_leg c k s n ->
  exists k', 0 <= k' /\ on_leg c k' (body width height tilesize tn s) (n + 1) /\
    forall qx qy, visited c k' (body width height tilesize tn s) qx qy <->
                  visited c k s qx qy
                  \/ (qx = Vector2i.x (cur_pos s) /\ qy = Vector2i.y (cur_pos s)).
Proof.
  intros Hk Hs.
  destruct s as [[px py] d l dl id q]. destruct c as [cx cy].
  unfold on_leg, visited in *. cbn [cur_pos cur_dir cur_len cur_dir_len Vector2i.x Vector2i.y] in *.
  unfold body, emit. cbn [cur_pos cur_dir cur_len cur_dir_len taskid queue].
  destruct (inside tn (Vector2i.mk px py));
    unfold turn; cbn [cur_pos cur_dir cur_len cur_dir_len taskid queue];
    (destruct Hs as [Hs | [Hs | [Hs | Hs]]];
     destruct Hs as (-> & -> & Hs);
     match goal with |- context [?a <=? ?b] => destruct (Z.leb_spec a b) end;
     unfold advance, dir, nth, Vector2i.add;
     cbn [cur_pos cur_dir cur_len cur_dir_len taskid queue Vector2i.x Vector2i.y];
     eval_turn;
     first [ exists k; split; [lia|]; split; [lia | intros qx qy; lia]
           | exists (k + 1); split; [lia|]; split; [lia | intros qx qy; lia] ]).
Qed.

Lemma iterate_S (n : nat) :
  iterate width height tilesize tn (S n)
  = body width height tilesize tn (iterate width height tilesize tn n).
Proof. reflexivity. Qed.

Lemma trail_S (n : nat) :
  trail width height tilesize tn (S n)
  = trail width height tilesize tn n ++ [cur_pos (iterate width height tilesize tn n)].
Proof. unfold trail. rewrite seq_S, map_app. reflexivity. Qed.

Lemma trail_length (n : nat) : List.length (trail width height tilesize tn n) = n.
Proof. unfold trail. now rewrite length_map, length_seq. Qed.

Lemma trail_nth (n i : nat) :
  (i < n)%nat ->
  nth_error (trail width height tilesize tn n) i
  = Some (cur_pos (iterate width height tilesize tn i)).
Proof.
  intros Hi. unfold trail.
  rewrite nth_error_map, nth_error_seq.
  destruct (Nat.ltb_spec i n); [reflexivity | lia].
Qed.

Lemma vector_eq (p : Vector2i.t) (qx qy : Z) :
  Vector2i.mk qx qy = p <-> qx = Vector2i.x p /\ qy = Vector2i.y p.
Proof.
  destruct p as [px py]; cbn. split.
  - intros E; injection E; auto.
  - intros [-> ->]; reflexivity.
Qed.

(** After [n] passes the loop is on a leg of some ring, and the cells it has
    looked at are the ones [visited] describes. *)
Lemma trail_visited (n : nat) :
  exists k, 0 <= k /\
    on_leg (Vector2i.div tn 2) k (iterate width height tilesize tn n) (Z.of_nat n) /\
    forall qx qy,
      In (Vector2i.mk qx qy) (trail width height tilesize tn n) <->
      visited (Vector2i.div tn 2) k (iterate width height tilesize tn n) qx qy.
Proof.
  induction n as [|n (k & Hk & Hleg & Hvis)].
  - exists 0. split; [lia|]. split.
    + left. cbn. lia.
    + intros qx qy. unfold visited. cbn. lia.
  - destruct (on_leg_body _ k _ _ Hk Hleg) as (k' & Hk' & Hleg' & Hvis').
    exists k'. split; [assumption|]. split.
    + rewrite iterate_S. replace (Z.of_nat (S n)) with (Z.of_nat n + 1) by lia. assumption.
    + intros qx qy. rewrite iterate_S, trail_S, in_app_iff, Hvis', Hvis.
      cbn [In]. rewrite <- vector_eq. intuition congruence.
Qed.

Lemma current_not_visited (c : Vector2i.t) (k : Z) (s : spiral) (n : Z) :
  on_leg c k s n ->
  ~ visited c k s (Vector2i.x (cur_pos s)) (Vector2i.y (cur_pos s)).
Proof.
  unfold on_leg, visited. cbv zeta. lia.
Qed.

Lemma trail_NoDup (n : nat) : NoDup (trail width height tilesize tn n).
Proof.
  induction n as [|n IH].
  - constructor.
  - rewrite trail_S. apply NoDup_app; [assumption | repeat constructor; intros [] |].
    intros p Hp [<- | []].
    destruct (trail_visited n) as (k & Hk & Hleg & Hvis).
    apply (current_not_visited _ _ _ _ Hleg). apply Hvis.
    destruct (cur_pos (iterate width height tilesize tn n)); exact Hp.
Qed.

Lemma inside_spec (p : Vector2i.t) :
  inside tn p = true <->
  0 <= Vector2i.x p < Vector2i.x tn /\ 0 <= Vector2i.y p < Vector2i.y tn.
Proof.
  unfold inside. rewrite !andb_true_iff, !Z.leb_le, !Z.ltb_lt. lia.
Qed.

Lemma outside_both_spec (p : Vector2i.t) :
  outside_both tn p = true <->
  (Vector2i.x p < 0 \/ Vector2i.x tn <= Vector2i.x p) /\
  (Vector2i.y p < 0 \/ Vector2i.y tn <= Vector2i.y p).
Proof.
  unfold outside_both. rewrite andb_true_iff, !orb_true_iff, !Z.leb_le, !Z.ltb_lt. tauto.
Qed.

Lemma outside_both_false (p : Vector2i.t) :
  outside_both tn p = false <->
  (0 <= Vector2i.x p < Vector2i.x tn) \/ (0 <= Vector2i.y p < Vector2i.y tn).
Proof.
  rewrite <- not_true_iff_false, outside_both_spec. lia.
Qed.

End SpiralFacts.

(** *** The loop returns, and by then it has looked at every cell *)

Section SpiralTermination.

Variables width height tilesize : Z.
Variable tn : Vector2i.t.
Hypothesis tn_x_pos : 0 < Vector2i.x tn.
Hypothesis tn_y_pos : 0 < Vector2i.y tn.

Lemma centre_bounds :
  2 * Vector2i.x (Vector2i.div tn 2) <= Vector2i.x tn <= 2 * Vector2i.x (Vector2i.div tn 2) + 1 /\
  2 * Vector2i.y (Vector2i.div tn 2) <= Vector2i.y tn <= 2 * Vector2i.y (Vector2i.div tn 2) + 1.
Proof.
  unfold Vector2i.div; cbn [Vector2i.x Vector2i.y].
  rewrite !Z.quot_div_nonneg by lia.
  pose proof (Z.div_mod (Vector2i.x tn) 2 ltac:(lia)).
  pose proof (Z.mod_pos_bound (Vector2i.x tn) 2 ltac:(lia)).
  pose proof (Z.div_mod (Vector2i.y tn) 2 ltac:(lia)).
  pose proof (Z.mod_pos_bound (Vector2i.y tn) 2 ltac:(lia)).
  lia.
Qed.

Lemma centre_inside : inside tn (Vector2i.div tn 2) = true.
Proof.
  apply inside_spec. pose proof centre_bounds. lia.
Qed.

(** As long as no cell looked at was outside on both axes, the ring
    number stays below the larger side of the grid. *)
Lemma ring_bounded (k : Z) (s : spiral) (n : Z) :
  0 <= k ->
  on_leg (Vector2i.div tn 2) k s n ->
  (forall qx qy, visited (Vector2i.div tn 2) k s qx qy ->
                 outside_both tn (Vector2i.mk qx qy) = false) ->
  k <= Z.max (Vector2i.x tn) (Vector2i.y tn)
  /\ n <= 4 * (k * k) + 10 * k + 6.
Proof.
  intros Hk Hleg Hsafe.
  pose proof centre_bounds as Hc.
  assert (Hcorner : forall qx qy, visited (Vector2i.div tn 2) k s qx qy ->
            (0 <= qx < Vector2i.x tn) \/ (0 <= qy < Vector2i.y tn)).
  { intros qx qy Hv. apply Hsafe in Hv. apply outside_both_false in Hv. exact Hv. }
  clear Hsafe.
  remember (Vector2i.div tn 2) as c eqn:Ec. clear Ec.
  unfold on_leg in Hleg. cbv zeta in Hleg.
  destruct Hleg as [Hl | [Hl | [Hl | Hl]]]; destruct Hl as (Hd & Hl).
  - destruct (Z.eq_dec (cur_len s) 0) as [E | E]; [lia|].
    specialize (Hcorner (Vector2i.x c + k) (Vector2i.y c + k)).
    rewrite (visited_up _ _ _ _ _ Hd) in Hcorner. lia.
  - specialize (Hcorner (Vector2i.x c + k) (Vector2i.y c - k - 1)).
    rewrite (visited_left _ _ _ _ _ Hd) in Hcorner. lia.
  - specialize (Hcorner (Vector2i.x c - k - 1) (Vector2i.y c - k - 1)).
    rewrite (visited_down _ _ _ _ _ Hd) in Hcorner. lia.
  - specialize (Hcorner (Vector2i.x c - k - 1) (Vector2i.y c + k + 1)).
    rewrite (visited_right _ _ _ _ _ Hd) in Hcorner. lia.
Qed.

(** Once the current cell is outside on both axes while no earlier one
    was, every cell of the grid has been looked at. *)
Lemma grid_visited (k : Z) (s : spiral) (n : Z) :
  0 <= k ->
  on_leg (Vector2i.div tn 2) k s n ->
  (forall qx qy, visited (Vector2i.div tn 2) k s qx qy ->
                 outside_both tn (Vector2i.mk qx qy) = false) ->
  outside_both tn (cur_pos s) = true ->
  forall qx qy, inside tn (Vector2i.mk qx qy) = true ->
                visited (Vector2i.div tn 2) k s qx qy.
Proof.
  intros Hk Hleg Hsafe Hout qx qy Hin.
  pose proof centre_bounds as Hc.
  apply inside_spec in Hin. cbn [Vector2i.x Vector2i.y] in Hin.
  apply outside_both_spec in Hout.
  assert (Hcorner : forall qx qy, visited (Vector2i.div tn 2) k s qx qy ->
            (0 <= qx < Vector2i.x tn) \/ (0 <= qy < Vector2i.y tn)).
  { intros ax ay Hv. apply Hsafe in Hv. apply outside_both_false in Hv. exact Hv. }
  clear Hsafe.
  remember (Vector2i.div tn 2) as c eqn:Ec. clear Ec.
  unfold on_leg in Hleg. cbv zeta in Hleg.
  destruct Hleg as [Hl | [Hl | [Hl | Hl]]]; destruct Hl as (Hd & Hl).
  - destruct (Z.eq_dec (cur_len s) 0) as [E | E]; [lia|].
    specialize (Hcorner (Vector2i.x c + k) (Vector2i.y c + k)).
    rewrite (visited_up _ _ _ _ _ Hd) in *. lia.
  - specialize (Hcorner (Vector2i.x c + k) (Vector2i.y c - k - 1)).
    rewrite (visited_left _ _ _ _ _ Hd) in *. lia.
  - specialize (Hcorner (Vector2i.x c - k - 1) (Vector2i.y c - k - 1)).
    rewrite (visited_down _ _ _ _ _ Hd) in *. lia.
  - specialize (Hcorner (Vector2i.x c - k - 1) (Vector2i.y c + k + 1)).
    rewrite (visited_right _ _ _ _ _ Hd) in *. lia.
Qed.

Lemma first_true (f : nat -> bool) (N : nat) :
  (exists n, (n <= N)%nat /\ f n = true /\ forall m, (m < n)%nat -> f m = false)
  \/ (forall m, (m <= N)%nat -> f m = false).
Proof.
  induction N as [|N [(n & Hn & Hf & Hmin) | Hall]].
  - destruct (f 0%nat) eqn:E.
    + left. exists 0%nat. repeat split; [lia | assumption | intros; lia].
    + right. intros m Hm. replace m with 0%nat by lia. assumption.
  - left. exists n. repeat split; [lia | assumption | assumption].
  - destruct (f (S N)) eqn:E.
    + left. exists (S N). repeat split; [lia | assumption |].
      intros m Hm. apply Hall. lia.
    + right. intros m Hm. destruct (Nat.eq_dec m (S N)) as [-> | Hne]; [assumption|].
      apply Hall. lia.
Qed.

(** The loop, run from [s], returns the state after the first pass that
    ends outside on both axes. *)
Lemma spiral_loop_first (fuel : nat) (s : spiral) (n : nat) :
  (forall m, (m < n)%nat ->
     outside_both tn (cur_pos (Nat.iter (S m) (body width height tilesize tn) s)) = false) ->
  outside_both tn (cur_pos (Nat.iter (S n) (body width height tilesize tn) s)) = true ->
  (n < fuel)%nat ->
  spiral_loop width height tilesize fuel tn s
  = Some (Nat.iter (S n) (body width height tilesize tn) s).
Proof.
  revert s n. induction fuel as [|fuel IH]; intros s n Hbefore Hout Hfuel; [lia|].
  cbn [spiral_loop]. cbv zeta. destruct n as [|n].
  - cbn [Nat.iter nat_rect] in Hout. rewrite Hout. reflexivity.
  - pose proof (Hbefore 0%nat ltac:(lia)) as H0. cbn [Nat.iter nat_rect] in H0. rewrite H0.
    rewrite (IH (body width height tilesize tn s) n).
    + rewrite <- Nat.iter_succ_r. reflexivity.
    + intros m Hm. rewrite <- Nat.iter_succ_r. apply Hbefore. lia.
    + rewrite <- Nat.iter_succ_r. exact Hout.
    + lia.
Qed.

(** The loop returns: there is a first pass that ends outside on both axes;
    no earlier pass did, and by then every cell of the grid is in the trail. *)
Lemma spiral_returns :
  exists n,
    (0 < n)%nat /\ Z.of_nat n <= pass_bound tn /\
    outside_both tn (cur_pos (iterate width height tilesize tn n)) = true /\
    (forall m, (m < n)%nat ->
       outside_both tn (cur_pos (iterate width height tilesize tn m)) = false) /\
    (forall p, inside tn p = true -> In p (trail width height tilesize tn n)) /\
    (forall fuel, (n <= fuel)%nat ->
       spiral_loop width height tilesize fuel tn (spiral_init tn)
       = Some (iterate width height tilesize tn n)).
Proof.
  set (f := fun m => outside_both tn (cur_pos (iterate width height tilesize tn m))).
  assert (Hsafe : forall n, (forall m, (m < n)%nat -> f m = false) ->
            forall k qx qy, 
              (forall ax ay, In (Vector2i.mk ax ay) (trail width height tilesize tn n) <->
                             visited (Vector2i.div tn 2) k (iterate width height tilesize tn n) ax ay) ->
              visited (Vector2i.div tn 2) k (iterate width height tilesize tn n) qx qy ->
              outside_both tn (Vector2i.mk qx qy) = false).
  { intros n Hn k qx qy Hvis Hv. apply Hvis in Hv.
    apply In_nth_error in Hv. destruct Hv as (i & Hi).
    assert (Hlt : (i < n)%nat).
    { rewrite <- (trail_length width height tilesize tn n). apply nth_error_Some. congruence. }
    rewrite trail_nth in Hi by assumption. injection Hi as Hi.
    rewrite <- Hi. apply (Hn i Hlt). }
  destruct (first_true f (Z.to_nat (pass_bound tn))) as [(n & Hn & Hf & Hmin) | Hall].
  - exists n.
    assert (Hpos : (0 < n)%nat).
    { destruct n; [|lia]. exfalso. unfold f in Hf. cbn in Hf.
      pose proof centre_inside as Hc. apply inside_spec in Hc.
      apply outside_both_spec in Hf. cbn [Vector2i.div Vector2i.x Vector2i.y] in *. lia. }
    split; [assumption|].
    assert (Hb : 0 <= pass_bound tn) by (unfold pass_bound; nia).
    split; [lia|]. split; [exact Hf|]. split; [exact Hmin|]. split.
    + intros [qx qy] Hin.
      destruct (trail_visited width height tilesize tn n) as (k & Hk & Hleg & Hvis).
      apply Hvis. apply (grid_visited k _ _ Hk Hleg); try assumption.
      intros ax ay. apply (Hsafe n Hmin k ax ay Hvis).
    + intros fuel Hfuel. destruct n as [|n]; [lia|].
      unfold iterate. apply spiral_loop_first; [|exact Hf|lia].
      intros m Hm. apply (Hmin (S m)). lia.
  - exfalso.
    set (N := Z.to_nat (pass_bound tn)) in *.
    destruct (trail_visited width height tilesize tn N) as (k & Hk & Hleg & Hvis).
    assert (Hmin : forall m, (m < N)%nat -> f m = false) by (intros; apply Hall; lia).
    destruct (ring_bounded k _ _ Hk Hleg) as [Hkm Hn].
    { intros ax ay. apply (Hsafe N Hmin k ax ay Hvis). }
    assert (Hb : 0 <= pass_bound tn) by (unfold pass_bound; nia).
    assert (HN : Z.of_nat N = pass_bound tn) by (subst N; lia).
    rewrite HN in Hn. unfold pass_bound in Hn.
    set (M := Z.max (Vector2i.x tn) (Vector2i.y tn)) in *.
    assert (k * k <= M * M) by nia. lia.
Qed.

End SpiralTermination.

(** *** The queue holds the tasks of the cells inside the grid, in order *)

Section QueueFacts.

Variables width height tilesize : Z.
Variable tn : Vector2i.t.

Lemma next_id_snoc (l : list Vector2i.t) (p : Vector2i.t) (id : Z) :
  next_id (l ++ [p]) id = u32 (next_id l id + 1).
Proof. unfold next_id. rewrite fold_left_app. reflexivity. Qed.

Lemma make_tasks_snoc (l : list Vector2i.t) (p : Vector2i.t) (id : Z) :
  make_tasks width height tilesize id (l ++ [p])
  = make_tasks width height tilesize id l
    ++ [make_task width height tilesize (next_id l id) p].
Proof.
  revert id. induction l as [|a l IH]; intros id; cbn.
  - reflexivity.
  - rewrite IH. reflexivity.
Qed.

Lemma make_tasks_length (l : list Vector2i.t) (id : Z) :
  List.length (make_tasks width height tilesize id l) = List.length l.
Proof.
  revert id. induction l as [|a l IH]; intros id; cbn; [reflexivity|].
  now rewrite IH.
Qed.

(** The [i]-th task carries the id [id + i], as long as the ids do not wrap. *)
Lemma make_tasks_nth (l : list Vector2i.t) (id : Z) (i : nat) :
  0 <= id -> id + Z.of_nat (List.length l) <= 2 ^ 32 ->
  nth_error (make_tasks width height tilesize id l) i
  = option_map (make_task width height tilesize (id + Z.of_nat i)) (nth_error l i).
Proof.
  revert id i. induction l as [|a l IH]; intros id i Hid Hlen.
  - destruct i; reflexivity.
  - destruct i as [|i]; cbn [make_tasks nth_error option_map].
    + now rewrite Z.add_0_r.
    + destruct l as [|b l].
      * destruct i; reflexivity.
      * cbn [List.length] in Hlen.
        assert (E : u32 (id + 1) = id + 1) by (unfold u32; apply Z.mod_small; lia).
        rewrite E, IH by (cbn [List.length]; lia).
        do 2 f_equal. lia.
Qed.

Lemma body_queue (s : spiral) :
  queue (body width height tilesize tn s) = queue (emit width height tilesize tn s)
  /\ taskid (body width height tilesize tn s) = taskid (emit width height tilesize tn s).
Proof.
  unfold body, advance, turn.
  destruct (cur_dir_len (emit width height tilesize tn s) <=? cur_len (emit width height tilesize tn s));
    split; reflexivity.
Qed.

Lemma queue_iterate (n : nat) :
  queue (iterate width height tilesize tn n)
  = make_tasks width height tilesize 0
      (filter (inside tn) (trail width height tilesize tn n))
  /\ taskid (iterate width height tilesize tn n)
     = next_id (filter (inside tn) (trail width height tilesize tn n)) 0.
Proof.
  induction n as [|n [IHq IHid]].
  - split; reflexivity.
  - rewrite iterate_S, trail_S, filter_app.
    destruct (body_queue (iterate width height tilesize tn n)) as [-> ->].
    unfold emit. cbn [filter].
    destruct (inside tn (cur_pos (iterate width height tilesize tn n))).
    + cbn [queue taskid]. rewrite make_tasks_snoc, next_id_snoc, IHq, IHid. split; reflexivity.
    + rewrite app_nil_r. split; assumption.
Qed.

(** *** The cells the loop looks at are those of the square spiral *)

Lemma dir_leg_direction (j : nat) :
  nth (Z.to_nat (Z.of_nat (j mod 4))) dir (Vector2i.mk 0 0) = leg_direction j.
Proof.
  rewrite Nat2Z.id. unfold leg_direction.
  pose proof (Nat.mod_upper_bound j 4 ltac:(lia)) as Hr.
  destruct (j mod 4)%nat as [|[|[|[|r]]]]; try reflexivity. lia.
Qed.

Lemma next_leg (j : nat) :
  Z.rem (Z.of_nat (j mod 4) + 1) 4 = Z.of_nat (S j mod 4)
  /\ Z.of_nat (run_length j) + (1 - Z.rem (Z.of_nat (S j mod 4)) 2)
     = Z.of_nat (run_length (S j)).
Proof.
  unfold run_length.
  rewrite !Nat2Z.inj_succ, !Nat2Z.inj_div, !Nat2Z.inj_mod, !Nat2Z.inj_succ.
  change (Z.of_nat 4) with 4. change (Z.of_nat 2) with 2.
  generalize (Nat2Z.is_nonneg j). generalize (Z.of_nat j). intros z Hz.
  split; Z.quot_rem_to_equations; Z.div_mod_to_equations; lia.
Qed.

Lemma walk_snoc (p d : Vector2i.t) (n : nat) :
  walk p d (S n) = walk p d n ++ [Vector2i.add (walk_end p d n) d]
  /\ walk_end p d (S n) = Vector2i.add (walk_end p d n) d.
Proof.
  revert p. induction n as [|n IH]; intros p.
  - split; reflexivity.
  - destruct (IH (Vector2i.add p d)) as [E1 E2]. split.
    + change (walk p d (S (S n))) with (Vector2i.add p d :: walk (Vector2i.add p d) d (S n)).
      rewrite E1. reflexivity.
    + change (walk_end p d (S (S n))) with (walk_end (Vector2i.add p d) d (S n)).
      rewrite E2. reflexivity.
Qed.

Lemma walk_app (p d : Vector2i.t) (n m : nat) :
  walk p d (n + m) = walk p d n ++ walk (walk_end p d n) d m.
Proof.
  revert p. induction n as [|n IH]; intros p; cbn; [reflexivity|].
  now rewrite IH.
Qed.

Lemma spiral_legs_snoc (legs leg : nat) (p : Vector2i.t) :
  spiral_legs (S legs) leg p
  = spiral_legs legs leg p
    ++ walk (legs_end legs leg p) (leg_direction (leg + legs)) (run_length (leg + legs))
  /\ legs_end (S legs) leg p
     = walk_end (legs_end legs leg p) (leg_direction (leg + legs)) (run_length (leg + legs)).
Proof.
  revert leg p. induction legs as [|legs IH]; intros leg p.
  - cbn [spiral_legs legs_end]. rewrite Nat.add_0_r, app_nil_r. split; reflexivity.
  - destruct (IH (S leg) (walk_end p (leg_direction leg) (run_length leg))) as [E1 E2].
    replace (leg + S legs)%nat with (S leg + legs)%nat by lia. split.
    + change (spiral_legs (S (S legs)) leg p)
        with (walk p (leg_direction leg) (run_length leg)
              ++ spiral_legs (S legs) (S leg) (walk_end p (leg_direction leg) (run_length leg))).
      rewrite E1. cbn [spiral_legs legs_end]. now rewrite app_assoc.
    + change (legs_end (S (S legs)) leg p)
        with (legs_end (S legs) (S leg) (walk_end p (leg_direction leg) (run_length leg))).
      rewrite E2. reflexivity.
Qed.

(** After [n] passes the loop is some cells into some run of the spiral,
    and the cells it has looked at, the current one included, are the start
    of the spiral up to there. *)
Lemma trail_spiral (n : nat) :
  exists j o,
    in_leg j o (iterate width height tilesize tn n) /\
    cur_pos (iterate width height tilesize tn n)
    = walk_end (legs_end j 0 (Vector2i.div tn 2)) (leg_direction j) o /\
    trail width height tilesize tn (S n)
    = Vector2i.div tn 2
      :: spiral_legs j 0 (Vector2i.div tn 2)
         ++ walk (legs_end j 0 (Vector2i.div tn 2)) (leg_direction j) o.
Proof.
  induction n as [|n (j & o & (Hd & Hdl & Hl & Ho) & Hpos & Htrail)].
  - exists 0%nat, 0%nat. repeat split; cbn; lia.
  - set (s := iterate width height tilesize tn n) in *.
    assert (Hctl : cur_dir (emit width height tilesize tn s) = cur_dir s /\
                   cur_len (emit width height tilesize tn s) = cur_len s /\
                   cur_dir_len (emit width height tilesize tn s) = cur_dir_len s /\
                   cur_pos (emit width height tilesize tn s) = cur_pos s).
    { unfold emit. destruct (inside tn (cur_pos s)); repeat split; reflexivity. }
    destruct Hctl as (Ed & El & Edl & Ep).
    destruct (Nat.eq_dec o (run_length j)) as [Hend | Hmid].
    + (* the run is complete: the loop turns *)
      exists (S j), 1%nat.
      destruct (next_leg j) as [N1 N2].
      assert (Hstep : body width height tilesize tn s
                = mkSpiral (Vector2i.add (cur_pos s) (leg_direction (S j)))
                           (Z.of_nat (S j mod 4)) 1 (Z.of_nat (run_length (S j)))
                           (taskid (emit width height tilesize tn s))
                           (queue (emit width height tilesize tn s))).
      { unfold body, turn. rewrite Ed, El, Edl, Hd, Hdl, Hl.
        destruct (Z.leb_spec (Z.of_nat (run_length j)) (Z.of_nat o)); [|lia].
        unfold advance. cbn [cur_pos cur_dir cur_len cur_dir_len taskid queue].
        rewrite N1, N2, dir_leg_direction, Ep. reflexivity. }
      rewrite iterate_S. fold s. rewrite Hstep.
      destruct (spiral_legs_snoc j 0 (Vector2i.div tn 2)) as [L1 L2].
      cbn [Nat.add] in L1, L2.
      split; [unfold in_leg, run_length; cbn [cur_pos cur_dir cur_len cur_dir_len]; lia|].
      split.
      * rewrite L2, Hpos, Hend. reflexivity.
      * rewrite trail_S, Htrail, iterate_S. fold s. rewrite Hstep. cbn [cur_pos].
        rewrite L1, L2, Hpos, Hend. cbn [walk app]. rewrite <- !app_assoc. reflexivity.
    + (* inside the run *)
      exists j, (S o).
      assert (Hstep : body width height tilesize tn s
                = mkSpiral (Vector2i.add (cur_pos s) (leg_direction j))
                           (Z.of_nat (j mod 4)) (Z.of_nat o + 1) (Z.of_nat (run_length j))
                           (taskid (emit width height tilesize tn s))
                           (queue (emit width height tilesize tn s))).
      { unfold body, turn. rewrite Ed, El, Edl, Hd, Hdl, Hl.
        destruct (Z.leb_spec (Z.of_nat (run_length j)) (Z.of_nat o)); [lia|].
        unfold advance. rewrite Ed, El, Edl, Ep, Hd, Hl, Hdl, dir_leg_direction. reflexivity. }
      rewrite iterate_S. fold s. rewrite Hstep.
      destruct (walk_snoc (legs_end j 0 (Vector2i.div tn 2)) (leg_direction j) o) as [W1 W2].
      split; [unfold in_leg; cbn [cur_pos cur_dir cur_len cur_dir_len]; lia|].
      split.
      * rewrite W2, Hpos. reflexivity.
      * rewrite trail_S, Htrail, iterate_S. fold s. rewrite Hstep. cbn [cur_pos].
        rewrite W1, Hpos. rewrite app_comm_cons, !app_assoc. reflexivity.
Qed.

(** The trail is a prefix of the square spiral. *)
Lemma trail_prefix (n : nat) :
  exists legs rest,
    square_spiral (Vector2i.div tn 2) legs
    = trail width height tilesize tn n
      ++ cur_pos (iterate width height tilesize tn n) :: rest.
Proof.
  destruct (trail_spiral n) as (j & o & (_ & _ & _ & Ho) & Hpos & Htrail).
  exists (S j), (walk (walk_end (legs_end j 0 (Vector2i.div tn 2)) (leg_direction j) o)
                      (leg_direction j) (run_length j - o)).
  destruct (spiral_legs_snoc j 0 (Vector2i.div tn 2)) as [L1 _]. cbn [Nat.add] in L1.
  unfold square_spiral. rewrite L1.
  replace (run_length j) with (o + (run_length j - o))%nat at 1 by lia.
  rewrite walk_app.
  rewrite trail_S in Htrail.
  rewrite app_assoc, app_comm_cons, <- Htrail, <- app_assoc. reflexivity.
Qed.

End QueueFacts.

(* ------------------------------------------------------------------ *)
(** ** Single precision: the tile counts are exact below [2 ^ 24] *)

Lemma digits2_bounds (p : positive) :
  2 ^ (Zpos (digits2_pos p) - 1) <= Zpos p < 2 ^ Zpos (digits2_pos p).
Proof.
  induction p as [p IH | p IH |]; cbn [digits2_pos].
  - rewrite Pos2Z.inj_succ.
    replace (Z.succ (Zpos (digits2_pos p)) - 1) with (Z.succ (Zpos (digits2_pos p) - 1)) by lia.
    rewrite !Z.pow_succ_r by lia. lia.
  - rewrite Pos2Z.inj_succ.
    replace (Z.succ (Zpos (digits2_pos p)) - 1) with (Z.succ (Zpos (digits2_pos p) - 1)) by lia.
    rewrite !Z.pow_succ_r by lia. lia.
  - cbn. lia.
Qed.

Lemma digits2_unique (p : positive) (d : Z) :
  2 ^ (d - 1) <= Zpos p < 2 ^ d -> Zpos (digits2_pos p) = d.
Proof.
  intros [Hlo Hhi].
  pose proof (digits2_bounds p) as [Blo Bhi].
  assert (0 < d).
  { destruct (Z_lt_le_dec 0 d); auto.
    assert (2 ^ d <= 2 ^ 0) by (apply Z.pow_le_mono_r; lia). cbn in *. lia. }
  destruct (Z_lt_le_dec (Zpos (digits2_pos p)) d).
  - assert (2 ^ Zpos (digits2_pos p) <= 2 ^ (d - 1)) by (apply Z.pow_le_mono_r; lia). lia.
  - destruct (Z_lt_le_dec d (Zpos (digits2_pos p))); [|lia].
    assert (2 ^ d <= 2 ^ (Zpos (digits2_pos p) - 1)) by (apply Z.pow_le_mono_r; lia). lia.
Qed.

Lemma iter_xO_pow (p n : positive) : Zpos (Pos.iter xO p n) = Zpos p * 2 ^ Zpos n.
Proof.
  induction n using Pos.peano_ind.
  - cbn. lia.
  - rewrite Pos.iter_succ, Pos2Z.inj_succ, Z.pow_succ_r by lia.
    rewrite Pos2Z.inj_xO, IHn. lia.
Qed.

(* rounding a 24-digit mantissa *)
Lemma round_aux_24 (s : bool) (q : positive) (e : Z) (l : location) :
  Zpos (digits2_pos q) = 24 -> -149 <= e <= 103 ->
  exists m e1,
    binary_round_aux 24 128 s (Zpos q) e l = S754_finite s m e1 /\
    Zpos m * 2 ^ (e1 - e) = round_nearest_even (Zpos q) l /\ e <= e1 <= e + 1.
Proof.
  intros Hd He.
  unfold binary_round_aux, shr_fexp, fexp, emin, Zdigits2.
  rewrite Hd.
  replace (Z.max (24 + e - 24) (3 - 128 - 24) - e) with 0 by lia.
  cbn [shr].
  assert (Hl : loc_of_shr_record (shr_record_of_loc (Zpos q) l) = l)
    by (destruct l as [|[]]; reflexivity).
  assert (Hm : shr_m (shr_record_of_loc (Zpos q) l) = Zpos q)
    by (destruct l as [|[]]; reflexivity).
  rewrite Hl, Hm.
  pose proof (digits2_bounds q) as Bq. rewrite Hd in Bq.
  assert (Hr : round_nearest_even (Zpos q) l = Zpos q \/ round_nearest_even (Zpos q) l = Zpos q + 1).
  { destruct l as [|[]]; cbn [round_nearest_even]; auto. destruct (Z.even (Zpos q)); auto. }
  set (m1 := round_nearest_even (Zpos q) l) in *.
  assert (Hm1 : 2 ^ 23 <= m1 <= 2 ^ 24) by (change (24 - 1) with 23 in Bq; lia).
  destruct (Z_lt_le_dec m1 (2 ^ 24)) as [Hlt | Hge].
  - destruct m1 as [|m1p|m1p] eqn:E; try lia.
    assert (Hd1 : Zpos (digits2_pos m1p) = 24) by (apply digits2_unique; change (24 - 1) with 23; lia).
    rewrite Hd1.
    replace (Z.max (24 + e - 24) (3 - 128 - 24) - e) with 0 by lia.
    cbn [shr shr_record_of_loc shr_m].
    replace (e <=? 128 - 24) with true by (symmetry; apply Z.leb_le; lia).
    exists m1p, e. rewrite Z.sub_diag. cbn [Z.pow]. split; [reflexivity|]. lia.
  - assert (E : m1 = 2 ^ 24) by lia. rewrite E.
    change (2 ^ 24) with 16777216. cbn [digits2_pos Pos.succ].
    replace (Z.max (25 + e - 24) (3 - 128 - 24) - e) with 1 by lia.
    cbn.
    replace (e + 1 <=? 104) with true by (symmetry; apply Z.leb_le; lia).
    exists 8388608%positive, (e + 1). split; [reflexivity|].
    replace (e + 1 - e) with 1 by lia. cbn. lia.
Qed.

Lemma round_aux_25 (s : bool) (q : positive) (e : Z) (l : location) :
  Zpos (digits2_pos q) = 25 -> -149 <= e <= 102 ->
  exists m e1 m1,
    binary_round_aux 24 128 s (Zpos q) e l = S754_finite s m e1 /\
    Zpos m * 2 ^ (e1 - (e + 1)) = m1 /\ e + 1 <= e1 <= e + 2 /\
    Zpos q / 2 <= m1 <= Zpos q / 2 + Zpos q mod 2 /\
    (Zpos q mod 2 = 1 -> l <> loc_Exact -> m1 = Zpos q / 2 + 1).
Proof.
  intros Hd He.
  unfold binary_round_aux, shr_fexp, fexp, emin, Zdigits2.
  rewrite Hd.
  replace (Z.max (25 + e - 24) (3 - 128 - 24) - e) with 1 by lia.
  cbn [shr iter_pos].
  pose proof (digits2_bounds q) as Bq. rewrite Hd in Bq. change (25 - 1) with 24 in Bq.
  set (mrs := shr_1 (shr_record_of_loc (Zpos q) l)).
  set (m1 := round_nearest_even (shr_m mrs) (loc_of_shr_record mrs)).
  assert (Hm1 : Zpos q / 2 <= m1 <= Zpos q / 2 + Zpos q mod 2 /\
                (Zpos q mod 2 = 1 -> l <> loc_Exact -> m1 = Zpos q / 2 + 1)).
  { subst m1 mrs. destruct q as [p|p|].
    - assert (Zpos p~1 / 2 = Zpos p /\ Zpos p~1 mod 2 = 1) as [-> ->].
      { rewrite Pos2Z.inj_xI. split; [symmetry; apply Z.div_unique with 1|symmetry; apply Z.mod_unique with (Zpos p)]; lia. }
      destruct l as [|[]]; cbn; (split; [try lia | try (intros; congruence); try (intros; lia)]).
      destruct p; cbn; lia.
    - assert (Zpos p~0 / 2 = Zpos p /\ Zpos p~0 mod 2 = 0) as [-> ->].
      { rewrite Pos2Z.inj_xO. split; [symmetry; apply Z.div_unique with 0|symmetry; apply Z.mod_unique with (Zpos p)]; lia. }
      destruct l as [|[]]; cbn; (split; [lia | intros; lia]).
    - cbn in Bq. lia. }
  destruct Hm1 as [Hm1 Hm1'].
  assert (2 ^ 23 <= Zpos q / 2 < 2 ^ 24).
  { change (2 ^ 25) with (2 * 2 ^ 24) in Bq.
    split; [apply Z.div_le_lower_bound|apply Z.div_lt_upper_bound]; lia. }
  assert (0 <= Zpos q mod 2 < 2) by (apply Z.mod_pos_bound; lia).
  destruct (Z_lt_le_dec m1 (2 ^ 24)) as [Hlt | Hge].
  - destruct m1 as [|m1p|m1p] eqn:E; try lia.
    assert (Hd1 : Zpos (digits2_pos m1p) = 24) by (apply digits2_unique; change (24 - 1) with 23; lia).
    rewrite Hd1.
    replace (Z.max (24 + (e + 1) - 24) (3 - 128 - 24) - (e + 1)) with 0 by lia.
    cbn [shr shr_record_of_loc shr_m].
    replace (e + 1 <=? 128 - 24) with true by (symmetry; apply Z.leb_le; lia).
    exists m1p, (e + 1), (Zpos m1p). rewrite Z.sub_diag. cbn [Z.pow].
    split; [reflexivity|]. repeat split; try lia; try exact Hm1'.
  - assert (E : m1 = 2 ^ 24) by lia. rewrite E in *.
    change (2 ^ 24) with 16777216. cbn [digits2_pos Pos.succ].
    replace (Z.max (25 + (e + 1) - 24) (3 - 128 - 24) - (e + 1)) with 1 by lia.
    cbn.
    replace (e + 1 + 1 <=? 104) with true by (symmetry; apply Z.leb_le; lia).
    exists 8388608%positive, (e + 1 + 1), 16777216. split; [reflexivity|].
    replace (e + 1 + 1 - (e + 1)) with 1 by lia. cbn.
    change (2 ^ 24) with 16777216 in *. repeat split; try lia; try exact Hm1'.
Qed.

Lemma round_nearest_even_bounds q l :
  q <= round_nearest_even q l <= q + 1 /\ (l = loc_Exact -> round_nearest_even q l = q).
Proof.
  destruct l as [|[]]; cbn [round_nearest_even].
  - split; [lia | reflexivity].
  - destruct (Z.even q); (split; [lia | discriminate]).
  - split; [lia | discriminate].
  - split; [lia | discriminate].
Qed.

Lemma new_location_exact nb r : new_location nb r = loc_Exact <-> r = 0.
Proof.
  unfold new_location, new_location_even, new_location_odd.
  destruct (Z.even nb); destruct (Z.eqb_spec r 0); split; intros;
    try congruence; try reflexivity; discriminate.
Qed.

Lemma round_aux_exact (s : bool) (q : positive) (e : Z) :
  Zpos (digits2_pos q) = 24 -> -149 <= e <= 104 ->
  binary_round_aux 24 128 s (Zpos q) e loc_Exact = S754_finite s q e.
Proof.
  intros Hd He.
  unfold binary_round_aux, shr_fexp, fexp, emin, Zdigits2.
  rewrite Hd.
  replace (Z.max (24 + e - 24) (3 - 128 - 24) - e) with 0 by lia.
  cbn [shr shr_record_of_loc shr_m loc_of_shr_record round_nearest_even Zdigits2].
  rewrite Hd.
  replace (Z.max (24 + e - 24) (3 - 128 - 24) - e) with 0 by lia.
  cbn [shr shr_record_of_loc shr_m].
  replace (e <=? 128 - 24) with true by (symmetry; apply Z.leb_le; lia).
  reflexivity.
Qed.

Lemma of_Z_normal (p : positive) :
  Zpos p < 2 ^ 24 ->
  exists m e,
    binary_normalize 24 128 (Zpos p) 0 false = S754_finite false m e /\
    Zpos m = Zpos p * 2 ^ (- e) /\ Zpos (digits2_pos m) = 24 /\ -23 <= e <= 0.
Proof.
  intros Hp.
  pose proof (digits2_bounds p) as [Blo Bhi].
  set (d := Zpos (digits2_pos p)) in *.
  assert (Hd : 1 <= d <= 24).
  { split; [subst d; lia|].
    destruct (Z_lt_le_dec 24 d); [|lia].
    assert (2 ^ 24 <= 2 ^ (d - 1)) by (apply Z.pow_le_mono_r; lia). lia. }
  unfold binary_normalize, binary_round, shl_align, fexp, emin.
  fold d.
  replace (Z.max (d + 0 - 24) (3 - 128 - 24) - 0) with (d - 24) by lia.
  destruct (d - 24) as [|k|k] eqn:Ek; try lia.
  - rewrite round_aux_exact by (fold d; lia).
    exists p, 0. cbn. split; [reflexivity|]. fold d. lia.
  - replace (Z.max (d + 0 - 24) (3 - 128 - 24)) with (d - 24) by lia.
    assert (Hm : Zpos (Pos.iter xO p k) = Zpos p * 2 ^ Zpos k) by apply iter_xO_pow.
    assert (Hk : Zpos k = 24 - d) by lia.
    assert (Hdm : Zpos (digits2_pos (Pos.iter xO p k)) = 24).
    { apply digits2_unique. rewrite Hm, Hk.
      assert (E1 : 2 ^ (24 - 1) = 2 ^ (d - 1) * 2 ^ (24 - d)).
      { rewrite <- Z.pow_add_r by lia. f_equal; lia. }
      assert (E2 : 2 ^ 24 = 2 ^ d * 2 ^ (24 - d)).
      { rewrite <- Z.pow_add_r by lia. f_equal; lia. }
      assert (0 < 2 ^ (24 - d)) by (apply Z.pow_pos_nonneg; lia).
      rewrite E1, E2. nia. }
    rewrite round_aux_exact by lia.
    exists (Pos.iter xO p k), (d - 24). split; [reflexivity|].
    rewrite Hm. replace (- (d - 24)) with (Zpos k) by lia. lia.
Qed.

Lemma div_core mx ex my ey :
  Zpos (digits2_pos mx) = 24 -> Zpos (digits2_pos my) = 24 ->
  -23 <= ex <= 0 -> -23 <= ey <= 0 ->
  SFdiv_core_binary 24 128 (Zpos mx) ex (Zpos my) ey =
  ((Zpos mx * 2 ^ 24) / Zpos my, ex - ey - 24,
   new_location (Zpos my) ((Zpos mx * 2 ^ 24) mod Zpos my)).
Proof.
  intros Hx Hy Hex Hey.
  unfold SFdiv_core_binary, Zdigits2, fexp, emin.
  rewrite Hx, Hy.
  replace (Z.min (Z.max (24 + ex - (24 + ey) - 24) (3 - 128 - 24)) (ex - ey)) with (ex - ey - 24) by lia.
  replace (ex - ey - (ex - ey - 24)) with 24 by lia.
  cbv iota beta.
  rewrite Z.shiftl_mul_pow2 by lia.
  unfold Z.div, Z.modulo.
  destruct (Z.div_eucl (Zpos mx * 2 ^ 24) (Zpos my)) as [q r]. reflexivity.
Qed.

Lemma ceil_value (m : positive) (e1 e0 m1 n : Z) :
  e0 <= 0 -> e0 <= e1 -> Zpos m * 2 ^ (e1 - e0) = m1 ->
  (n - 1) * 2 ^ (- e0) < m1 <= n * 2 ^ (- e0) ->
  F32.ceil (S754_finite false m e1) = Some n.
Proof.
  intros H0 H1 Hm [Hlo Hhi]. unfold F32.ceil. f_equal.
  destruct (Z.leb_spec 0 e1) as [Hp | Hn].
  - assert (E : 2 ^ (e1 - e0) = 2 ^ e1 * 2 ^ (- e0)).
    { rewrite <- Z.pow_add_r by lia. f_equal; lia. }
    assert (0 < 2 ^ (- e0)) by (apply Z.pow_pos_nonneg; lia).
    assert (0 < 2 ^ e1) by (apply Z.pow_pos_nonneg; lia).
    rewrite E in Hm. nia.
  - assert (E : 2 ^ (- e0) = 2 ^ (- e1) * 2 ^ (e1 - e0)).
    { rewrite <- Z.pow_add_r by lia. f_equal; lia. }
    assert (0 < 2 ^ (e1 - e0)) by (apply Z.pow_pos_nonneg; lia).
    assert (0 < 2 ^ (- e1)) by (apply Z.pow_pos_nonneg; lia).
    rewrite E in Hlo, Hhi.
    set (D := 2 ^ (- e1)) in *. set (K := 2 ^ (e1 - e0)) in *.
    assert ((n - 1) * D < Zpos m <= n * D) by nia.
    assert (- Zpos m / D = - n); [|lia].
    symmetry. apply Z.div_unique with (n * D - Zpos m); lia.
Qed.

Lemma ceil_div_exact (W T : Z) :
  0 < W < 2 ^ 24 -> 0 < T < 2 ^ 24 ->
  F32.ceil (F32.div (F32.of_Z W) (F32.of_Z T)) = Some ((W + T - 1) / T).
Proof.
  intros HW HT. unfold F32.div, F32.of_Z, F32.prec, F32.emax.
  destruct W as [|w|w]; try lia. destruct T as [|t|t]; try lia.
  destruct (of_Z_normal w) as (mx & ex & Ex & Hmx & Hdx & Hex); [lia|].
  destruct (of_Z_normal t) as (my & ey & Ey & Hmy & Hdy & Hey); [lia|].
  rewrite Ex, Ey. unfold SFdiv.
  rewrite div_core by assumption. cbv iota beta. cbn [xorb].
  remember ((Zpos w + Zpos t - 1) / Zpos t) as n eqn:En.
  assert (Hn : (n - 1) * Zpos t < Zpos w <= n * Zpos t).
  { pose proof (Z.div_mod (Zpos w + Zpos t - 1) (Zpos t) ltac:(lia)) as E.
    pose proof (Z.mod_pos_bound (Zpos w + Zpos t - 1) (Zpos t) ltac:(lia)) as B.
    rewrite <- En in E. nia. }
  pose proof (digits2_bounds mx) as Bx. rewrite Hdx in Bx. change (2 ^ (24 - 1)) with (2 ^ 23) in Bx.
  pose proof (digits2_bounds my) as By. rewrite Hdy in By. change (2 ^ (24 - 1)) with (2 ^ 23) in By.
  assert (HA : 2 ^ (- (ex - ey - 24)) * 2 ^ (- ey) = 2 ^ 24 * 2 ^ (- ex)).
  { rewrite <- !Z.pow_add_r by lia. f_equal; lia. }
  assert (HApos : 0 < 2 ^ (- (ex - ey - 24))) by (apply Z.pow_pos_nonneg; lia).
  assert (HU : 0 < 2 ^ (- ex)) by (apply Z.pow_pos_nonneg; lia).
  assert (HV : 0 < 2 ^ (- ey)) by (apply Z.pow_pos_nonneg; lia).
  assert (HA' : 2 ^ (- (ex - ey - 24)) = 2 * 2 ^ (- (ex - ey - 24 + 1))).
  { rewrite <- Z.pow_succ_r by lia. f_equal; lia. }
  assert (He' : -47 <= ex - ey - 24 <= -1) by lia.
  remember (2 ^ (- ex)) as U eqn:EU. remember (2 ^ (- ey)) as V eqn:EV.
  remember (ex - ey - 24) as e' eqn:Ee'.
  remember (2 ^ (- e')) as A eqn:EA.
  remember (2 ^ (- (e' + 1))) as A' eqn:EA'.
  assert (Hqr : Zpos mx * 2 ^ 24 = Zpos my * (Zpos mx * 2 ^ 24 / Zpos my) + (Zpos mx * 2 ^ 24) mod Zpos my)
    by (apply Z.div_mod; lia).
  assert (Hr : 0 <= (Zpos mx * 2 ^ 24) mod Zpos my < Zpos my) by (apply Z.mod_pos_bound; lia).
  assert (Hqb : 2 ^ 23 <= Zpos mx * 2 ^ 24 / Zpos my < 2 ^ 25).
  { split; [apply Z.div_le_lower_bound | apply Z.div_lt_upper_bound]; lia. }
  remember (Zpos mx * 2 ^ 24 / Zpos my) as q eqn:Eq0.
  remember ((Zpos mx * 2 ^ 24) mod Zpos my) as r eqn:Er0.
  change (2 ^ 23) with 8388608 in *. change (2 ^ 24) with 16777216 in *.
  change (2 ^ 25) with 33554432 in *.
  (* the two inequalities on q *)
  assert (Hup : Zpos my * q + r <= n * A * Zpos my).
  { rewrite <- Hqr. rewrite Hmx, Hmy.
    replace (n * A * (Zpos t * V)) with (n * Zpos t * (A * V)) by ring.
    rewrite HA. nia. }
  assert (Hlow : (n - 1) * A * Zpos my + 2 ^ 24 * U <= Zpos my * q + r).
  { rewrite <- Hqr. rewrite Hmx, Hmy.
    replace ((n - 1) * A * (Zpos t * V)) with ((n - 1) * Zpos t * (A * V)) by ring.
    rewrite HA. nia. }
  assert (Hq1 : (n - 1) * A < q) by nia.
  assert (Hq2 : q <= n * A) by nia.
  assert (Hq3 : r <> 0 -> q < n * A) by (intros; nia).
  destruct q as [|qp|qp]; try lia.
  destruct (Z_lt_le_dec (Zpos qp) 16777216) as [Hsmall | Hbig].
  - assert (Hdq : Zpos (digits2_pos qp) = 24) by (apply digits2_unique; change (2 ^ (24 - 1)) with 8388608; change (2 ^ 24) with 16777216; lia).
    destruct (round_aux_24 false qp e' (new_location (Zpos my) r) Hdq ltac:(lia))
      as (m & e1 & Er & Hm & He1).
    rewrite Er.
    pose proof (round_nearest_even_bounds (Zpos qp) (new_location (Zpos my) r)) as [Hb Hex0].
    rewrite new_location_exact in Hex0.
    apply ceil_value with (e0 := e') (m1 := round_nearest_even (Zpos qp) (new_location (Zpos my) r));
      [lia | lia | exact Hm | rewrite <- EA].
    destruct (Z.eq_dec r 0) as [R0 | R0].
    + rewrite (Hex0 R0). lia.
    + specialize (Hq3 R0). lia.
  - assert (Hdq : Zpos (digits2_pos qp) = 25) by (apply digits2_unique; change (2 ^ (25 - 1)) with 16777216; change (2 ^ 25) with 33554432; lia).
    destruct (round_aux_25 false qp e' (new_location (Zpos my) r) Hdq ltac:(lia))
      as (m & e1 & m1 & Er & Hm & He1 & Hb & Hodd).
    rewrite Er.
    rewrite new_location_exact in Hodd.
    apply ceil_value with (e0 := e' + 1) (m1 := m1);
      [lia | lia | exact Hm | rewrite <- EA'].
    pose proof (Z.div_mod (Zpos qp) 2 ltac:(lia)) as Dq.
    pose proof (Z.mod_pos_bound (Zpos qp) 2 ltac:(lia)) as Bq.
    remember (Zpos qp / 2) as h eqn:Eh0. remember (Zpos qp mod 2) as o eqn:Eo0.
    assert (Hcase : o = 0 \/ o = 1) by lia.
    destruct Hcase as [O0 | O1].
    + lia.
    + destruct (Z.eq_dec h ((n - 1) * A')) as [Eh | Nh].
      * assert (R0 : r <> 0) by nia.
        rewrite (Hodd O1 R0). lia.
      * lia.
Qed.

(** [(int)ceil(dim / (float)tilesize)] is the exact [ceil(dim/tilesize)] for
    sizes a [float] holds exactly. *)
Lemma ceil_div_float_exact (dim tilesize : Z) :
  0 < dim < 2 ^ 24 -> 0 < tilesize < 2 ^ 24 ->
  ceil_div_float dim tilesize = cdiv dim tilesize.
Proof.
  intros Hd Ht. unfold ceil_div_float, cdiv.
  rewrite ceil_div_exact by assumption. unfold F32.to_int.
  assert (0 <= (dim + tilesize - 1) / tilesize <= dim).
  { split; [apply Z.div_le_lower_bound | apply Z.div_le_upper_bound]; nia. }
  assert (E : (- 2 ^ 31 <=? (dim + tilesize - 1) / tilesize)
               && ((dim + tilesize - 1) / tilesize <? 2 ^ 31) = true).
  { apply andb_true_iff. split; [apply Z.leb_le | apply Z.ltb_lt]; lia. }
  rewrite E. reflexivity.
Qed.

Lemma cdiv_spec (a b : Z) :
  0 < a -> 0 < b -> (cdiv a b - 1) * b < a <= cdiv a b * b /\ 1 <= cdiv a b.
Proof.
  intros Ha Hb. unfold cdiv.
  pose proof (Z.div_mod (a + b - 1) b ltac:(lia)) as E.
  pose proof (Z.mod_pos_bound (a + b - 1) b ltac:(lia)) as B.
  nia.
Qed.

(* ------------------------------------------------------------------ *)
(** ** Single precision: a tile edge from [2 ^ 24] on *)

Lemma shr_1_m (mrs : shr_record) :
  0 <= shr_m mrs -> shr_m (shr_1 mrs) = shr_m mrs / 2.
Proof.
  destruct mrs as [m r s]. cbn [shr_m]. intros Hm. unfold shr_1.
  destruct m as [|[p|p|]|p]; cbn [shr_m]; try lia.
  - reflexivity.
  - rewrite Pos2Z.inj_xI. apply Z.div_unique with 1; lia.
  - rewrite Pos2Z.inj_xO. apply Z.div_unique with 0; lia.
  - reflexivity.
Qed.

Lemma iter_shr_1_m (k : positive) (mrs : shr_record) :
  0 <= shr_m mrs -> shr_m (iter_pos shr_1 k mrs) = shr_m mrs / 2 ^ Zpos k.
Proof.
  revert mrs. induction k as [k IH | k IH |]; intros mrs Hm; cbn [iter_pos].
  - assert (H1 : 0 <= shr_m (shr_1 mrs)).
    { rewrite shr_1_m by assumption. apply Z.div_pos; lia. }
    assert (H2 : 0 <= shr_m (iter_pos shr_1 k (shr_1 mrs))).
    { rewrite IH by assumption. apply Z.div_pos; [assumption|]. apply Z.pow_pos_nonneg; lia. }
    rewrite IH, IH, shr_1_m by assumption.
    rewrite !Z.div_div by (try apply Z.pow_pos_nonneg; lia).
    f_equal.
    assert (E : 2 ^ Zpos k~1 = 2 ^ (1 + Zpos k + Zpos k)) by (f_equal; lia).
    rewrite E, !Z.pow_add_r by lia. change (2 ^ 1) with 2. ring.
  - assert (H2 : 0 <= shr_m (iter_pos shr_1 k mrs)).
    { rewrite IH by assumption. apply Z.div_pos; [assumption|]. apply Z.pow_pos_nonneg; lia. }
    rewrite IH, IH by assumption.
    rewrite !Z.div_div by (try apply Z.pow_pos_nonneg; lia).
    f_equal.
    assert (E : 2 ^ Zpos k~0 = 2 ^ (Zpos k + Zpos k)) by (f_equal; lia).
    rewrite E, !Z.pow_add_r by lia. ring.
  - now rewrite shr_1_m.
Qed.

(** [(float)n] for [n] from [2 ^ 24] up to [2 ^ 32]: a mantissa of 24 digits
    and an exponent from 1 to 9. *)
Lemma of_Z_wide (p : positive) :
  2 ^ 24 <= Zpos p < 2 ^ 32 ->
  exists m e,
    binary_normalize 24 128 (Zpos p) 0 false = S754_finite false m e /\
    Zpos (digits2_pos m) = 24 /\ 1 <= e <= 9.
Proof.
  intros Hp.
  pose proof (digits2_bounds p) as [Blo Bhi].
  remember (Zpos (digits2_pos p)) as d eqn:Ed.
  assert (Hd : 25 <= d <= 32).
  { split.
    - destruct (Z_lt_le_dec d 25); [|lia].
      assert (2 ^ d <= 2 ^ 24) by (apply Z.pow_le_mono_r; lia). lia.
    - destruct (Z_lt_le_dec 32 d); [|lia].
      assert (2 ^ 32 <= 2 ^ (d - 1)) by (apply Z.pow_le_mono_r; lia). lia. }
  unfold binary_normalize, binary_round, shl_align, fexp, emin.
  rewrite <- Ed.
  replace (Z.max (d + 0 - 24) (3 - 128 - 24) - 0) with (d - 24) by lia.
  destruct (d - 24) as [|k|k] eqn:Ek; try lia.
  unfold binary_round_aux, shr_fexp, fexp, emin, Zdigits2.
  rewrite <- Ed.
  replace (Z.max (d + 0 - 24) (3 - 128 - 24) - 0) with (Zpos k) by lia.
  cbn [shr shr_record_of_loc].
  remember (iter_pos shr_1 k {| shr_m := Zpos p; shr_r := false; shr_s := false |}) as mrs eqn:Emrs.
  assert (Hm : shr_m mrs = Zpos p / 2 ^ Zpos k).
  { subst mrs. now rewrite iter_shr_1_m by (cbn; lia). }
  assert (Hk : Zpos k = d - 24) by lia.
  assert (Hpow : 2 ^ (d - 1) = 2 ^ 23 * 2 ^ Zpos k /\ 2 ^ d = 2 ^ 24 * 2 ^ Zpos k).
  { rewrite <- !Z.pow_add_r by lia. split; f_equal; lia. }
  destruct Hpow as [P1 P2].
  assert (Hpk : 0 < 2 ^ Zpos k) by (apply Z.pow_pos_nonneg; lia).
  assert (Hq : 2 ^ 23 <= shr_m mrs < 2 ^ 24).
  { rewrite Hm. split; [apply Z.div_le_lower_bound | apply Z.div_lt_upper_bound]; lia. }
  pose proof (round_nearest_even_bounds (shr_m mrs) (loc_of_shr_record mrs)) as [Hb _].
  remember (round_nearest_even (shr_m mrs) (loc_of_shr_record mrs)) as m1 eqn:Em1.
  clear Emrs Em1 Hm.
  destruct (Z_lt_le_dec m1 (2 ^ 24)) as [Hlt | Hge].
  - destruct m1 as [|m1p|m1p]; try lia.
    assert (Hd1 : Zpos (digits2_pos m1p) = 24)
      by (apply digits2_unique; change (24 - 1) with 23; lia).
    rewrite Hd1.
    replace (Z.max (24 + (0 + Zpos k) - 24) (3 - 128 - 24) - (0 + Zpos k)) with 0 by lia.
    cbn [shr shr_record_of_loc shr_m].
    replace (0 + Zpos k <=? 128 - 24) with true by (symmetry; apply Z.leb_le; lia).
    exists m1p, (0 + Zpos k). split; [reflexivity|]. lia.
  - assert (E : m1 = 2 ^ 24) by lia. rewrite E.
    change (2 ^ 24) with 16777216. cbn [digits2_pos Pos.succ].
    replace (Z.max (25 + (0 + Zpos k) - 24) (3 - 128 - 24) - (0 + Zpos k)) with 1 by lia.
    cbn [shr shr_record_of_loc iter_pos shr_1 shr_m].
    replace (0 + Zpos k + 1 <=? 128 - 24) with true by (symmetry; apply Z.leb_le; lia).
    exists 8388608%positive, (0 + Zpos k + 1). split; [reflexivity|].
    split; [reflexivity | lia].
Qed.

Lemma div_core_wide mx ex my ey :
  Zpos (digits2_pos mx) = 24 -> Zpos (digits2_pos my) = 24 ->
  -23 <= ex <= 0 -> -23 <= ey <= 9 ->
  SFdiv_core_binary 24 128 (Zpos mx) ex (Zpos my) ey =
  ((Zpos mx * 2 ^ 24) / Zpos my, ex - ey - 24,
   new_location (Zpos my) ((Zpos mx * 2 ^ 24) mod Zpos my)).
Proof.
  intros Hx Hy Hex Hey.
  unfold SFdiv_core_binary, Zdigits2, fexp, emin.
  rewrite Hx, Hy.
  replace (Z.min (Z.max (24 + ex - (24 + ey) - 24) (3 - 128 - 24)) (ex - ey)) with (ex - ey - 24) by lia.
  replace (ex - ey - (ex - ey - 24)) with 24 by lia.
  cbv iota beta.
  rewrite Z.shiftl_mul_pow2 by lia.
  unfold Z.div, Z.modulo.
  destruct (Z.div_eucl (Zpos mx * 2 ^ 24) (Zpos my)) as [q r]. reflexivity.
Qed.

(** A dimension below [2 ^ 24] divided by a tile edge from [2 ^ 24] on is at
    most one, whatever the rounding: its [ceil] is one. *)
Lemma ceil_div_one (W T : Z) :
  0 < W < 2 ^ 24 -> 2 ^ 24 <= T < 2 ^ 32 ->
  F32.ceil (F32.div (F32.of_Z W) (F32.of_Z T)) = Some 1.
Proof.
  intros HW HT. unfold F32.div, F32.of_Z, F32.prec, F32.emax.
  destruct W as [|w|w]; try lia. destruct T as [|t|t]; try lia.
  destruct (of_Z_normal w) as (mx & ex & Ex & _ & Hdx & Hex); [lia|].
  destruct (of_Z_wide t) as (my & ey & Ey & Hdy & Hey); [lia|].
  rewrite Ex, Ey. unfold SFdiv.
  rewrite div_core_wide by (try assumption; lia). cbv iota beta. cbn [xorb].
  pose proof (digits2_bounds mx) as Bx. rewrite Hdx in Bx. change (2 ^ (24 - 1)) with (2 ^ 23) in Bx.
  pose proof (digits2_bounds my) as By. rewrite Hdy in By. change (2 ^ (24 - 1)) with (2 ^ 23) in By.
  assert (Hqb : 2 ^ 23 <= Zpos mx * 2 ^ 24 / Zpos my < 2 ^ 25).
  { split; [apply Z.div_le_lower_bound | apply Z.div_lt_upper_bound]; lia. }
  remember (Zpos mx * 2 ^ 24 / Zpos my) as q eqn:Eq0.
  remember (new_location (Zpos my) ((Zpos mx * 2 ^ 24) mod Zpos my)) as l eqn:El.
  remember (ex - ey - 24) as e' eqn:Ee'.
  assert (He' : -56 <= e' <= -25) by lia.
  assert (Hbig : 2 ^ 25 <= 2 ^ (- e')) by (apply Z.pow_le_mono_r; lia).
  assert (Hbig' : 2 ^ 24 <= 2 ^ (- (e' + 1))) by (apply Z.pow_le_mono_r; lia).
  change (2 ^ 23) with 8388608 in *. change (2 ^ 24) with 16777216 in *.
  change (2 ^ 25) with 33554432 in *.
  destruct q as [|qp|qp]; try lia.
  destruct (Z_lt_le_dec (Zpos qp) 16777216) as [Hsmall | Hlarge].
  - assert (Hdq : Zpos (digits2_pos qp) = 24)
      by (apply digits2_unique; change (2 ^ (24 - 1)) with 8388608;
          change (2 ^ 24) with 16777216; lia).
    destruct (round_aux_24 false qp e' l Hdq ltac:(lia)) as (m & e1 & Er & Hm & He1).
    rewrite Er.
    pose proof (round_nearest_even_bounds (Zpos qp) l) as [Hb _].
    apply ceil_value with (e0 := e') (m1 := round_nearest_even (Zpos qp) l);
      [lia | lia | exact Hm | lia].
  - assert (Hdq : Zpos (digits2_pos qp) = 25)
      by (apply digits2_unique; change (2 ^ (25 - 1)) with 16777216;
          change (2 ^ 25) with 33554432; lia).
    destruct (round_aux_25 false qp e' l Hdq ltac:(lia))
      as (m & e1 & m1 & Er & Hm & He1 & Hb & _).
    rewrite Er.
    pose proof (Z.div_mod (Zpos qp) 2 ltac:(lia)) as Dq.
    pose proof (Z.mod_pos_bound (Zpos qp) 2 ltac:(lia)) as Bq.
    apply ceil_value with (e0 := e' + 1) (m1 := m1);
      [lia | lia | exact Hm | lia].
Qed.

(** [(int)ceil(dim / (float)tilesize)] is the exact [ceil(dim/tilesize)] for
    a dimension below [2 ^ 24] and every tile edge an [unsigned] holds. *)
Lemma ceil_div_float_any_tile (dim tilesize : Z) :
  0 < dim < 2 ^ 24 -> 0 < tilesize < 2 ^ 32 ->
  ceil_div_float dim tilesize = cdiv dim tilesize.
Proof.
  intros Hd Ht.
  destruct (Z_lt_le_dec tilesize (2 ^ 24)) as [Hn | Hw].
  - apply ceil_div_float_exact; lia.
  - unfold ceil_div_float. rewrite ceil_div_one by lia.
    change (F32.to_int (Some 1)) with 1.
    unfold cdiv. apply Z.div_unique with (dim - 1); lia.
Qed.

(* ------------------------------------------------------------------ *)
(** ** The tiles of [_pushRenderTask] *)

Section TileFacts.

Variables width height tilesize : Z.
Hypothesis width_range : 0 < width < 2 ^ 24.
Hypothesis height_range : 0 < height < 2 ^ 24.
Hypothesis tilesize_range : 0 < tilesize < 2 ^ 24.

Lemma u32_small (z : Z) : 0 <= z < 2 ^ 32 -> u32 z = z.
Proof. intros Hz. unfold u32. apply Z.mod_small. assumption. Qed.

Lemma passes_left_step (limit i : Z) :
  0 <= i < limit ->
  passes_left limit tilesize i = 1 + passes_left limit tilesize (i + tilesize).
Proof.
  intros Hi. unfold passes_left, cdiv.
  destruct (Z.ltb_spec i limit); [|lia].
  destruct (Z.ltb_spec (i + tilesize) limit).
  - replace (limit - i + tilesize - 1) with (limit - (i + tilesize) + tilesize - 1 + 1 * tilesize) by ring.
    rewrite Z.div_add by lia. ring.
  - rewrite Z.add_0_r. symmetry. apply Z.div_unique with (limit - i - 1); lia.
Qed.

Lemma passes_left_nonneg (limit i : Z) : 0 <= i -> 0 <= passes_left limit tilesize i.
Proof.
  intros Hi. unfold passes_left, cdiv. destruct (Z.ltb_spec i limit); [|lia].
  apply Z.div_le_lower_bound; lia.
Qed.

Lemma count_row_spec (fuel : nat) (j total : Z) :
  0 <= j -> 0 <= total ->
  passes_left width tilesize j < Z.of_nat fuel ->
  total + passes_left width tilesize j < 2 ^ 32 ->
  count_row width tilesize fuel j total = Some (total + passes_left width tilesize j).
Proof.
  revert j total. induction fuel as [|fuel IH]; intros j total Hj Ht Hfuel Hsum.
  - pose proof (passes_left_nonneg width j Hj). lia.
  - cbn [count_row]. destruct (Z.ltb_spec j width) as [Hlt | Hge].
    + rewrite (passes_left_step width j) in * by lia.
      pose proof (passes_left_nonneg width (j + tilesize) ltac:(lia)).
      change (2 ^ 24) with 16777216 in *. change (2 ^ 32) with 4294967296 in *.
      rewrite (u32_small (j + tilesize)), (u32_small (total + 1))
        by (change (2 ^ 32) with 4294967296; lia).
      rewrite IH by lia. f_equal. ring.
    + unfold passes_left. destruct (Z.ltb_spec j width); [lia|]. now rewrite Z.add_0_r.
Qed.

Lemma count_rows_spec (fuel : nat) (i total : Z) :
  0 <= i -> 0 <= total ->
  passes_left height tilesize i + cdiv width tilesize < Z.of_nat fuel ->
  total + passes_left height tilesize i * cdiv width tilesize < 2 ^ 32 ->
  count_rows width height tilesize fuel i total
  = Some (total + passes_left height tilesize i * cdiv width tilesize).
Proof.
  pose proof (cdiv_spec width tilesize ltac:(lia) ltac:(lia)) as [_ Hnx].
  assert (Hrow : passes_left width tilesize 0 = cdiv width tilesize).
  { unfold passes_left. destruct (Z.ltb_spec 0 width); [|lia]. now rewrite Z.sub_0_r. }
  revert i total. induction fuel as [|fuel IH]; intros i total Hi Ht Hfuel Hsum.
  - pose proof (passes_left_nonneg height i Hi). lia.
  - cbn [count_rows]. destruct (Z.ltb_spec i height) as [Hlt | Hge].
    + rewrite (passes_left_step height i) in * by lia.
      pose proof (passes_left_nonneg height (i + tilesize) ltac:(lia)) as Hp.
      assert (Einner : count_row width tilesize (S fuel) 0 total
                       = Some (total + cdiv width tilesize)).
      { rewrite <- Hrow. apply count_row_spec; rewrite ?Hrow; try lia; nia. }
      rewrite Einner.
      change (2 ^ 24) with 16777216 in *.
      rewrite (u32_small (i + tilesize)) by (change (2 ^ 32) with 4294967296; lia).
      rewrite IH; try lia; try nia. f_equal. ring.
    + unfold passes_left. destruct (Z.ltb_spec i height); [lia|].
      now rewrite Z.mul_0_l, Z.add_0_r.
Qed.

(** The count of lines 180 to 182 is kept in an [unsigned]: the loops leave
    the number of passes modulo [2 ^ 32]. *)
Lemma count_row_wraps (fuel : nat) (j total : Z) :
  0 <= j -> 0 <= total < 2 ^ 32 ->
  passes_left width tilesize j < Z.of_nat fuel ->
  count_row width tilesize fuel j total
  = Some (u32 (total + passes_left width tilesize j)).
Proof.
  revert j total. induction fuel as [|fuel IH]; intros j total Hj Ht Hfuel.
  - pose proof (passes_left_nonneg width j Hj). lia.
  - cbn [count_row]. destruct (Z.ltb_spec j width) as [Hlt | Hge].
    + rewrite (passes_left_step width j) in * by lia.
      pose proof (passes_left_nonneg width (j + tilesize) ltac:(lia)).
      change (2 ^ 24) with 16777216 in *.
      rewrite (u32_small (j + tilesize)) by (change (2 ^ 32) with 4294967296; lia).
      rewrite IH; [| lia | unfold u32; apply Z.mod_pos_bound; lia | lia].
      f_equal. unfold u32. rewrite Zplus_mod_idemp_l. f_equal. ring.
    + unfold passes_left. destruct (Z.ltb_spec j width); [lia|].
      now rewrite Z.add_0_r, u32_small.
Qed.

Lemma count_rows_wraps (fuel : nat) (i total : Z) :
  0 <= i -> 0 <= total < 2 ^ 32 ->
  passes_left height tilesize i + cdiv width tilesize < Z.of_nat fuel ->
  count_rows width height tilesize fuel i total
  = Some (u32 (total + passes_left height tilesize i * cdiv width tilesize)).
Proof.
  pose proof (cdiv_spec width tilesize ltac:(lia) ltac:(lia)) as [_ Hnx].
  assert (Hrow : passes_left width tilesize 0 = cdiv width tilesize).
  { unfold passes_left. destruct (Z.ltb_spec 0 width); [|lia]. now rewrite Z.sub_0_r. }
  revert i total. induction fuel as [|fuel IH]; intros i total Hi Ht Hfuel.
  - pose proof (passes_left_nonneg height i Hi). lia.
  - cbn [count_rows]. destruct (Z.ltb_spec i height) as [Hlt | Hge].
    + rewrite (passes_left_step height i) in * by lia.
      pose proof (passes_left_nonneg height (i + tilesize) ltac:(lia)) as Hp.
      assert (Einner : count_row width tilesize (S fuel) 0 total
                       = Some (u32 (total + cdiv width tilesize))).
      { rewrite <- Hrow. apply count_row_wraps; rewrite ?Hrow; lia. }
      rewrite Einner.
      change (2 ^ 24) with 16777216 in *.
      rewrite (u32_small (i + tilesize)) by (change (2 ^ 32) with 4294967296; lia).
      rewrite IH; [| lia | unfold u32; apply Z.mod_pos_bound; lia | lia].
      f_equal. unfold u32. rewrite Zplus_mod_idemp_l. f_equal. ring.
    + unfold passes_left. destruct (Z.ltb_spec i height); [lia|].
      now rewrite Z.mul_0_l, Z.add_0_r, u32_small.
Qed.

End TileFacts.

(** *** The tile of a cell, for every tile edge an [unsigned] holds *)

Section TileCells.

Variables width height tilesize : Z.
Hypothesis width_range : 0 < width < 2 ^ 24.
Hypothesis height_range : 0 < height < 2 ^ 24.
Hypothesis tilesize_range : 0 < tilesize < 2 ^ 32.

(** The task of a cell inside the exact grid: its origin and its clipped
    size. *)
Lemma make_task_inside (id : Z) (p : Vector2i.t) :
  inside (Vector2i.mk (cdiv width tilesize) (cdiv height tilesize)) p = true ->
  make_task width height tilesize id p
  = mkRenderTask id
      (Vector2i.mk (Vector2i.x p * tilesize) (Vector2i.y p * tilesize))
      (Vector2i.mk (Z.min tilesize (width - Vector2i.x p * tilesize))
                   (Z.min tilesize (height - Vector2i.y p * tilesize)))
  /\ Vector2i.x p * tilesize < width /\ Vector2i.y p * tilesize < height.
Proof.
  intros Hin. apply inside_spec in Hin. cbn [Vector2i.x Vector2i.y] in Hin.
  pose proof (cdiv_spec width tilesize ltac:(lia) ltac:(lia)) as [Hx _].
  pose proof (cdiv_spec height tilesize ltac:(lia) ltac:(lia)) as [Hy _].
  assert (Bx : 0 <= Vector2i.x p * tilesize < width) by nia.
  assert (By : 0 <= Vector2i.y p * tilesize < height) by nia.
  change (2 ^ 24) with 16777216 in *.
  unfold make_task.
  rewrite (u32_small (Vector2i.x p * tilesize)), (u32_small (Vector2i.y p * tilesize))
    by (change (2 ^ 32) with 4294967296; lia).
  rewrite (u32_small (width - _)), (u32_small (height - _))
    by (change (2 ^ 32) with 4294967296; lia).
  split; [|lia]. f_equal. f_equal.
  - destruct (Z.ltb_spec tilesize (width - Vector2i.x p * tilesize)); lia.
  - destruct (Z.ltb_spec tilesize (height - Vector2i.y p * tilesize)); lia.
Qed.

(** A task of a cell inside the grid covers exactly the pixels of the image
    that fall in that cell. *)
Lemma covers_cell (id : Z) (p : Vector2i.t) (px py : Z) :
  inside (Vector2i.mk (cdiv width tilesize) (cdiv height tilesize)) p = true ->
  (covers (make_task width height tilesize id p) px py <->
   (0 <= px < width /\ 0 <= py < height) /\ cell_of tilesize px py = p).
Proof.
  intros Hin. destruct (make_task_inside id p Hin) as (-> & Hx & Hy).
  apply inside_spec in Hin. cbn [Vector2i.x Vector2i.y] in Hin.
  unfold covers, cell_of. cbn [ori size Vector2i.x Vector2i.y].
  destruct p as [cx cy]. cbn [Vector2i.x Vector2i.y] in *.
  split.
  - intros [Cx Cy]. split; [nia|].
    f_equal; symmetry.
    + apply Z.div_unique with (px - cx * tilesize); lia.
    + apply Z.div_unique with (py - cy * tilesize); lia.
  - intros [[Rx Ry] E]. injection E as Ex Ey.
    pose proof (Z.div_mod px tilesize ltac:(lia)).
    pose proof (Z.mod_pos_bound px tilesize ltac:(lia)).
    pose proof (Z.div_mod py tilesize ltac:(lia)).
    pose proof (Z.mod_pos_bound py tilesize ltac:(lia)).
    subst cx cy. lia.
Qed.

Lemma cell_of_inside (px py : Z) :
  0 <= px < width -> 0 <= py < height ->
  inside (Vector2i.mk (cdiv width tilesize) (cdiv height tilesize))
         (cell_of tilesize px py) = true.
Proof.
  intros Hx Hy. apply inside_spec. unfold cell_of. cbn [Vector2i.x Vector2i.y].
  pose proof (cdiv_spec width tilesize ltac:(lia) ltac:(lia)) as [Cx _].
  pose proof (cdiv_spec height tilesize ltac:(lia) ltac:(lia)) as [Cy _].
  repeat split.
  - apply Z.div_pos; lia.
  - apply Z.div_lt_upper_bound; nia.
  - apply Z.div_pos; lia.
  - apply Z.div_lt_upper_bound; nia.
Qed.

End TileCells.

(** *** Counting the cells of the grid *)

Lemma grid_count (tn : Vector2i.t) (cells : list Vector2i.t) :
  0 < Vector2i.x tn -> 0 < Vector2i.y tn ->
  NoDup cells ->
  (forall p, In p cells <-> inside tn p = true) ->
  Z.of_nat (List.length cells) = Vector2i.x tn * Vector2i.y tn.
Proof.
  intros Hx Hy Hnd Hin.
  assert (Hperm : Permutation (map (cell_index tn) cells)
                              (seq 0 (Z.to_nat (Vector2i.x tn * Vector2i.y tn)))).
  { apply NoDup_Permutation.
    - apply NoDup_map_NoDup_ForallPairs; [|assumption].
      intros p q Hp Hq E. apply Hin, inside_spec in Hp. apply Hin, inside_spec in Hq.
      unfold cell_index in E. apply Z2Nat.inj in E; try nia.
      destruct p as [a b], q as [c d]. cbn [Vector2i.x Vector2i.y] in *.
      assert (b = d) by nia. f_equal; nia.
    - apply seq_NoDup.
    - intros i. rewrite in_map_iff, in_seq. split.
      + intros (p & <- & Hp). apply Hin, inside_spec in Hp. unfold cell_index. nia.
      + intros [_ Hi]. cbn [Nat.add] in Hi.
        exists (Vector2i.mk (Z.of_nat i mod Vector2i.x tn) (Z.of_nat i / Vector2i.x tn)).
        pose proof (Z.div_mod (Z.of_nat i) (Vector2i.x tn) ltac:(lia)) as E.
        pose proof (Z.mod_pos_bound (Z.of_nat i) (Vector2i.x tn) ltac:(lia)) as B.
        split.
        * unfold cell_index. cbn [Vector2i.x Vector2i.y].
          replace (Z.of_nat i / Vector2i.x tn * Vector2i.x tn + Z.of_nat i mod Vector2i.x tn)
            with (Z.of_nat i) by lia.
          apply Nat2Z.id.
        * apply Hin, inside_spec. cbn [Vector2i.x Vector2i.y].
          repeat split; try lia.
          -- apply Z.div_pos; lia.
          -- apply Z.div_lt_upper_bound; lia. }
  apply Permutation_length in Hperm. rewrite length_map, length_seq in Hperm. nia.
Qed.

Lemma pass_bound_nonneg (tn : Vector2i.t) : 0 <= pass_bound tn.
Proof.
  unfold pass_bound. cbv zeta.
  generalize (Z.max (Vector2i.x tn) (Vector2i.y tn)). intros m.
  destruct (Z_le_gt_dec 0 m); [nia|].
  destruct (Z.eq_dec m (-1)) as [-> | Hm]; [lia|].
  assert (0 <= (m + 1) * (m + 2)) by (apply Z.mul_nonpos_nonpos; lia). nia.
Qed.

(** *** What [_pushRenderTask] pushes *)

Section Pushed.

Variables width height tilesize : Z.
Hypothesis width_range : 0 < width < 2 ^ 24.
Hypothesis height_range : 0 < height < 2 ^ 24.
Hypothesis tilesize_range : 0 < tilesize < 2 ^ 24.

Lemma tile_num_exact :
  tile_num width height tilesize
  = Vector2i.mk (cdiv width tilesize) (cdiv height tilesize).
Proof.
  unfold tile_num. now rewrite !ceil_div_float_exact.
Qed.

(** The loops return for every fuel from [push_fuel] on; the queue then
    holds the tasks of the cells the loop looked at inside the grid, which
    are all the cells of the grid, each once. *)
Lemma pushed_tasks :
  cdiv width tilesize * cdiv height tilesize < 2 ^ 32 ->
  exists n,
    let tn := Vector2i.mk (cdiv width tilesize) (cdiv height tilesize) in
    let cells := filter (inside tn) (trail width height tilesize tn n) in
    (0 < n)%nat /\
    outside_both tn (cur_pos (iterate width height tilesize tn n)) = true /\
    (forall m, (m < n)%nat ->
       outside_both tn (cur_pos (iterate width height tilesize tn m)) = false) /\
    NoDup cells /\
    (forall p, In p cells <-> inside tn p = true) /\
    Z.of_nat (List.length cells) = cdiv width tilesize * cdiv height tilesize /\
    forall fuel, (push_fuel tn <= fuel)%nat ->
      pushRenderTask width height tilesize fuel
      = Some (mkPushed (cdiv width tilesize * cdiv height tilesize)
                       (repeat false (Z.to_nat (cdiv width tilesize * cdiv height tilesize)))
                       (make_tasks width height tilesize 0 cells)).
Proof.
  intros Htotal.
  pose proof (cdiv_spec width tilesize ltac:(lia) ltac:(lia)) as [_ Hnx].
  pose proof (cdiv_spec height tilesize ltac:(lia) ltac:(lia)) as [_ Hny].
  set (tn := Vector2i.mk (cdiv width tilesize) (cdiv height tilesize)).
  destruct (spiral_returns width height tilesize tn) as (n & Hn & Hbound & Hout & Hmin & Hall & Hloop);
    [cbn; lia | cbn; lia |].
  exists n. cbv zeta. fold tn.
  set (cells := filter (inside tn) (trail width height tilesize tn n)).
  assert (Hnd : NoDup cells) by (apply NoDup_filter, trail_NoDup).
  assert (Hin : forall p, In p cells <-> inside tn p = true).
  { intros p. unfold cells. rewrite filter_In. split; [tauto|]. intros H; split; auto. }
  assert (Hlen : Z.of_nat (List.length cells) = cdiv width tilesize * cdiv height tilesize).
  { apply (grid_count tn); cbn; try lia; assumption. }
  repeat (split; [assumption|]).
  intros fuel Hfuel. unfold push_fuel in Hfuel.
  pose proof (pass_bound_nonneg tn) as Hpb.
  cbn [Vector2i.x Vector2i.y tn] in Hfuel.
  unfold pushRenderTask.
  rewrite (count_rows_spec width height tilesize width_range height_range tilesize_range fuel 0 0).
  - rewrite tile_num_exact. fold tn. rewrite Hloop by lia.
    destruct (queue_iterate width height tilesize tn n) as [-> _].
    unfold passes_left. destruct (Z.ltb_spec 0 height); [|lia].
    rewrite Z.sub_0_r, Z.add_0_l. fold cells.
    replace (cdiv height tilesize * cdiv width tilesize)
      with (cdiv width tilesize * cdiv height tilesize) by ring.
    reflexivity.
  - lia.
  - lia.
  - unfold passes_left. destruct (Z.ltb_spec 0 height); [|lia]. rewrite Z.sub_0_r. lia.
  - unfold passes_left. destruct (Z.ltb_spec 0 height); [|lia]. rewrite Z.sub_0_r. lia.
Qed.

End Pushed.

(** *** Every tile edge an [unsigned] holds *)

Section PushedAnyTile.

Variables width height tilesize : Z.
Hypothesis width_range : 0 < width < 2 ^ 24.
Hypothesis height_range : 0 < height < 2 ^ 24.
Hypothesis tilesize_range : 0 < tilesize < 2 ^ 32.

Lemma tile_num_any_tile :
  tile_num width height tilesize
  = Vector2i.mk (cdiv width tilesize) (cdiv height tilesize).
Proof.
  unfold tile_num. now rewrite !ceil_div_float_any_tile.
Qed.

(** The count of lines 180 to 182: the number of cells modulo [2 ^ 32]. *)
Lemma count_rows_total (fuel : nat) :
  cdiv height tilesize + cdiv width tilesize < Z.of_nat fuel ->
  count_rows width height tilesize fuel 0 0
  = Some (u32 (cdiv width tilesize * cdiv height tilesize)).
Proof.
  intros Hfuel.
  pose proof (cdiv_spec width tilesize ltac:(lia) ltac:(lia)) as [_ Hnx].
  pose proof (cdiv_spec height tilesize ltac:(lia) ltac:(lia)) as [_ Hny].
  destruct (Z_lt_le_dec tilesize (2 ^ 24)) as [Hn | Hw].
  - rewrite (count_rows_wraps width height tilesize) by (try assumption; try lia;
      unfold passes_left; destruct (Z.ltb_spec 0 height); rewrite ?Z.sub_0_r; lia).
    unfold passes_left. destruct (Z.ltb_spec 0 height); [|lia].
    rewrite Z.sub_0_r, Z.add_0_l. do 2 f_equal. ring.
  - assert (Ex : cdiv width tilesize = 1)
      by (unfold cdiv; symmetry; apply Z.div_unique with (width - 1); lia).
    assert (Ey : cdiv height tilesize = 1)
      by (unfold cdiv; symmetry; apply Z.div_unique with (height - 1); lia).
    rewrite Ex, Ey in *.
    destruct fuel as [|[|fuel]]; try lia.
    cbn [count_rows count_row].
    destruct (Z.ltb_spec 0 height); [|lia]. destruct (Z.ltb_spec 0 width); [|lia].
    rewrite !Z.add_0_l, (u32_small tilesize) by lia.
    destruct (Z.ltb_spec tilesize width); [lia|].
    destruct (Z.ltb_spec tilesize height); [lia|]. reflexivity.
Qed.

(** The loops return for every fuel from [push_fuel] on, with the tasks of
    all the cells of the grid in the queue, each once, and the number of
    cells modulo [2 ^ 32] in [m_totalTask]. *)
Lemma pushed_any_tile :
  exists n,
    let tn := Vector2i.mk (cdiv width tilesize) (cdiv height tilesize) in
    let cells := filter (inside tn) (trail width height tilesize tn n) in
    let total := u32 (cdiv width tilesize * cdiv height tilesize) in
    (0 < n)%nat /\
    outside_both tn (cur_pos (iterate width height tilesize tn n)) = true /\
    (forall m, (m < n)%nat ->
       outside_both tn (cur_pos (iterate width height tilesize tn m)) = false) /\
    NoDup cells /\
    (forall p, In p cells <-> inside tn p = true) /\
    Z.of_nat (List.length cells) = cdiv width tilesize * cdiv height tilesize /\
    forall fuel, (push_fuel tn <= fuel)%nat ->
      pushRenderTask width height tilesize fuel
      = Some (mkPushed total (repeat false (Z.to_nat total))
                       (make_tasks width height tilesize 0 cells)).
Proof.
  pose proof (cdiv_spec width tilesize ltac:(lia) ltac:(lia)) as [_ Hnx].
  pose proof (cdiv_spec height tilesize ltac:(lia) ltac:(lia)) as [_ Hny].
  set (tn := Vector2i.mk (cdiv width tilesize) (cdiv height tilesize)).
  destruct (spiral_returns width height tilesize tn) as (n & Hn & Hbound & Hout & Hmin & Hall & Hloop);
    [cbn; lia | cbn; lia |].
  exists n. cbv zeta. fold tn.
  set (cells := filter (inside tn) (trail width height tilesize tn n)).
  assert (Hnd : NoDup cells) by (apply NoDup_filter, trail_NoDup).
  assert (Hin : forall p, In p cells <-> inside tn p = true).
  { intros p. unfold cells. rewrite filter_In. split; [tauto|]. intros H; split; auto. }
  assert (Hlen : Z.of_nat (List.length cells) = cdiv width tilesize * cdiv height tilesize).
  { apply (grid_count tn); cbn; try lia; assumption. }
  repeat (split; [assumption|]).
  intros fuel Hfuel. unfold push_fuel in Hfuel.
  pose proof (pass_bound_nonneg tn) as Hpb.
  cbn [Vector2i.x Vector2i.y tn] in Hfuel.
  unfold pushRenderTask.
  rewrite count_rows_total by lia.
  rewrite tile_num_any_tile. fold tn. rewrite Hloop by lia.
  destruct (queue_iterate width height tilesize tn n) as [-> _].
  reflexivity.
Qed.

End PushedAnyTile.

(* ------------------------------------------------------------------ *)
(** ** The tile generator: partition, first tile, traversal order *)

Lemma queue_task (W H T : Z) (cells : list Vector2i.t) (i : nat) (t : RenderTask) :
  Z.of_nat (List.length cells) <= 2 ^ 32 ->
  nth_error (make_tasks W H T 0 cells) i = Some t ->
  exists p, nth_error cells i = Some p /\ t = make_task W H T (Z.of_nat i) p.
Proof.
  intros Hlen Hi. rewrite make_tasks_nth in Hi by lia.
  destruct (nth_error cells i) as [p|]; [|discriminate].
  exists p. cbn in Hi. injection Hi as <-. split; reflexivity.
Qed.

Lemma trail_head (W H T : Z) (tn : Vector2i.t) (n : nat) :
  trail W H T tn (S n)
  = Vector2i.div tn 2 :: map (fun i => cur_pos (iterate W H T tn i)) (seq 1 n).
Proof. reflexivity. Qed.

(** The [i]-th task of the queue is the task of the [i]-th cell, under some
    id. *)
Lemma queue_cell (W H T : Z) (cells : list Vector2i.t) (id : Z) (i : nat) :
  exists id',
    nth_error (make_tasks W H T id cells) i
    = option_map (make_task W H T id') (nth_error cells i).
Proof.
  revert id i. induction cells as [|a cells IH]; intros id i.
  - exists id. destruct i; reflexivity.
  - destruct i as [|i]; cbn [make_tasks nth_error].
    + exists id. reflexivity.
    + apply IH.
Qed.

(** C1.  For every width and height below [2 ^ 24] and every tile edge an
    [unsigned] holds, [_pushRenderTask] returns, and the tasks it pushed
    partition the image: their number is [ceil(W/T) * ceil(H/T)], every tile
    lies in the image and has the clipped size [min(T, dimension - origin)],
    and every pixel of the image is covered by exactly one task of the
    queue.  [m_totalTask] is the number of tasks modulo [2 ^ 32]: the number
    itself when the grid has fewer than [2 ^ 32] cells. *)
Theorem pushRenderTask_partitions_image (W H T : Z) :
  0 < W < 2 ^ 24 -> 0 < H < 2 ^ 24 -> 0 < T < 2 ^ 32 ->
  exists fuel0 p,
    (forall fuel, (fuel0 <= fuel)%nat -> pushRenderTask W H T fuel = Some p) /\
    p_totalTask p = u32 (cdiv W T * cdiv H T) /\
    (cdiv W T * cdiv H T < 2 ^ 32 -> p_totalTask p = cdiv W T * cdiv H T) /\
    Z.of_nat (List.length (p_queue p)) = cdiv W T * cdiv H T /\
    (forall t, In t (p_queue p) ->
       0 <= Vector2i.x (ori t) /\ 0 <= Vector2i.y (ori t) /\
       Vector2i.x (size t) = Z.min T (W - Vector2i.x (ori t)) /\
       Vector2i.y (size t) = Z.min T (H - Vector2i.y (ori t)) /\
       0 < Vector2i.x (size t) /\ 0 < Vector2i.y (size t)) /\
    (forall t px py, In t (p_queue p) -> covers t px py -> 0 <= px < W /\ 0 <= py < H) /\
    (forall px py, 0 <= px < W -> 0 <= py < H ->
       exists i t,
         nth_error (p_queue p) i = Some t /\ covers t px py /\
         forall j t', nth_error (p_queue p) j = Some t' -> covers t' px py -> j = i).
Proof.
  intros HW HH HT.
  destruct (pushed_any_tile W H T HW HH HT)
    as (n & Hn & Hout & Hmin & Hnd & Hin & Hlen & Hrun).
  cbv zeta in *.
  pose proof (cdiv_spec W T ltac:(lia) ltac:(lia)) as [_ Hnx].
  pose proof (cdiv_spec H T ltac:(lia) ltac:(lia)) as [_ Hny].
  set (tn := Vector2i.mk (cdiv W T) (cdiv H T)) in *.
  set (cells := filter (inside tn) (trail W H T tn n)) in *.
  exists (push_fuel tn), (mkPushed (u32 (cdiv W T * cdiv H T))
                            (repeat false (Z.to_nat (u32 (cdiv W T * cdiv H T))))
                            (make_tasks W H T 0 cells)).
  cbn [p_totalTask p_queue].
  assert (Hnth : forall i t, nth_error (make_tasks W H T 0 cells) i = Some t ->
            exists id p, nth_error cells i = Some p /\ inside tn p = true /\
                         t = make_task W H T id p).
  { intros i t Hi. destruct (queue_cell W H T cells 0 i) as (id & E).
    rewrite E in Hi. destruct (nth_error cells i) as [p|] eqn:Ep; [|discriminate].
    injection Hi as <-. exists id, p. repeat split.
    apply Hin. eapply nth_error_In; eassumption. }
  assert (Htask : forall t, In t (make_tasks W H T 0 cells) ->
            exists id p, inside tn p = true /\ t = make_task W H T id p).
  { intros t Ht. apply In_nth_error in Ht. destruct Ht as (i & Hi).
    destruct (Hnth i t Hi) as (id & p & _ & Hp & ->). exists id, p. split; [assumption | reflexivity]. }
  split; [exact Hrun|]. split; [reflexivity|].
  split; [intros Htotal; apply u32_small; nia|].
  split; [rewrite make_tasks_length; exact Hlen|].
  split; [|split].
  - intros t Ht. destruct (Htask t Ht) as (id & p & Hp & ->).
    destruct (make_task_inside W H T HW HH HT id p Hp) as (-> & Bx & By).
    apply inside_spec in Hp. cbn [ori size Vector2i.x Vector2i.y tn] in *. nia.
  - intros t px py Ht Hc. destruct (Htask t Ht) as (id & p & Hp & ->).
    apply (covers_cell W H T HW HH HT) in Hc; [tauto | exact Hp].
  - intros px py Hx Hy.
    pose proof (cell_of_inside W H T HW HH HT px py Hx Hy) as Hcell. fold tn in Hcell.
    destruct (In_nth_error cells (cell_of T px py)) as (i & Hi); [apply Hin; exact Hcell|].
    destruct (queue_cell W H T cells 0 i) as (id & E). rewrite Hi in E. cbn in E.
    exists i, (make_task W H T id (cell_of T px py)). split; [exact E|]. split.
    + apply (covers_cell W H T HW HH HT); [exact Hcell | tauto].
    + intros j t' Hj Hc. destruct (Hnth j t' Hj) as (id' & q & Hq & Hqin & ->).
      apply (covers_cell W H T HW HH HT) in Hc; [|exact Hqin].
      destruct Hc as [_ Hc].
      apply (proj1 (NoDup_nth_error cells) Hnd).
      * apply nth_error_Some. congruence.
      * congruence.
Qed.

(** The partition holds for a 64 by 64 image with tile edge 32. *)
Lemma pushRenderTask_partitions_image_witness :
  exists fuel0 p,
    (forall fuel, (fuel0 <= fuel)%nat -> pushRenderTask 64 64 32 fuel = Some p) /\
    p_totalTask p = u32 (cdiv 64 32 * cdiv 64 32) /\
    (cdiv 64 32 * cdiv 64 32 < 2 ^ 32 -> p_totalTask p = cdiv 64 32 * cdiv 64 32) /\
    Z.of_nat (List.length (p_queue p)) = cdiv 64 32 * cdiv 64 32 /\
    (forall t, In t (p_queue p) ->
       0 <= Vector2i.x (ori t) /\ 0 <= Vector2i.y (ori t) /\
       Vector2i.x (size t) = Z.min 32 (64 - Vector2i.x (ori t)) /\
       Vector2i.y (size t) = Z.min 32 (64 - Vector2i.y (ori t)) /\
       0 < Vector2i.x (size t) /\ 0 < Vector2i.y (size t)) /\
    (forall t px py, In t (p_queue p) -> covers t px py -> 0 <= px < 64 /\ 0 <= py < 64) /\
    (forall px py, 0 <= px < 64 -> 0 <= py < 64 ->
       exists i t,
         nth_error (p_queue p) i = Some t /\ covers t px py /\
         forall j t', nth_error (p_queue p) j = Some t' -> covers t' px py -> j = i).
Proof.
  apply (pushRenderTask_partitions_image 64 64 32); lia.
Defined.

(** C1 fails where a [float] does not hold the width: for a 16777217 by 1
    image with tile edge 16777216 the count loop of lines 180 to 182 sets
    [m_totalTask] to two, the exact number of tiles, while line 190 computes
    one column of tiles; one task is pushed and the last pixel of the row is
    in no tile. *)
Lemma pushRenderTask_float_gap :
  exists p,
    pushRenderTask 16777217 1 16777216 8 = Some p /\
    cdiv 16777217 16777216 * cdiv 1 16777216 = 2 /\
    p_totalTask p = 2 /\
    List.length (p_queue p) = 1%nat /\
    forall t, In t (p_queue p) -> ~ covers t 16777216 0.
Proof.
  eexists. split; [vm_compute; reflexivity|].
  cbn [p_totalTask p_queue]. repeat split.
  intros t [<- | []]. unfold covers. cbn. lia.
Qed.

Lemma half_in_centre_tile (D T n : Z) :
  0 < D -> 0 < T -> 1 <= n -> (n - 1) * T < D <= n * T ->
  (D mod T = 0 \/ Z.odd n = true) ->
  n / 2 * T <= D / 2 < n / 2 * T + Z.min T (D - n / 2 * T).
Proof.
  intros HD HT Hn Hc Hd.
  pose proof (Z.div_mod n 2 ltac:(lia)) as Em.
  pose proof (Z.mod_pos_bound n 2 ltac:(lia)) as Bm.
  pose proof (Z.div_mod D 2 ltac:(lia)) as ED.
  pose proof (Z.mod_pos_bound D 2 ltac:(lia)) as BD.
  remember (n / 2) as h. remember (n mod 2) as o.
  remember (D / 2) as d. remember (D mod 2) as e.
  destruct Hd as [Hd | Hd].
  - assert (E : D = n * T).
    { pose proof (Z.div_mod D T ltac:(lia)) as EDT. rewrite Hd in EDT.
      remember (D / T) as q.
      assert (q = n) by nia. subst q. lia. }
    assert (o = 0 \/ o = 1) as [-> | ->] by lia.
    + assert (n = 2 * h) by lia. subst n.
      assert (D = 2 * (h * T)) by lia.
      assert (d = h * T) by lia.
      nia.
    + assert (n = 2 * h + 1) by lia. subst n.
      assert (D = 2 * (h * T) + T) by lia.
      nia.
  - assert (Ho : o = 1).
    { subst o. rewrite Zmod_odd, Hd. reflexivity. }
    assert (n = 2 * h + 1) by lia. subst n.
    replace (2 * h + 1 - 1) with (2 * h) in Hc by lia.
    assert (Hc1 : 2 * (h * T) < D) by lia.
    assert (Hc2 : D <= 2 * (h * T) + T) by lia.
    remember (h * T) as hT. clear HeqhT.
    lia.
Qed.

(** C3 (as amended).  For every width and height below [2 ^ 24] and every
    tile edge an [unsigned] holds, the first task pushed, the one with
    [taskId] 0, is the tile of the grid cell [(tiles_x/2, tiles_y/2)]: its
    origin is that cell times the tile edge.  It contains the centre pixel
    [(floor(W/2), floor(H/2))] whenever, on each axis, the tile edge divides
    the dimension or the number of tiles is odd. *)
Theorem first_task_is_centre_cell (W H T : Z) :
  0 < W < 2 ^ 24 -> 0 < H < 2 ^ 24 -> 0 < T < 2 ^ 32 ->
  exists fuel0 p t,
    (forall fuel, (fuel0 <= fuel)%nat -> pushRenderTask W H T fuel = Some p) /\
    nth_error (p_queue p) 0 = Some t /\
    taskId t = 0 /\
    ori t = Vector2i.mk (cdiv W T / 2 * T) (cdiv H T / 2 * T) /\
    ((W mod T = 0 \/ Z.odd (cdiv W T) = true) ->
     (H mod T = 0 \/ Z.odd (cdiv H T) = true) ->
     covers t (W / 2) (H / 2)).
Proof.
  intros HW HH HT.
  destruct (pushed_any_tile W H T HW HH HT)
    as (n & Hn & Hout & Hmin & Hnd & Hin & Hlen & Hrun).
  cbv zeta in *.
  set (tn := Vector2i.mk (cdiv W T) (cdiv H T)) in *.
  pose proof (cdiv_spec W T ltac:(lia) ltac:(lia)) as [Cx Hnx].
  pose proof (cdiv_spec H T ltac:(lia) ltac:(lia)) as [Cy Hny].
  assert (Hc : inside tn (Vector2i.div tn 2) = true) by (apply centre_inside; cbn; lia).
  destruct n as [|n]; [lia|].
  rewrite trail_head in Hrun. cbn [filter] in Hrun. rewrite Hc in Hrun.
  cbn [make_tasks] in Hrun.
  eexists _, _, _. split; [exact Hrun|]. cbn [p_queue nth_error].
  split; [reflexivity|]. clear Hrun Hin Hnd Hlen Hmin Hout.
  destruct (make_task_inside W H T HW HH HT 0 (Vector2i.div tn 2) Hc) as (E & _).
  rewrite E. cbn [taskId ori size].
  assert (Ec : Vector2i.div tn 2 = Vector2i.mk (cdiv W T / 2) (cdiv H T / 2)).
  { unfold Vector2i.div. cbn [tn Vector2i.x Vector2i.y].
    now rewrite !Z.quot_div_nonneg by lia. }
  rewrite Ec. cbn [Vector2i.x Vector2i.y].
  split; [reflexivity|]. split; [reflexivity|].
  intros Dx Dy. unfold covers. cbn [ori size Vector2i.x Vector2i.y].
  split; apply half_in_centre_tile; try assumption; lia.
Qed.

(** The first task of a 64 by 64 image with tile edge 32 holds the centre
    pixel. *)
Lemma first_task_is_centre_cell_witness :
  exists fuel0 p t,
    (forall fuel, (fuel0 <= fuel)%nat -> pushRenderTask 64 64 32 fuel = Some p) /\
    nth_error (p_queue p) 0 = Some t /\
    taskId t = 0 /\
    ori t = Vector2i.mk (cdiv 64 32 / 2 * 32) (cdiv 64 32 / 2 * 32) /\
    ((64 mod 32 = 0 \/ Z.odd (cdiv 64 32) = true) ->
     (64 mod 32 = 0 \/ Z.odd (cdiv 64 32) = true) ->
     covers t (64 / 2) (64 / 2)).
Proof.
  apply (first_task_is_centre_cell 64 64 32); lia.
Defined.

(** C3, the claim as stated, fails: for a 100 by 50 image with tile edge 32
    the first task is the tile at (64, 32), of size 32 by 18, and the centre
    pixel (50, 25) is not in it. *)
Lemma first_task_misses_centre_pixel :
  exists p t,
    pushRenderTask 100 50 32 64 = Some p /\
    nth_error (p_queue p) 0 = Some t /\
    taskId t = 0 /\
    ori t = Vector2i.mk 64 32 /\ size t = Vector2i.mk 32 18 /\
    ~ covers t (100 / 2) (50 / 2).
Proof.
  eexists _, _. split; [vm_compute; reflexivity|].
  cbn [p_queue nth_error]. split; [reflexivity|].
  cbn [taskId ori size]. repeat split.
  unfold covers. cbn. lia.
Qed.

(** C4.  For every width and height below [2 ^ 24] and every tile edge an
    [unsigned] holds, [_pushRenderTask] walks the square spiral of the
    specification from the cell [(tiles_x/2, tiles_y/2)]: the cells it looks
    at are a prefix [looked ++ [last]] of that spiral, none of [looked] is
    outside the grid on both axes, [last] is the first that is (there the
    loop returns), and the queue holds the tasks of exactly the cells of
    [looked] inside the grid, in that order.  For W = 64, H = 64, T = 32
    these are four distinct tiles, the first of cell (1, 1), covering 4096
    pixels. *)
Theorem pushRenderTask_walks_square_spiral :
  (forall W H T : Z,
     0 < W < 2 ^ 24 -> 0 < H < 2 ^ 24 -> 0 < T < 2 ^ 32 ->
     exists fuel0 p legs looked last rest,
       let tn := Vector2i.mk (cdiv W T) (cdiv H T) in
       (forall fuel, (fuel0 <= fuel)%nat -> pushRenderTask W H T fuel = Some p) /\
       square_spiral (Vector2i.mk (cdiv W T / 2) (cdiv H T / 2)) legs
       = looked ++ last :: rest /\
       hd_error looked = Some (Vector2i.mk (cdiv W T / 2) (cdiv H T / 2)) /\
       Forall (fun q => outside_both tn q = false) looked /\
       outside_both tn last = true /\
       p_queue p = make_tasks W H T 0 (filter (inside tn) looked))
  /\ (exists p,
        pushRenderTask 64 64 32 16 = Some p /\
        p_totalTask p = 4 /\
        p_queue p
        = [ mkRenderTask 0 (Vector2i.mk 32 32) (Vector2i.mk 32 32);
            mkRenderTask 1 (Vector2i.mk 32 0) (Vector2i.mk 32 32);
            mkRenderTask 2 (Vector2i.mk 0 0) (Vector2i.mk 32 32);
            mkRenderTask 3 (Vector2i.mk 0 32) (Vector2i.mk 32 32) ] /\
        NoDup (map ori (p_queue p)) /\
        fold_right Z.add 0 (map area (p_queue p)) = 4096).
Proof.
  split.
  - intros W H T HW HH HT.
    destruct (pushed_any_tile W H T HW HH HT)
      as (n & Hn & Hout & Hmin & Hnd & Hin & Hlen & Hrun).
    cbv zeta in *.
    set (tn := Vector2i.mk (cdiv W T) (cdiv H T)) in *.
    pose proof (cdiv_spec W T ltac:(lia) ltac:(lia)) as [_ Hnx].
    pose proof (cdiv_spec H T ltac:(lia) ltac:(lia)) as [_ Hny].
    assert (Hc : Vector2i.div tn 2 = Vector2i.mk (cdiv W T / 2) (cdiv H T / 2)).
    { unfold Vector2i.div. cbn [tn Vector2i.x Vector2i.y].
      now rewrite !Z.quot_div_nonneg by lia. }
    destruct (trail_prefix W H T tn n) as (legs & rest & Hpath).
    rewrite Hc in Hpath.
    exists (push_fuel tn),
           (mkPushed (u32 (cdiv W T * cdiv H T))
                     (repeat false (Z.to_nat (u32 (cdiv W T * cdiv H T))))
                     (make_tasks W H T 0 (filter (inside tn) (trail W H T tn n)))),
           legs, (trail W H T tn n), (cur_pos (iterate W H T tn n)), rest.
    split; [exact Hrun|]. split; [exact Hpath|]. split; [|split; [|split]].
    + destruct n as [|n]; [lia|]. rewrite trail_head, Hc. reflexivity.
    + apply Forall_forall. intros q Hq.
      apply In_nth_error in Hq. destruct Hq as (i & Hi).
      assert (Hlt : (i < n)%nat).
      { rewrite <- (trail_length W H T tn n). apply nth_error_Some. congruence. }
      rewrite trail_nth in Hi by assumption. injection Hi as <-. apply Hmin, Hlt.
    + exact Hout.
    + reflexivity.
  - eexists. split; [vm_compute; reflexivity|].
    cbn [p_totalTask p_queue]. split; [reflexivity|]. split; [reflexivity|]. split.
    + cbn [map ori]. repeat constructor; cbn; intuition discriminate.
    + reflexivity.
Qed.

(** The spiral of a 100 by 50 image with tile edge 32. *)
Lemma pushRenderTask_walks_square_spiral_witness :
  exists fuel0 p legs looked last rest,
    let tn := Vector2i.mk (cdiv 100 32) (cdiv 50 32) in
    (forall fuel, (fuel0 <= fuel)%nat -> pushRenderTask 100 50 32 fuel = Some p) /\
    square_spiral (Vector2i.mk (cdiv 100 32 / 2) (cdiv 50 32 / 2)) legs
    = looked ++ last :: rest /\
    hd_error looked = Some (Vector2i.mk (cdiv 100 32 / 2) (cdiv 50 32 / 2)) /\
    Forall (fun q => outside_both tn q = false) looked /\
    outside_both tn last = true /\
    p_queue p = make_tasks 100 50 32 0 (filter (inside tn) looked).
Proof.
  apply (proj1 pushRenderTask_walks_square_spiral 100 50 32); lia.
Defined.

(** C4 fails where a [float] does not hold the width: for a 50331651 by 1
    image with tile edge 16777217 the grid has three columns, and the count
    loop of lines 180 to 182 sets [m_totalTask] to three, while line 190
    computes four.  The walk starts from cell 2, not from cell 3/2 = 1, and
    a task is pushed for cell 3, outside the grid: four tasks, the third of
    width 0 and the fourth with a [taskId] that is no index of the three
    entries of [m_taskDone]. *)
Lemma pushRenderTask_float_extra_column :
  exists p,
    pushRenderTask 50331651 1 16777217 64 = Some p /\
    Vector2i.mk (cdiv 50331651 16777217) (cdiv 1 16777217) = Vector2i.mk 3 1 /\
    tile_num 50331651 1 16777217 = Vector2i.mk 4 1 /\
    p_totalTask p = 3 /\
    List.length (p_taskDone p) = 3%nat /\
    p_queue p
    = [ mkRenderTask 0 (Vector2i.mk 33554434 0) (Vector2i.mk 16777217 1);
        mkRenderTask 1 (Vector2i.mk 16777217 0) (Vector2i.mk 16777217 1);
        mkRenderTask 2 (Vector2i.mk 50331651 0) (Vector2i.mk 0 1);
        mkRenderTask 3 (Vector2i.mk 0 0) (Vector2i.mk 16777217 1) ] /\
    inside (Vector2i.mk (cdiv 50331651 16777217) (cdiv 1 16777217)) (Vector2i.mk 3 0)
    = false.
Proof.
  eexists. split; [vm_compute; reflexivity|].
  cbn [p_totalTask p_taskDone p_queue].
  repeat (split; [vm_compute; reflexivity|]). vm_compute. reflexivity.
Qed.

(* ------------------------------------------------------------------ *)
(** ** Reasoning about runs *)

Section Keeps.

Context {R : Type}.
Variable I : machine -> machine -> Prop.
Hypothesis I_refl : forall m, I m m.
Hypothesis I_trans : forall a b c, I a b -> I b c -> I a c.

Lemma keeps_ret {A : Type} (a : A) : keeps I (@ret R A a).
Proof. intros m. apply I_refl. Qed.

Lemma keeps_return_ {A : Type} (r : R) : keeps I (@return_ R A r).
Proof. intros m. apply I_refl. Qed.

Lemma keeps_crash {A : Type} (f : fault) : keeps I (@crash R A f).
Proof. intros m. apply I_refl. Qed.

Lemma keeps_get_sys : keeps I (@get_sys R).
Proof. intros m. apply I_refl. Qed.

Lemma keeps_deref {A : Type} (name : string) (p : option A) : keeps I (@deref R A name p).
Proof. destruct p; intros m; apply I_refl. Qed.

Lemma keeps_c_str (what : string) (p : option string) : keeps I (@c_str R what p).
Proof. destruct p; intros m; apply I_refl. Qed.

Lemma keeps_bind {A B : Type} (c : code R A) (k : A -> code R B) :
  keeps I c -> (forall a, keeps I (k a)) -> keeps I (bind c k).
Proof.
  intros Hc Hk m. unfold bind. specialize (Hc m).
  destruct (c m) as [a m' | r m' | f m']; cbn [final] in *; try assumption.
  eapply I_trans; [exact Hc | apply Hk].
Qed.

Lemma keeps_call {R' : Type} (default : R) (c : code R unit) :
  keeps I c -> keeps I (@call R R' default c).
Proof.
  intros Hc m. unfold call. specialize (Hc m).
  destruct (c m); cbn [final] in *; assumption.
Qed.

End Keeps.

Lemma bind_assoc {R A B C : Type} (c : code R A) (k : A -> code R B) (l : B -> code R C)
    (m : machine) :
  bind (bind c k) l m = bind c (fun a => bind (k a) l) m.
Proof. unfold bind. destruct (c m); reflexivity. Qed.

Lemma appends_refl (P : event -> bool) (m : machine) : appends P m m.
Proof. exists []. now rewrite app_nil_r. Qed.

Lemma appends_trans (P : event -> bool) (a b c : machine) :
  appends P a b -> appends P b c -> appends P a c.
Proof.
  intros (e1 & E1 & F1) (e2 & E2 & F2). exists (e1 ++ e2).
  rewrite E2, E1, app_assoc, forallb_app, F1, F2. split; reflexivity.
Qed.

Lemma appends_weaken (P Q : event -> bool) (m m' : machine) :
  (forall e, P e = true -> Q e = true) -> appends P m m' -> appends Q m m'.
Proof.
  intros HPQ (evs & E & F). exists evs. split; [assumption|].
  rewrite forallb_forall in *. auto.
Qed.

Lemma appends_emit_event {R : Type} (P : event -> bool) (e : event) :
  P e = true -> keeps (appends P) (@emit_event R e).
Proof. intros He m. exists [e]. cbn. now rewrite He. Qed.

Lemma appends_emit_events {R : Type} (P : event -> bool) (es : list event) :
  forallb P es = true -> keeps (appends P) (@emit_events R es).
Proof. intros He m. exists es. cbn. auto. Qed.

Lemma appends_update {R : Type} (P : event -> bool) (f : System -> System) :
  keeps (appends P) (@update R f).
Proof. intros m. exists []. cbn. now rewrite app_nil_r. Qed.

Lemma appends_update_shared {R : Type} (P : event -> bool) (f : SharedMemory -> SharedMemory) :
  keeps (appends P) (@update_shared R f).
Proof. intros m. exists []. cbn. now rewrite app_nil_r. Qed.

Lemma untouched_refl (m : machine) : untouched m m.
Proof. repeat split; auto. Qed.

Lemma untouched_trans (a b c : machine) : untouched a b -> untouched b c -> untouched a c.
Proof. unfold untouched. intuition congruence. Qed.

Lemma untouched_emit_event {R : Type} (e : event) : keeps untouched (@emit_event R e).
Proof. intros m. repeat split; auto. Qed.

Lemma untouched_update_shared {R : Type} (f : SharedMemory -> SharedMemory) :
  keeps untouched (@update_shared R f).
Proof. intros m. repeat split; auto. Qed.

(** Closes a goal [keeps I c] by the structure of [c]; [refl], [trans] are
    the two laws of [I] and [prim] closes the steps that change the machine. *)
Ltac keeps_by refl trans prim :=
  repeat first
    [ prim
    | apply (keeps_bind _ trans); [| intro]
    | apply (keeps_call _)
    | apply (keeps_ret _ refl)
    | apply (keeps_return_ _ refl)
    | apply (keeps_crash _ refl)
    | apply (keeps_get_sys _ refl)
    | apply (keeps_deref _ refl)
    | apply (keeps_c_str _ refl)
    | match goal with
      | |- keeps _ (match ?x with _ => _ end) => destruct x
      | |- keeps _ (if ?x then _ else _) => destruct x
      end ].

(* ------------------------------------------------------------------ *)
(** ** The render pass *)

Section RenderFacts.

Variable g_bBlenderMode : bool.
Variable g_iTileSize : Z.
Variable integrator_registered : string -> bool.
Variable timer_reading : list event -> Z.
Variable run_threads : Z -> list RenderTask -> list bool -> list bool.

Lemma appends_read_timer {R : Type} (P : event -> bool) :
  keeps (appends P) (@read_timer timer_reading R).
Proof. intros m. apply appends_refl. Qed.

Lemma appends_push_tasks {R : Type} (q : list RenderTask) :
  keeps (appends no_thread) (@push_tasks R q).
Proof.
  intros m. exists (map E_PushTask q). split; [reflexivity|].
  induction q; cbn; auto.
Qed.

Lemma appends_threads_done {R : Type} (P : event -> bool) :
  keeps (appends P) (@threads_done run_threads R).
Proof. intros m. exists []. cbn. now rewrite app_nil_r. Qed.

Lemma forallb_map_event {A : Type} (P : event -> bool) (f : A -> event) (l : list A) :
  (forall a, P (f a) = true) -> forallb P (map f l) = true.
Proof. intros H. induction l; cbn; [reflexivity|]. now rewrite H. Qed.

Lemma PreProcess_appends : keeps (appends quiet) (PreProcess timer_reading).
Proof.
  unfold PreProcess.
  keeps_by (appends_refl quiet) (appends_trans quiet)
    ltac:(first [ apply appends_emit_event; reflexivity
                | apply appends_update | apply appends_read_timer ]).
Qed.

Lemma pushRenderTask_appends (fuel : nat) :
  keeps (appends no_thread) (_pushRenderTask g_iTileSize fuel).
Proof.
  unfold _pushRenderTask.
  keeps_by (appends_refl no_thread) (appends_trans no_thread)
    ltac:(first [ apply appends_update | apply appends_push_tasks ]).
Qed.

Lemma outputProgress_appends : keeps (appends no_push) (_outputProgress g_bBlenderMode).
Proof.
  unfold _outputProgress.
  keeps_by (appends_refl no_push) (appends_trans no_push)
    ltac:(first [ apply appends_emit_event; reflexivity
                | apply appends_update_shared ]).
Qed.

Lemma executeRenderingTasks_appends :
  keeps (appends no_push)
        (_executeRenderingTasks g_bBlenderMode integrator_registered run_threads).
Proof.
  unfold _executeRenderingTasks, _allocateIntegrator.
  keeps_by (appends_refl no_push) (appends_trans no_push)
    ltac:(first [ apply appends_emit_event; reflexivity
                | apply appends_emit_events; apply forallb_map_event; reflexivity
                | apply appends_threads_done
                | apply outputProgress_appends ]).
Qed.

Lemma two_phases_late {R A : Type} (c : code R A) :
  keeps (appends no_push) c -> keeps two_phases c.
Proof.
  intros Hc m. destruct (Hc m) as (evs & E & F).
  exists [], evs. cbn. auto.
Qed.

Lemma two_phases_early {R A B : Type} (c : code R A) (k : A -> code R B) :
  keeps (appends no_thread) c -> (forall a, keeps two_phases (k a)) ->
  keeps two_phases (bind c k).
Proof.
  intros Hc Hk m. unfold bind. destruct (Hc m) as (evs & E & F).
  destruct (c m) as [a m' | r m' | f m']; cbn [final] in *.
  - destruct (Hk a m') as (before & after & E' & Fb & Fa).
    exists (evs ++ before), after.
    rewrite E', E, !app_assoc, forallb_app, F, Fb. auto.
  - exists evs, []. rewrite app_nil_r. auto.
  - exists evs, []. rewrite app_nil_r. auto.
Qed.

(** C8.  Whatever state [Render] starts in, the calls it makes come in two
    phases: every [PushTask] is made in the first, before any thread is
    created, started or joined, and no [PushTask] is made once the second
    phase, which holds every thread event, has begun; so a [PushTask] comes
    before every [BeginThread] of the run. *)
Theorem Render_pushes_before_threads :
  (forall (fuel : nat) (m : machine),
     exists before after,
       trace (final (Render g_bBlenderMode g_iTileSize integrator_registered
                            timer_reading run_threads fuel m))
       = trace m ++ before ++ after /\
       forallb no_thread before = true /\ forallb no_push after = true)
  /\ (forall fuel m i j rt k,
        let evs := skipn (List.length (trace m))
                     (trace (final (Render g_bBlenderMode g_iTileSize integrator_registered
                                           timer_reading run_threads fuel m))) in
        nth_error evs i = Some (E_PushTask rt) ->
        nth_error evs j = Some (E_BeginThread k) ->
        (i < j)%nat).
Proof.
  assert (H : forall fuel, keeps two_phases
            (Render g_bBlenderMode g_iTileSize integrator_registered
                    timer_reading run_threads fuel)).
  { intros fuel. unfold Render.
    apply two_phases_early.
    { apply keeps_call. intros m0. apply (appends_weaken quiet no_thread).
      - intros e He. apply andb_true_iff in He. tauto.
      - apply PreProcess_appends. }
    intros _. apply two_phases_early.
    { apply appends_emit_event. reflexivity. }
    intros _. apply two_phases_early.
    { apply keeps_call. apply pushRenderTask_appends. }
    intros _. apply two_phases_late.
    keeps_by (appends_refl no_push) (appends_trans no_push)
      ltac:(first [ apply appends_emit_event; reflexivity
                  | apply appends_update | apply appends_read_timer
                  | apply executeRenderingTasks_appends ]). }
  split.
  - intros fuel m. exact (H fuel m).
  - intros fuel m i j rt k evs Hi Hj.
    destruct (H fuel m) as (before & after & E & Fb & Fa).
    subst evs. rewrite E, skipn_app, skipn_all, Nat.sub_diag in Hi, Hj.
    cbn [skipn app] in Hi, Hj.
    rewrite forallb_forall in Fb, Fa.
    destruct (Nat.lt_ge_cases i (List.length before)) as [Hib | Hib].
    + destruct (Nat.lt_ge_cases j (List.length before)) as [Hjb | Hjb]; [|lia].
      rewrite nth_error_app1 in Hj by assumption.
      apply nth_error_In, Fb in Hj. discriminate.
    + rewrite nth_error_app2 in Hi by assumption.
      apply nth_error_In, Fa in Hi. discriminate.
Qed.

End RenderFacts.

(* ------------------------------------------------------------------ *)
(** ** The progress report *)

Lemma count_done_spec (n : nat) (table : list bool) (acc : Z) :
  0 <= acc -> acc + Z.of_nat n < 2 ^ 32 ->
  count_done n table acc = acc + done_among n table.
Proof.
  unfold done_among. revert table acc.
  induction n as [|n IH]; intros table acc Hacc Hn.
  - cbn. lia.
  - destruct table as [|b rest]; cbn [count_done firstn].
    + rewrite IH by lia. now rewrite firstn_nil.
    + assert (Hle : Z.of_nat (List.length (filter (fun b => b) (firstn n rest))) <= Z.of_nat n).
      { pose proof (filter_length_le (fun b : bool => b) (firstn n rest)).
        pose proof (firstn_le_length n rest). lia. }
      rewrite IH.
      * unfold u32. rewrite Z.mod_small by (destruct b; lia).
        destruct b; cbn [filter List.length]; lia.
      * unfold u32. rewrite Z.mod_small by (destruct b; lia). destruct b; lia.
      * unfold u32. rewrite Z.mod_small by (destruct b; lia). destruct b; lia.
Qed.

Lemma progress_of_none (N : Z) : 0 < N < 2 ^ 24 -> progress_of 0 N = 0.
Proof.
  intros HN. destruct N as [|n|n]; try lia.
  destruct (of_Z_normal n) as (m & e & E & _); [lia|].
  unfold progress_of, F32.div, F32.of_Z, F32.prec, F32.emax. rewrite E. reflexivity.
Qed.

Lemma progress_of_all (N : Z) : 0 < N < 2 ^ 24 -> progress_of N N = 100.
Proof.
  intros HN. destruct N as [|n|n]; try lia.
  destruct (of_Z_normal n) as (m & e & E & _ & Hd & He); [lia|].
  unfold progress_of, F32.div, F32.of_Z, F32.prec, F32.emax. rewrite E.
  unfold SFdiv. rewrite div_core by assumption. cbv iota beta.
  pose proof (digits2_bounds m) as B.
  rewrite (Z.mul_comm (Zpos m) (2 ^ 24)), Z.div_mul, Z.mod_mul by lia.
  replace (e - e - 24) with (-24) by lia.
  assert (L : new_location (Zpos m) 0 = loc_Exact) by (apply new_location_exact; reflexivity).
  rewrite L. vm_compute. reflexivity.
Qed.

Lemma progress_check_spec (n : nat) (k N : Z) :
  progress_check n = true ->
  0 <= k <= N -> 0 < N <= Z.of_nat n ->
  100 * k / N - 1 <= progress_of k N <= 100 * k / N.
Proof.
  intros Hc Hk HN. unfold progress_check in Hc.
  rewrite forallb_forall in Hc.
  specialize (Hc (Z.to_nat N)). rewrite in_seq in Hc.
  specialize (Hc ltac:(lia)). rewrite forallb_forall in Hc.
  specialize (Hc (Z.to_nat k)). rewrite in_seq in Hc.
  specialize (Hc ltac:(lia)). rewrite !Z2Nat.id in Hc by lia.
  unfold progress_near_floor in Hc. apply andb_true_iff in Hc.
  rewrite !Z.leb_le in Hc. exact Hc.
Qed.

Lemma progress_checked : progress_check 256 = true.
Proof. vm_compute. reflexivity. Qed.

(** C6 (as amended).  In Blender mode with the progress pointer set, the
    report stores in the shared progress byte the value
    [(unsigned)((float)k / (float)N * 100)], where [k] counts the entries set
    among the first [N] of the completion table; otherwise it stores nothing.
    The value is computed in single precision: it is 0 for [k = 0], 100 for
    [k = N], and, for up to 256 tasks, [floor(100 k / N)] or one less (52 for
    53 of 100 tasks). *)
Theorem outputProgress_reports_float_percentage :
  (forall (m : machine) (p : Z),
     m_pProgress (sys m) = Some p ->
     _outputProgress true m
     = Next tt (mkMachine (sys m) (task_queue m)
                  (store_byte p
                     (progress_of
                        (count_done (Z.to_nat (m_totalTask (sys m))) (m_taskDone (sys m)) 0)
                        (m_totalTask (sys m)))
                     (shared m))
                  (trace m ++ [E_cout_endl])))
  /\ (forall (blender : bool) (m : machine),
        blender = false \/ m_pProgress (sys m) = None ->
        shared (final (_outputProgress blender m)) = shared m)
  /\ (forall (N : Z) (table : list bool),
        0 <= N < 2 ^ 32 -> count_done (Z.to_nat N) table 0 = done_among (Z.to_nat N) table)
  /\ (forall N, 0 < N < 2 ^ 24 -> progress_of 0 N = 0 /\ progress_of N N = 100)
  /\ (forall k N, 0 <= k <= N -> 0 < N <= 256 ->
        100 * k / N - 1 <= progress_of k N <= 100 * k / N)
  /\ progress_of 53 100 = 52.
Proof.
  split; [|split; [|split; [|split; [|split]]]].
  - intros m p Hp. unfold _outputProgress, bind, get_sys. cbn [negb].
    rewrite Hp. reflexivity.
  - intros blender m [-> | Hp].
    + reflexivity.
    + unfold _outputProgress, bind, get_sys. rewrite Hp. destruct blender; reflexivity.
  - intros N table HN. rewrite count_done_spec by lia. lia.
  - intros N HN. split; [apply progress_of_none | apply progress_of_all]; assumption.
  - intros k N Hk HN. apply (progress_check_spec 256); [apply progress_checked | lia | lia].
  - vm_compute. reflexivity.
Qed.

(** A report of 30 of 60 tasks in Blender mode stores 50. *)
Lemma outputProgress_reports_float_percentage_witness :
  100 * 30 / 60 - 1 <= progress_of 30 60 <= 100 * 30 / 60.
Proof.
  apply (proj1 (proj2 (proj2 (proj2 (proj2 outputProgress_reports_float_percentage)))) 30 60);
    lia.
Defined.

(** C6, the claim as stated, fails: with 53 of 100 tasks done the byte
    written in Blender mode is 52, not [floor(100 * 53 / 100) = 53]. *)
Lemma outputProgress_53_of_100 :
  let table := repeat true 53 ++ repeat false 47 in
  let s := set_m_pProgress (Some 0) (set_tasks 100 table _preInit) in
  let m := mkMachine s [] (mkSharedMemory (Some (fun _ => 0)) 2) [] in
  done_among 100 table = 53 /\
  100 * 53 / 100 = 53 /\
  exists mem,
    sm_bytes (shared (final (_outputProgress true m))) = Some mem /\ mem 0 = 52.
Proof.
  cbv zeta. split; [vm_compute; reflexivity|]. split; [reflexivity|].
  eexists. split; [vm_compute; reflexivity|]. reflexivity.
Qed.

(* ------------------------------------------------------------------ *)
(** ** [Setup] *)

Section SetupFacts.

Variable g_bBlenderMode : bool.
Variable g_iTileSize : Z.
Variable camera_registered : string -> bool.
Variable sampler_registered : string -> bool.
Variable RoundSize : Sampler -> Z -> Z.

Lemma untouched_update {R : Type} (f : System -> System) :
  (forall s, m_camera (f s) = m_camera s /\ m_pProgress (f s) = m_pProgress s /\
             (m_imagesensor s <> None -> m_imagesensor (f s) <> None)) ->
  keeps untouched (@update R f).
Proof. intros Hf m. unfold untouched. cbn. apply Hf. Qed.

Lemma untouched_update_sensor {R : Type} (f : ImageSensor -> ImageSensor) :
  keeps untouched (@update_sensor R f).
Proof.
  unfold update_sensor.
  keeps_by untouched_refl untouched_trans
    ltac:(apply untouched_update; intros s; cbn; repeat split; congruence).
Qed.

Ltac untouched_steps :=
  first [ apply untouched_emit_event
        | apply untouched_update_sensor
        | apply untouched_update; intros ?; cbn; repeat split; congruence ].

Lemma integrator_properties_untouched (props : list TiXmlElement) :
  keeps untouched (integrator_properties props).
Proof.
  induction props as [|prop rest IH]; cbn [integrator_properties].
  - apply keeps_ret, untouched_refl.
  - keeps_by untouched_refl untouched_trans ltac:(first [exact IH | untouched_steps]).
Qed.

Lemma setup_scene_untouched root : keeps untouched (setup_scene root).
Proof.
  unfold setup_scene. keeps_by untouched_refl untouched_trans untouched_steps.
Qed.

Lemma setup_integrator_untouched root : keeps untouched (setup_integrator root).
Proof.
  unfold setup_integrator.
  keeps_by untouched_refl untouched_trans
    ltac:(first [apply integrator_properties_untouched | untouched_steps]).
Qed.

Lemma setup_target_untouched root : keeps untouched (setup_target root).
Proof.
  unfold setup_target. keeps_by untouched_refl untouched_trans untouched_steps.
Qed.

Lemma setup_sampler_untouched root :
  keeps untouched (setup_sampler sampler_registered RoundSize root).
Proof.
  unfold setup_sampler. keeps_by untouched_refl untouched_trans untouched_steps.
Qed.

Lemma setup_output_untouched root : keeps untouched (setup_output root).
Proof.
  unfold setup_output. keeps_by untouched_refl untouched_trans untouched_steps.
Qed.

Lemma setup_threads_untouched root : keeps untouched (setup_threads root).
Proof.
  unfold setup_threads. keeps_by untouched_refl untouched_trans untouched_steps.
Qed.

Lemma setup_camera_sensor_untouched : keeps untouched setup_camera_sensor.
Proof.
  unfold setup_camera_sensor. keeps_by untouched_refl untouched_trans untouched_steps.
Qed.

(** *** The progress pointer *)

Lemma keeps_weaken {R A : Type} (I J : machine -> machine -> Prop) (c : code R A) :
  (forall a b, I a b -> J a b) -> keeps I c -> keeps J c.
Proof. intros HIJ Hc m. apply HIJ, Hc. Qed.

Lemma same_progress_refl (m : machine) : same_progress m m.
Proof. reflexivity. Qed.

Lemma same_progress_trans (a b c : machine) :
  same_progress a b -> same_progress b c -> same_progress a c.
Proof. unfold same_progress. congruence. Qed.

Lemma untouched_same_progress (a b : machine) : untouched a b -> same_progress a b.
Proof. intros H. apply H. Qed.

Lemma setup_camera_same_progress root :
  keeps same_progress (setup_camera camera_registered root).
Proof.
  unfold setup_camera.
  keeps_by same_progress_refl same_progress_trans
    ltac:(idtac; match goal with |- keeps _ (update _) => intros ?; reflexivity end).
Qed.

Lemma setup_prefix_same_progress root :
  keeps same_progress
    (setup_elements g_bBlenderMode camera_registered sampler_registered RoundSize root ;;
     setup_camera_sensor).
Proof.
  unfold setup_elements.
  keeps_by same_progress_refl same_progress_trans
    ltac:(first
      [ apply setup_camera_same_progress
      | apply (keeps_weaken untouched same_progress _ untouched_same_progress);
        first [ apply setup_scene_untouched | apply setup_integrator_untouched
              | apply setup_target_untouched | apply setup_sampler_untouched
              | apply setup_output_untouched | apply setup_threads_untouched
              | apply setup_camera_sensor_untouched ]
      | match goal with |- keeps _ (update _) => intros ?; reflexivity end ]).
Qed.

(** *** Runs that fall through *)

Lemma bind_next {R A B : Type} (c : code R A) (k : A -> code R B) (m m' : machine) (a : A) :
  c m = Next a m' -> bind c k m = k a m'.
Proof. intros E. unfold bind. now rewrite E. Qed.

Lemma next_untouched {R : Type} (c : code R unit) (m : machine) :
  keeps untouched c -> (exists m', c m = Next tt m') ->
  exists m', c m = Next tt m' /\ untouched m m'.
Proof.
  intros Hc (m' & E). exists m'. split; [assumption|].
  specialize (Hc m). now rewrite E in Hc.
Qed.

Lemma update_sensor_next {R : Type} (f : ImageSensor -> ImageSensor) (m : machine) :
  m_imagesensor (sys m) <> None -> exists m', @update_sensor R f m = Next tt m'.
Proof.
  intros Hs. unfold update_sensor, bind, get_sys.
  destruct (m_imagesensor (sys m)) as [sensor|]; [|congruence].
  cbn. eexists. reflexivity.
Qed.

Lemma integrator_properties_next (props : list TiXmlElement) (m : machine) :
  Forall (fun p => Attribute "name" p <> None /\ Attribute "value" p <> None) props ->
  exists m', integrator_properties props m = Next tt m'.
Proof.
  intros Hp. revert m. induction Hp as [|prop rest [Hn Hv] _ IH]; intros m.
  - eexists. reflexivity.
  - cbn [integrator_properties].
    destruct (Attribute "name" prop) as [name|]; [|congruence].
    destruct (Attribute "value" prop) as [value|]; [|congruence].
    apply IH.
Qed.

Section ReadsSucceed.

Variable root : TiXmlElement.
Hypothesis reads : reads_succeed sampler_registered root.

Lemma setup_scene_next (m : machine) : exists m', setup_scene root m = Next tt m'.
Proof.
  destruct reads as ((e & v & Ee & Ev) & _).
  unfold setup_scene. rewrite Ee, Ev. eexists. reflexivity.
Qed.

Lemma setup_integrator_next (m : machine) : exists m', setup_integrator root m = Next tt m'.
Proof.
  destruct reads as (_ & (e & t & Ee & Et & Hp) & _).
  unfold setup_integrator. rewrite Ee, Et.
  apply (integrator_properties_next _ _ Hp).
Qed.

Lemma setup_target_next (m : machine) :
  m_imagesensor (sys m) <> None -> exists m', setup_target root m = Next tt m'.
Proof.
  intros Hs. destruct reads as (_ & _ & Ht & _).
  unfold setup_target. destruct (FirstChildElement "RenderTargetSize" root) as [e|].
  - destruct (Ht e eq_refl) as [Hw Hh].
    destruct (Attribute "w" e) as [w|]; [|congruence].
    destruct (Attribute "h" e) as [h|]; [|congruence].
    apply (update_sensor_next _ _ Hs).
  - apply (update_sensor_next _ _ Hs).
Qed.

Lemma setup_sampler_next (m : machine) :
  exists m', setup_sampler sampler_registered RoundSize root m = Next tt m'.
Proof.
  destruct reads as (_ & _ & _ & Hs & _).
  unfold setup_sampler. destruct (FirstChildElement "Sampler" root) as [e|].
  - destruct (Hs e eq_refl) as (r & t & Er & Et & Hreg).
    rewrite Er, Et. unfold bind. cbn. rewrite Hreg. cbn. eexists. reflexivity.
  - eexists. reflexivity.
Qed.

Lemma setup_output_next (m : machine) :
  m_imagesensor (sys m) <> None -> exists m', setup_output root m = Next tt m'.
Proof.
  intros Hs. destruct reads as (_ & _ & _ & _ & Ho & _).
  unfold setup_output. destruct (FirstChildElement "OutputFile" root) as [e|].
  - specialize (Ho e eq_refl).
    destruct (Attribute "name" e) as [name|]; [|congruence].
    apply (update_sensor_next _ _ Hs).
  - eexists. reflexivity.
Qed.

Lemma setup_threads_next (m : machine) : exists m', setup_threads root m = Next tt m'.
Proof.
  destruct reads as (_ & _ & _ & _ & _ & Ht).
  unfold setup_threads. destruct (FirstChildElement "ThreadNum" root) as [e|].
  - specialize (Ht e eq_refl).
    destruct (Attribute "name" e) as [name|]; [|congruence].
    eexists. reflexivity.
  - eexists. reflexivity.
Qed.

(** Without a [Camera] element the elements are all read, and [m_camera]
    is what it was. *)
Lemma setup_elements_next (m : machine) :
  FirstChildElement "Camera" root = None ->
  exists m',
    setup_elements g_bBlenderMode camera_registered sampler_registered RoundSize root m
    = Next tt m' /\ m_camera (sys m') = m_camera (sys m).
Proof.
  intros Hc. unfold setup_elements.
  remember (mkMachine (set_m_imagesensor (Some (mkImageSensor g_bBlenderMode 0 0 [])) (sys m))
                      (task_queue m) (shared m) (trace m)) as m0 eqn:Em0.
  assert (E0 : @update bool (set_m_imagesensor (Some (mkImageSensor g_bBlenderMode 0 0 []))) m
               = Next tt m0) by (subst m0; reflexivity).
  assert (U0 : m_camera (sys m0) = m_camera (sys m) /\ m_imagesensor (sys m0) <> None)
    by (subst m0; cbn; split; congruence).
  rewrite (bind_next _ _ _ _ _ E0).
  destruct (next_untouched _ m0 (setup_scene_untouched root) (setup_scene_next m0))
    as (m1 & E1 & U1).
  rewrite (bind_next _ _ _ _ _ E1).
  destruct (next_untouched _ m1 (setup_integrator_untouched root) (setup_integrator_next m1))
    as (m2 & E2 & U2).
  rewrite (bind_next _ _ _ _ _ E2).
  pose proof (untouched_trans _ _ _ U1 U2) as U12.
  destruct (next_untouched _ m2 (setup_target_untouched root)
              (setup_target_next m2 ltac:(apply U12, U0))) as (m3 & E3 & U3).
  rewrite (bind_next _ _ _ _ _ E3).
  pose proof (untouched_trans _ _ _ U12 U3) as U13.
  destruct (next_untouched _ m3 (setup_sampler_untouched root) (setup_sampler_next m3))
    as (m4 & E4 & U4).
  rewrite (bind_next _ _ _ _ _ E4).
  pose proof (untouched_trans _ _ _ U13 U4) as U14.
  assert (E5 : setup_camera camera_registered root m4 = Next tt m4)
    by (unfold setup_camera; now rewrite Hc).
  rewrite (bind_next _ _ _ _ _ E5).
  destruct (next_untouched _ m4 (setup_output_untouched root)
              (setup_output_next m4 ltac:(apply U14, U0))) as (m6 & E6 & U6).
  rewrite (bind_next _ _ _ _ _ E6).
  pose proof (untouched_trans _ _ _ U14 U6) as U16.
  destruct (next_untouched _ m6 (setup_threads_untouched root) (setup_threads_next m6))
    as (m7 & E7 & U7).
  exists m7. split; [assumption|].
  pose proof (untouched_trans _ _ _ U16 U7) as U17.
  destruct U17 as (Ec & _). destruct U0 as (Ec0 & _). congruence.
Qed.

End ReadsSucceed.

(** *** The sampler round *)







(** *** The camera *)

(** C9, amended. The null-camera guard of [Setup] covers only a camera that
    could not be created: when the file has no [Camera] element, its [Scene]
    element has a [value], it has an [Integrator] element, the attributes
    read on the way are there and [m_camera] is null at the call, [Setup]
    does not return and dereferences the null [m_camera] at line 400. *)
Theorem Setup_without_camera_dereferences_null
    (CreateSharedMemory : string -> Z -> SharedMemory) (root : TiXmlElement) (m : machine) :
  m_camera (sys m) = None ->
  FirstChildElement "Camera" root = None ->
  reads_succeed sampler_registered root ->
  exists m',
    Setup g_bBlenderMode g_iTileSize camera_registered sampler_registered RoundSize
          CreateSharedMemory root m
    = Fault (NullDereference "m_camera") m' /\
    m_camera (sys m') = None.
Proof.
  intros Hnull Hc Hr.
  destruct (setup_elements_next root Hr m Hc) as (m1 & E1 & C1).
  exists m1. unfold Setup. rewrite (bind_next _ _ _ _ _ E1).
  unfold setup_camera_sensor, bind, get_sys. rewrite C1, Hnull. cbn.
  split; [reflexivity | congruence].
Qed.

(** *** The shared region *)

Lemma shared_size_exact (w h : Z) :
  0 < w < 2 ^ 24 -> 0 < h < 2 ^ 24 -> 0 < g_iTileSize < 2 ^ 24 ->
  region_size w h g_iTileSize < 2 ^ 31 ->
  header_size_of g_iTileSize w h = cdiv w g_iTileSize * cdiv h g_iTileSize /\
  shared_size_of g_iTileSize w h = region_size w h g_iTileSize.
Proof.
  intros Hw Hh Ht Hr. unfold shared_size_of, header_size_of.
  rewrite !ceil_div_float_exact by assumption.
  split; [reflexivity|].
  pose proof (cdiv_spec w g_iTileSize ltac:(lia) ltac:(lia)) as (_ & Hx).
  pose proof (cdiv_spec h g_iTileSize ltac:(lia) ltac:(lia)) as (_ & Hy).
  unfold region_size in *.
  remember (cdiv w g_iTileSize * cdiv h g_iTileSize) as n eqn:En.
  assert (Hn : 1 <= n) by nia.
  assert (Hp : 0 <= n * g_iTileSize * g_iTileSize * 4 * 4 * 2) by nia.
  replace (n * g_iTileSize * g_iTileSize * 4 * 4 * 2 + n + 2)
    with (n + n * g_iTileSize * g_iTileSize * 4 * 4 * 2 + 2) by ring.
  remember (n + n * g_iTileSize * g_iTileSize * 4 * 4 * 2 + 2) as size eqn:Es.
  change (2 ^ 31) with 2147483648 in *.
  unfold s32. change (2 ^ 64) with 18446744073709551616.
  change (2 ^ 32) with 4294967296. change (2 ^ 31) with 2147483648.
  rewrite (Z.mod_small size) by lia. rewrite Z.mod_small by lia. lia.
Qed.

(** A region below [2 ^ 31] bytes has tiles with an edge below [2 ^ 24]. *)
Lemma shared_size_fits (w h : Z) :
  0 < w < 2 ^ 24 -> 0 < h < 2 ^ 24 -> 0 < g_iTileSize ->
  region_size w h g_iTileSize < 2 ^ 31 ->
  header_size_of g_iTileSize w h = cdiv w g_iTileSize * cdiv h g_iTileSize /\
  shared_size_of g_iTileSize w h = region_size w h g_iTileSize.
Proof.
  intros Hw Hh Ht Hr. apply shared_size_exact; try assumption.
  split; [assumption|].
  pose proof (cdiv_spec w g_iTileSize ltac:(lia) ltac:(lia)) as (_ & Hx).
  pose proof (cdiv_spec h g_iTileSize ltac:(lia) ltac:(lia)) as (_ & Hy).
  unfold region_size in Hr.
  remember (cdiv w g_iTileSize * cdiv h g_iTileSize) as n eqn:En.
  assert (Hn : 1 <= n) by nia.
  change (2 ^ 31) with 2147483648 in Hr. change (2 ^ 24) with 16777216.
  destruct (Z_lt_le_dec g_iTileSize 16777216) as [|Hbig]; [assumption|exfalso].
  assert (16777216 * 16777216 <= g_iTileSize * g_iTileSize) by nia.
  assert (g_iTileSize * g_iTileSize <= n * (g_iTileSize * g_iTileSize)) by nia.
  lia.
Qed.

(** C5. Once the elements of the file are read and the camera is set up,
    [Setup] asks for a shared region of exactly one header byte per tile,
    plus [tiles * T * T * 4 * sizeof(float) * 2] bytes of pixels, plus 2
    bytes, and returns [true]; when the region is there, every byte of it is
    zero afterwards and the progress pointer is at offset [size - 2], the
    second-to-last byte.  This holds for every image below 2^24 pixels a
    side whose region has fewer than 2^31 bytes, the sizes the [int] of
    line 409 holds.  For 1920 by 1080 and tiles of 32 the header has 2040
    bytes and the region 2040 + 2040*32*32*4*4*2 + 2. *)
Theorem Setup_shared_memory_layout :
  (forall (CreateSharedMemory : string -> Z -> SharedMemory) root m m1 sensor,
     (setup_elements g_bBlenderMode camera_registered sampler_registered RoundSize root ;;
      setup_camera_sensor) m = Next tt m1 ->
     m_imagesensor (sys m1) = Some sensor ->
     0 < sensor_width sensor < 2 ^ 24 ->
     0 < sensor_height sensor < 2 ^ 24 ->
     0 < g_iTileSize ->
     region_size (sensor_width sensor) (sensor_height sensor) g_iTileSize < 2 ^ 31 ->
     let size := region_size (sensor_width sensor) (sensor_height sensor) g_iTileSize in
     let sm := CreateSharedMemory "SORTBLEND_SHAREMEM"%string size in
     exists m',
       Setup g_bBlenderMode g_iTileSize camera_registered sampler_registered RoundSize
             CreateSharedMemory root m = Return true m' /\
       trace m' = trace m1 ++ [E_CreateSharedMemory "SORTBLEND_SHAREMEM" size] /\
       (forall bytes, sm_bytes sm = Some bytes ->
          m_pProgress (sys m') = Some (sm_size sm - 2) /\
          sm_size (shared m') = sm_size sm /\
          exists zeroed,
            sm_bytes (shared m') = Some zeroed /\
            forall a, 0 <= a < sm_size sm -> zeroed a = 0))
  /\ header_size_of 32 1920 1080 = 2040
  /\ shared_size_of 32 1920 1080 = 2040 + 2040 * 32 * 32 * 4 * 4 * 2 + 2.
Proof.
  split; [|split; vm_compute; reflexivity].
  intros CreateSharedMemory root m m1 sensor E1 Es Hw Hh Ht Hr size sm.
  destruct (shared_size_fits _ _ Hw Hh Ht Hr) as (_ & Esize).
  unfold Setup. rewrite <- bind_assoc. rewrite (bind_next _ _ _ _ _ E1).
  unfold setup_shared_memory, bind, get_sys. rewrite Es. cbn [deref ret emit_event].
  rewrite Esize. fold size. fold sm.
  destruct (sm_bytes sm) as [bytes|] eqn:Eb.
  - eexists. split; [reflexivity|]. cbn. split; [reflexivity|].
    intros bytes' _. split; [reflexivity|].
    unfold memset_zero. rewrite Eb. cbn. split; [reflexivity|].
    eexists. split; [reflexivity|].
    intros a Ha. cbn.
    destruct (Z.leb_spec 0 a); [|lia]. destruct (Z.ltb_spec a (sm_size sm)); [|lia].
    reflexivity.
  - eexists. split; [reflexivity|]. cbn. split; [reflexivity|].
    intros bytes' Hb. discriminate.
Qed.

(** C7, amended. When the shared region cannot be created [Setup] still
    returns [true] wherever it returns [true] otherwise, with the same calls
    made and the same members but for the progress pointer, which stays what
    it was; and a progress report with a null progress pointer writes
    nothing to the shared region and prints the percentage to the console
    when the program is not in Blender mode, and only the end of line when
    it is. *)
Theorem Setup_without_shared_memory :
  (forall (failing CreateSharedMemory : string -> Z -> SharedMemory) root m m',
     (forall name size, sm_bytes (failing name size) = None) ->
     Setup g_bBlenderMode g_iTileSize camera_registered sampler_registered RoundSize
           CreateSharedMemory root m = Return true m' ->
     exists m'',
       Setup g_bBlenderMode g_iTileSize camera_registered sampler_registered RoundSize
             failing root m = Return true m'' /\
       sys m'' = set_m_pProgress (m_pProgress (sys m)) (sys m') /\
       trace m'' = trace m')
  /\ (forall m,
        m_pProgress (sys m) = None ->
        let progress :=
          progress_of (count_done (Z.to_nat (m_totalTask (sys m))) (m_taskDone (sys m)) 0)
                      (m_totalTask (sys m)) in
        _outputProgress g_bBlenderMode m
        = Next tt (mkMachine (sys m) (task_queue m) (shared m)
                     (trace m
                      ++ (if g_bBlenderMode then []
                          else [E_cout_unsigned progress; E_cout_string progress_label])
                      ++ [E_cout_endl]))).
Proof.
  split.
  - intros failing CreateSharedMemory root m m' Hfail Hret.
    pose proof (setup_prefix_same_progress root m) as Hp.
    unfold Setup in *. rewrite <- bind_assoc in *.
    unfold bind at 1. unfold bind at 1 in Hret.
    destruct ((setup_elements g_bBlenderMode camera_registered sampler_registered
                 RoundSize root ;; setup_camera_sensor) m) as [[] m1 | r m1 | f m1];
      cbn [final] in Hp; [| | discriminate].
    + unfold setup_shared_memory, bind, get_sys in *.
      destruct (m_imagesensor (sys m1)) as [sensor|]; [|discriminate].
      cbn [deref ret emit_event] in *. rewrite Hfail. cbn.
      eexists. split; [reflexivity|]. cbn.
      destruct (sm_bytes (CreateSharedMemory _ _)); cbn in Hret;
        injection Hret as <-; cbn; rewrite <- Hp; destruct (sys m1); split; reflexivity.
    + injection Hret as -> <-. exists m1. split; [reflexivity|]. split; [|reflexivity].
      rewrite <- Hp. destruct (sys m1); reflexivity.
  - intros m Hnull progress. unfold _outputProgress, bind, get_sys. fold progress.
    rewrite Hnull. destruct g_bBlenderMode; unfold emit_event; cbn;
      repeat rewrite <- app_assoc; reflexivity.
Qed.

End SetupFacts.

(* ------------------------------------------------------------------ *)
(** ** Sample runs of [Setup] and [Render] *)


Lemma reads_succeed_scene_without_camera :
  reads_succeed Sample.registered Sample.scene_without_camera.
Proof.
  unfold reads_succeed. repeat apply conj.
  - do 2 eexists. split; reflexivity.
  - do 2 eexists. split; [reflexivity|]. split; [reflexivity|].
    cbn. repeat constructor; discriminate.
  - intros e E. cbn in E. injection E as <-. split; discriminate.
  - intros e E. cbn in E. injection E as <-. do 2 eexists. repeat split; reflexivity.
  - intros e E. discriminate.
  - intros e E. discriminate.
Defined.

Lemma Setup_without_camera_dereferences_null_witness :
  exists m',
    Setup false 32 Sample.registered Sample.registered Sample.RoundSize Sample.dirty_region
          Sample.scene_without_camera Sample.constructed
    = Fault (NullDereference "m_camera") m' /\
    m_camera (sys m') = None.
Proof.
  apply (Setup_without_camera_dereferences_null false 32 Sample.registered Sample.registered
           Sample.RoundSize Sample.dirty_region Sample.scene_without_camera
           Sample.constructed).
  - reflexivity.
  - reflexivity.
  - exact reads_succeed_scene_without_camera.
Defined.

(** C9, as written, fails: a file with a [Scene] element that has no
    [value], an [Integrator] element and no [Camera] element makes [Setup]
    return [false] at line 310, before line 400. *)
Lemma Setup_returns_false_without_scene_value :
  FirstChildElement "Scene" Sample.scene_without_value <> None /\
  FirstChildElement "Integrator" Sample.scene_without_value <> None /\
  FirstChildElement "Camera" Sample.scene_without_value = None /\
  Setup false 32 Sample.registered Sample.registered Sample.RoundSize Sample.dirty_region
        Sample.scene_without_value Sample.constructed
  = Return false
      (mkMachine (set_m_imagesensor (Some (mkImageSensor false 0 0 [])) _preInit)
                 [] (mkSharedMemory None 0) []).
Proof.
  split; [discriminate|]. split; [discriminate|].
  split; vm_compute; reflexivity.
Qed.

Lemma prefix_full_scene :
  (setup_elements true Sample.registered Sample.registered Sample.RoundSize Sample.full_scene ;;
   setup_camera_sensor) Sample.constructed
  = Next tt Sample.after_elements.
Proof. vm_compute. reflexivity. Qed.

Lemma region_size_sample : region_size 1920 1080 32 = 66848762.
Proof. vm_compute. reflexivity. Qed.

Lemma Setup_shared_memory_layout_witness :
  exists m',
    Setup true 32 Sample.registered Sample.registered Sample.RoundSize Sample.dirty_region
          Sample.full_scene Sample.constructed = Return true m' /\
    trace m' = trace Sample.after_elements
               ++ [E_CreateSharedMemory "SORTBLEND_SHAREMEM" 66848762] /\
    m_pProgress (sys m') = Some 66848760 /\
    exists zeroed,
      sm_bytes (shared m') = Some zeroed /\ zeroed 0 = 0 /\ zeroed 66848761 = 0.
Proof.
  destruct (proj1 (Setup_shared_memory_layout true 32 Sample.registered Sample.registered
                     Sample.RoundSize)
              Sample.dirty_region Sample.full_scene Sample.constructed Sample.after_elements
              (mkImageSensor true 1920 1080 [("filename", "result.bmp")]%string))
    as (m' & E & Et & Hb).
  - exact prefix_full_scene.
  - vm_compute. reflexivity.
  - vm_compute. split; reflexivity.
  - vm_compute. split; reflexivity.
  - reflexivity.
  - vm_compute. reflexivity.
  - cbn [sensor_width sensor_height] in Et, Hb.
    rewrite region_size_sample in Et, Hb.
    exists m'. split; [exact E|]. split; [exact Et|].
    destruct (Hb (fun _ => 255) eq_refl) as (Ep & _ & zeroed & Ez & Hz).
    split; [exact Ep|]. exists zeroed. split; [exact Ez|].
    split; apply Hz; vm_compute; split; congruence.
Defined.

(** C5 fails where the size does not fit the [int] of line 409: for an
    8192 by 8192 image and tiles of 32 the header has 65536 bytes and a
    region of the size of the claim has 2147549186; the value of [size]
    wraps, and [Setup] asks for a region of -2147418110 bytes and returns
    [true]. *)
Lemma Setup_shared_memory_size_wraps :
  header_size_of 32 8192 8192 = 65536 /\
  region_size 8192 8192 32 = 65536 + 65536 * 32 * 32 * 4 * 4 * 2 + 2 /\
  region_size 8192 8192 32 = 2147549186 /\
  shared_size_of 32 8192 8192 = -2147418110 /\
  exists m',
    Setup true 32 Sample.registered Sample.registered Sample.RoundSize Sample.no_region
          Files.large_target Sample.constructed = Return true m' /\
    sensor_size (sys m') = Some (8192, 8192) /\
    last (trace m') E_cout_endl = E_CreateSharedMemory "SORTBLEND_SHAREMEM" (-2147418110).
Proof.
  repeat (split; [vm_compute; reflexivity|]).
  eexists. split; [vm_compute; reflexivity|].
  split; vm_compute; reflexivity.
Qed.

Lemma Setup_full_scene :
  exists m',
    Setup true 32 Sample.registered Sample.registered Sample.RoundSize Sample.dirty_region
          Sample.full_scene Sample.constructed = Return true m'.
Proof.
  unfold Setup. rewrite <- bind_assoc. rewrite (bind_next _ _ _ _ _ prefix_full_scene).
  unfold setup_shared_memory, bind, get_sys.
  replace (m_imagesensor (sys Sample.after_elements))
    with (Some (mkImageSensor true 1920 1080 [("filename", "result.bmp")]%string))
    by (vm_compute; reflexivity).
  cbn [deref ret emit_event Sample.dirty_region sm_bytes]. eexists. reflexivity.
Qed.

Lemma Setup_without_shared_memory_witness :
  exists m' m'',
    Setup true 32 Sample.registered Sample.registered Sample.RoundSize Sample.dirty_region
          Sample.full_scene Sample.constructed = Return true m' /\
    Setup true 32 Sample.registered Sample.registered Sample.RoundSize Sample.no_region
          Sample.full_scene Sample.constructed = Return true m'' /\
    sys m'' = set_m_pProgress None (sys m') /\
    trace m'' = trace m'.
Proof.
  destruct Setup_full_scene as (m' & E).
  destruct (proj1 (Setup_without_shared_memory true 32 Sample.registered Sample.registered
                     Sample.RoundSize)
              Sample.no_region Sample.dirty_region Sample.full_scene Sample.constructed
              m' (fun name size => eq_refl) E) as (m'' & E' & Es & Et).
  exists m', m''. repeat apply conj; assumption.
Defined.

(** C7, as written, fails in Blender mode: after a [Setup] whose shared
    region could not be created, a progress report with two tasks of four
    done prints the end of line and nothing else; the percentage reaches
    neither the console nor the shared region. *)
Lemma outputProgress_silent_without_region :
  Setup true 32 Sample.registered Sample.registered Sample.RoundSize Sample.no_region
        Sample.full_scene Sample.constructed
  = Return true Sample.set_up_without_region /\
  m_pProgress (sys Sample.set_up_without_region) = None /\
  progress_of 2 4 = 50 /\
  _outputProgress true (Sample.half_done Sample.set_up_without_region)
  = Next tt (mkMachine (sys (Sample.half_done Sample.set_up_without_region))
               [] (mkSharedMemory None 0)
               (trace Sample.set_up_without_region ++ [E_cout_endl])).
Proof.
  split; [vm_compute; reflexivity|].
  split; [vm_compute; reflexivity|].
  split; vm_compute; reflexivity.
Qed.

(** *** [Render] without a sensor or a camera *)

(** C2, against the code. When the image sensor or the camera is not
    attached, [PreProcess] logs its warning and returns, and [Render] goes
    on with what follows the call: it starts the timer, pushes the render
    tasks and executes them. *)
Theorem Render_continues_after_PreProcess_returns
    (g_bBlenderMode : bool) (g_iTileSize : Z) (integrator_registered : string -> bool)
    (timer_reading : list event -> Z)
    (run_threads : Z -> list RenderTask -> list bool -> list bool)
    (fuel : nat) (m : machine) :
  m_imagesensor (sys m) = None \/ m_camera (sys m) = None ->
  exists warning,
    let m0 := mkMachine (sys m) (task_queue m) (shared m)
                        (trace m ++ [E_StartTimer; E_slog WARNING warning]) in
    PreProcess timer_reading m = Return tt m0 /\
    Render g_bBlenderMode g_iTileSize integrator_registered timer_reading run_threads fuel m
    = (emit_event E_StartTimer ;;
       call tt (_pushRenderTask g_iTileSize fuel) ;;
       call tt (_executeRenderingTasks g_bBlenderMode integrator_registered run_threads) ;;
       emit_event E_StopTimer ;;
       t <- read_timer timer_reading ;;
       update (set_m_uRenderingTime t)) m0.
Proof.
  intros Hnull.
  assert (H : exists warning,
             PreProcess timer_reading m
             = Return tt (mkMachine (sys m) (task_queue m) (shared m)
                            (trace m ++ [E_StartTimer; E_slog WARNING warning]))).
  { unfold PreProcess, bind, get_sys, emit_event, return_, ret. cbn.
    destruct (m_imagesensor (sys m)) as [sensor|] eqn:Es.
    - destruct Hnull as [Hnull | Hnull]; [discriminate|]. rewrite Hnull.
      eexists. cbn. rewrite <- app_assoc. reflexivity.
    - eexists. cbn. rewrite <- app_assoc. reflexivity. }
  destruct H as (warning & E). exists warning. cbv zeta. split; [exact E|].
  unfold Render. unfold bind at 1. unfold call at 1. rewrite E. reflexivity.
Qed.

Lemma Render_continues_after_PreProcess_returns_witness :
  exists warning,
    PreProcess Sample.timer_reading Sample.sensor_only
    = Return tt (mkMachine (sys Sample.sensor_only) [] (mkSharedMemory None 0)
                   [E_StartTimer; E_slog WARNING warning]) /\
    Render false 32 Sample.registered Sample.timer_reading Sample.run_threads 16
           Sample.sensor_only
    = (emit_event E_StartTimer ;;
       call tt (_pushRenderTask 32 16) ;;
       call tt (_executeRenderingTasks false Sample.registered Sample.run_threads) ;;
       emit_event E_StopTimer ;;
       t <- read_timer Sample.timer_reading ;;
       update (set_m_uRenderingTime t))
        (mkMachine (sys Sample.sensor_only) [] (mkSharedMemory None 0)
           [E_StartTimer; E_slog WARNING warning]).
Proof.
  exact (Render_continues_after_PreProcess_returns false 32 Sample.registered
           Sample.timer_reading Sample.run_threads 16 Sample.sensor_only
           (or_intror eq_refl)).
Defined.

(** C2, as written, fails: with a 64 by 64 sensor and no camera, [Render]
    logs the warning and then pushes the four tasks, runs a thread and
    reports the progress; with a camera and no sensor it stops at the null
    [m_imagesensor] of line 180. *)
Lemma Render_without_camera_pushes_tasks :
  trace (final (Render false 32 Sample.registered Sample.timer_reading Sample.run_threads 16
                       Sample.sensor_only))
  = [ E_StartTimer;
      E_slog WARNING "There is no camera attached in the system , can't render anything.";
      E_StartTimer;
      E_PushTask (mkRenderTask 0 (Vector2i.mk 32 32) (Vector2i.mk 32 32));
      E_PushTask (mkRenderTask 1 (Vector2i.mk 32 0) (Vector2i.mk 32 32));
      E_PushTask (mkRenderTask 2 (Vector2i.mk 0 0) (Vector2i.mk 32 32));
      E_PushTask (mkRenderTask 3 (Vector2i.mk 0 32) (Vector2i.mk 32 32));
      E_SensorPreProcess; E_IntegratorPreProcess; E_IntegratorSetupCamera;
      E_PreMalloc 67108864 0; E_NewThread 0; E_BeginThread 0; E_Join 0;
      E_cout_unsigned 100; E_cout_string progress_label; E_cout_endl;
      E_SensorPostProcess; E_StopTimer ]
  /\ Render false 32 Sample.registered Sample.timer_reading Sample.run_threads 16
            Sample.camera_only
     = Fault (NullDereference "m_imagesensor")
         (mkMachine (sys Sample.camera_only) [] (mkSharedMemory None 0)
            [ E_StartTimer;
              E_slog WARNING
                "There is no render target in the system, can't render anything.";
              E_StartTimer ]).
Proof. split; vm_compute; reflexivity. Qed.

Lemma Render_pushes_before_threads_witness :
  nth_error (trace (final (Render false 32 Sample.registered Sample.timer_reading
                                  Sample.run_threads 16 Sample.ready))) 5
  = Some (E_PushTask (mkRenderTask 0 (Vector2i.mk 32 32) (Vector2i.mk 32 32))) /\
  nth_error (trace (final (Render false 32 Sample.registered Sample.timer_reading
                                  Sample.run_threads 16 Sample.ready))) 14
  = Some (E_BeginThread 0) /\
  (5 < 14)%nat.
Proof.
  assert (Hi : nth_error (trace (final (Render false 32 Sample.registered Sample.timer_reading
                                  Sample.run_threads 16 Sample.ready))) 5
               = Some (E_PushTask (mkRenderTask 0 (Vector2i.mk 32 32) (Vector2i.mk 32 32))))
    by (vm_compute; reflexivity).
  assert (Hj : nth_error (trace (final (Render false 32 Sample.registered Sample.timer_reading
                                  Sample.run_threads 16 Sample.ready))) 14
               = Some (E_BeginThread 0))
    by (vm_compute; reflexivity).
  split; [exact Hi|]. split; [exact Hj|].
  exact (proj2 (Render_pushes_before_threads false 32 Sample.registered Sample.timer_reading
                  Sample.run_threads)
           16%nat Sample.ready 5%nat 14%nat _ _ Hi Hj).
Defined.

(* ------------------------------------------------------------------ *)
(** ** Further properties of [Render] and its parts *)

Lemma count_done_zeroed (n k : nat) : count_done n (repeat false k) 0 = 0.
Proof.
  revert k. induction n as [|n IH]; intros k; [reflexivity|].
  destruct k as [|k]; cbn [count_done repeat].
  - apply (IH 0%nat).
  - change (u32 (0 + 0)) with 0. apply IH.
Qed.

Lemma PreProcess_next (timer_reading : list event -> Z) (m : machine) :
  m_imagesensor (sys m) <> None -> m_camera (sys m) <> None ->
  let calls := trace m ++ [E_StartTimer; E_ScenePreProcess; E_StopTimer] in
  PreProcess timer_reading m
  = Next tt (mkMachine
               (set_m_uPreProcessingTime (timer_reading calls) (sys m))
               (task_queue m) (shared m)
               (calls ++ [E_slog INFO ("Time spent on preprocessing is "
                                       ++ decimal (timer_reading calls) ++ " ms.")%string])).
Proof.
  intros Hs Hc calls. subst calls.
  unfold PreProcess, bind, get_sys, emit_event, read_timer, update, ret. cbn.
  destruct (m_imagesensor (sys m)); [|congruence].
  destruct (m_camera (sys m)); [|congruence]. cbn.
  rewrite <- !app_assoc. reflexivity.
Qed.

Section PushCode.

Variable g_iTileSize : Z.
Variable m : machine.
Variable sensor : ImageSensor.
Hypothesis sensor_attached : m_imagesensor (sys m) = Some sensor.
Hypothesis width_range : 0 < sensor_width sensor < 2 ^ 24.
Hypothesis height_range : 0 < sensor_height sensor < 2 ^ 24.
Hypothesis tilesize_range : 0 < g_iTileSize < 2 ^ 24.
Hypothesis total_range :
  cdiv (sensor_width sensor) g_iTileSize * cdiv (sensor_height sensor) g_iTileSize < 2 ^ 32.

(** [_pushRenderTask] returns, for every fuel from some fuel on; the tasks
    it pushed are numbered in the order of the pushes. *)
Lemma pushRenderTask_next :
  exists fuel0 q,
    Z.of_nat (List.length q)
    = cdiv (sensor_width sensor) g_iTileSize * cdiv (sensor_height sensor) g_iTileSize /\
    (forall i t, nth_error q i = Some t -> taskId t = Z.of_nat i) /\
    forall fuel, (fuel0 <= fuel)%nat ->
      _pushRenderTask g_iTileSize fuel m
      = Next tt (mkMachine
                   (set_tasks (Z.of_nat (List.length q)) (repeat false (List.length q)) (sys m))
                   (task_queue m ++ q) (shared m) (trace m ++ map E_PushTask q)).
Proof.
  destruct (pushed_tasks _ _ _ width_range height_range tilesize_range total_range)
    as (n & _ & _ & _ & _ & _ & Hlen & Hrun).
  cbv zeta in Hlen, Hrun.
  remember (filter (inside (Vector2i.mk (cdiv (sensor_width sensor) g_iTileSize)
                                        (cdiv (sensor_height sensor) g_iTileSize)))
                   (trail (sensor_width sensor) (sensor_height sensor) g_iTileSize
                          (Vector2i.mk (cdiv (sensor_width sensor) g_iTileSize)
                                       (cdiv (sensor_height sensor) g_iTileSize)) n))
    as cells eqn:Ecells.
  exists (push_fuel (Vector2i.mk (cdiv (sensor_width sensor) g_iTileSize)
                                 (cdiv (sensor_height sensor) g_iTileSize))).
  exists (make_tasks (sensor_width sensor) (sensor_height sensor) g_iTileSize 0 cells).
  assert (Hq : List.length (make_tasks (sensor_width sensor) (sensor_height sensor)
                                       g_iTileSize 0 cells) = List.length cells)
    by apply make_tasks_length.
  split; [rewrite Hq; exact Hlen|]. split.
  - intros i t Hi.
    destruct (queue_task _ _ _ cells i t ltac:(lia) Hi) as (p & _ & ->). reflexivity.
  - intros fuel Hfuel.
    unfold _pushRenderTask, bind, get_sys. rewrite sensor_attached. cbn [deref ret].
    rewrite (u32_small g_iTileSize) by lia.
    rewrite (Hrun fuel Hfuel). cbn [p_totalTask p_taskDone p_queue].
    rewrite Hq, <- Hlen, Nat2Z.id. reflexivity.
Qed.

End PushCode.

Ltac flatten_apps := repeat first [rewrite <- app_assoc | progress cbn [app]].

Lemma thread_ids_nth (n : Z) (i : nat) :
  (i < Z.to_nat n)%nat -> nth_error (thread_ids n) i = Some (Z.of_nat i).
Proof.
  intros Hi. unfold thread_ids.
  rewrite nth_error_map, nth_error_seq.
  destruct (Nat.ltb_spec i (Z.to_nat n)); [reflexivity | lia].
Qed.

Lemma thread_ids_length (n : Z) : List.length (thread_ids n) = Z.to_nat n.
Proof. unfold thread_ids. now rewrite length_map, length_seq. Qed.

Section ExecuteCode.

Variable g_bBlenderMode : bool.
Variable integrator_registered : string -> bool.
Variable run_threads : Z -> list RenderTask -> list bool -> list bool.
Variable m : machine.
Hypothesis sensor_attached : m_imagesensor (sys m) <> None.

(** With an integrator of the name [m_integratorType], the tasks are
    executed: the calls are those of [execution_events], one progress
    report and the post-process of the sensor. *)
Lemma executeRenderingTasks_next :
  integrator_registered (m_integratorType (sys m)) = true ->
  let table := run_threads (m_thread_num (sys m)) (task_queue m) (m_taskDone (sys m)) in
  let progress :=
    progress_of (count_done (Z.to_nat (m_totalTask (sys m))) table 0) (m_totalTask (sys m)) in
  exists m',
    _executeRenderingTasks g_bBlenderMode integrator_registered run_threads m = Next tt m' /\
    trace m' = trace m
               ++ execution_events (m_integratorType (sys m)) (m_integratorProperty (sys m))
                                   (m_thread_num (sys m))
               ++ progress_events g_bBlenderMode progress
               ++ [E_SensorPostProcess] /\
    sys m' = set_tasks (m_totalTask (sys m)) table (sys m).
Proof.
  intros Hreg table progress.
  unfold _executeRenderingTasks, bind, get_sys.
  destruct (m_imagesensor (sys m)) as [sensor|] eqn:Es; [|congruence].
  cbn [deref ret emit_event].
  unfold call, _allocateIntegrator, bind, get_sys. cbn [sys]. rewrite Hreg.
  cbn [emit_events return_ deref ret emit_event threads_done sys task_queue shared trace].
  unfold _outputProgress, bind, get_sys.
  cbn [sys m_totalTask m_taskDone set_tasks m_pProgress].
  fold table. fold progress.
  unfold execution_events, progress_events.
  destruct g_bBlenderMode; cbn [negb].
  - destruct (m_pProgress (sys m)); cbn; eexists; (split; [reflexivity|]);
      cbn; (split; [flatten_apps|]; reflexivity).
  - cbn. eexists. split; [reflexivity|]. cbn. split; [flatten_apps|]; reflexivity.
Qed.

(** Without one, the null integrator is dereferenced at line 240. *)
Lemma executeRenderingTasks_null_integrator :
  integrator_registered (m_integratorType (sys m)) = false ->
  _executeRenderingTasks g_bBlenderMode integrator_registered run_threads m
  = Fault (NullDereference "integrator")
      (mkMachine (sys m) (task_queue m) (shared m)
         (trace m ++ [E_SensorPreProcess;
                      E_slog WARNING ("No integrator with name of "
                                      ++ m_integratorType (sys m))%string])).
Proof.
  intros Hreg.
  unfold _executeRenderingTasks, bind, get_sys.
  destruct (m_imagesensor (sys m)) as [sensor|] eqn:Es; [|congruence].
  cbn [deref ret emit_event].
  unfold call, _allocateIntegrator, bind, get_sys. cbn [sys]. rewrite Hreg.
  cbn. rewrite <- app_assoc. reflexivity.
Qed.

End ExecuteCode.

Lemma call_next {R R' : Type} (default : R) (c : code R unit) (m m' : machine) :
  c m = Next tt m' -> @call R R' default c m = Next default m'.
Proof. intros E. unfold call. now rewrite E. Qed.

(** X1. For an attached sensor and sizes below [2 ^ 24], [_pushRenderTask]
    returns for every fuel from some fuel on; it appends to the queue the
    tasks numbered 0, 1, 2, ... in the order of the pushes, sets
    [m_totalTask] to their number and [m_taskDone] to as many cleared
    entries, so that each [taskId] indexes the table and no task counts as
    done. *)
Theorem pushRenderTask_numbers_tasks (g_iTileSize : Z) (m : machine) (sensor : ImageSensor) :
  m_imagesensor (sys m) = Some sensor ->
  0 < sensor_width sensor < 2 ^ 24 ->
  0 < sensor_height sensor < 2 ^ 24 ->
  0 < g_iTileSize < 2 ^ 24 ->
  cdiv (sensor_width sensor) g_iTileSize * cdiv (sensor_height sensor) g_iTileSize < 2 ^ 32 ->
  exists fuel0 q,
    (forall fuel, (fuel0 <= fuel)%nat ->
       _pushRenderTask g_iTileSize fuel m
       = Next tt (mkMachine
                    (set_tasks (Z.of_nat (List.length q)) (repeat false (List.length q))
                               (sys m))
                    (task_queue m ++ q) (shared m) (trace m ++ map E_PushTask q))) /\
    (forall i t, nth_error q i = Some t ->
       taskId t = Z.of_nat i /\ 0 <= taskId t < Z.of_nat (List.length q)) /\
    count_done (List.length q) (repeat false (List.length q)) 0 = 0.
Proof.
  intros Hs Hw Hh Ht Htotal.
  destruct (pushRenderTask_next g_iTileSize m sensor Hs Hw Hh Ht Htotal)
    as (fuel0 & q & _ & Hid & Hrun).
  exists fuel0, q. split; [exact Hrun|]. split.
  - intros i t Hi. rewrite (Hid i t Hi). split; [reflexivity|].
    assert (i < List.length q)%nat by (apply nth_error_Some; congruence). lia.
  - apply count_done_zeroed.
Qed.

Lemma pushRenderTask_numbers_tasks_witness :
  exists fuel0 q,
    (forall fuel, (fuel0 <= fuel)%nat ->
       _pushRenderTask 32 fuel Sample.sensor_only
       = Next tt (mkMachine
                    (set_tasks (Z.of_nat (List.length q)) (repeat false (List.length q))
                               (sys Sample.sensor_only))
                    (task_queue Sample.sensor_only ++ q) (shared Sample.sensor_only)
                    (trace Sample.sensor_only ++ map E_PushTask q))) /\
    (forall i t, nth_error q i = Some t ->
       taskId t = Z.of_nat i /\ 0 <= taskId t < Z.of_nat (List.length q)) /\
    count_done (List.length q) (repeat false (List.length q)) 0 = 0.
Proof.
  apply (pushRenderTask_numbers_tasks 32 Sample.sensor_only (mkImageSensor false 64 64 [])).
  - reflexivity.
  - cbn. lia.
  - cbn. lia.
  - lia.
  - vm_compute. reflexivity.
Defined.

(** X2. With an attached sensor and no integrator registered under the name
    [m_integratorType], [_executeRenderingTasks] pre-processes the sensor,
    logs that there is no such integrator and then dereferences the null
    integrator (line 240): no memory is pre-allocated and no thread is
    created. *)
Theorem executeRenderingTasks_without_integrator
    (g_bBlenderMode : bool) (integrator_registered : string -> bool)
    (run_threads : Z -> list RenderTask -> list bool -> list bool) (m : machine) :
  m_imagesensor (sys m) <> None ->
  integrator_registered (m_integratorType (sys m)) = false ->
  _executeRenderingTasks g_bBlenderMode integrator_registered run_threads m
  = Fault (NullDereference "integrator")
      (mkMachine (sys m) (task_queue m) (shared m)
         (trace m ++ [E_SensorPreProcess;
                      E_slog WARNING ("No integrator with name of "
                                      ++ m_integratorType (sys m))%string])).
Proof.
  intros Hs Hreg. apply executeRenderingTasks_null_integrator; assumption.
Qed.

Lemma executeRenderingTasks_without_integrator_witness :
  _executeRenderingTasks false Cases.unregistered Sample.run_threads Cases.ready_100_50
  = Fault (NullDereference "integrator")
      (mkMachine (sys Cases.ready_100_50) [] (mkSharedMemory None 0)
         [E_SensorPreProcess; E_slog WARNING "No integrator with name of pt"]).
Proof.
  apply (executeRenderingTasks_without_integrator false Cases.unregistered Sample.run_threads
           Cases.ready_100_50).
  - discriminate.
  - reflexivity.
Defined.

(** X3. With an attached sensor and a registered integrator,
    [_executeRenderingTasks] returns after these calls, in this order: the
    pre-process of the sensor, one [SetProperty] per stored integrator
    property in the stored order, the pre-process of the integrator and its
    camera, then for the threads 0 to [m_thread_num - 1] every [PreMalloc],
    then every creation, then every [BeginThread], then every [Join], then
    one progress report and the post-process of the sensor.  So every
    thread has begun before any is joined. *)
Theorem executeRenderingTasks_thread_order
    (g_bBlenderMode : bool) (integrator_registered : string -> bool)
    (run_threads : Z -> list RenderTask -> list bool -> list bool) (m : machine) :
  m_imagesensor (sys m) <> None ->
  integrator_registered (m_integratorType (sys m)) = true ->
  let threads := m_thread_num (sys m) in
  let table := run_threads threads (task_queue m) (m_taskDone (sys m)) in
  let progress :=
    progress_of (count_done (Z.to_nat (m_totalTask (sys m))) table 0) (m_totalTask (sys m)) in
  exists m',
    _executeRenderingTasks g_bBlenderMode integrator_registered run_threads m = Next tt m' /\
    trace m'
    = trace m
      ++ [E_SensorPreProcess]
      ++ map (fun p => E_IntegratorSetProperty (prop_name p) (prop_value p))
             (m_integratorProperty (sys m))
      ++ [E_IntegratorPreProcess; E_IntegratorSetupCamera]
      ++ map (E_PreMalloc (1024 * 1024 * 64)) (thread_ids threads)
      ++ map E_NewThread (thread_ids threads)
      ++ map E_BeginThread (thread_ids threads)
      ++ map E_Join (thread_ids threads)
      ++ progress_events g_bBlenderMode progress
      ++ [E_SensorPostProcess] /\
    List.length (thread_ids threads) = Z.to_nat threads /\
    (forall i, (i < Z.to_nat threads)%nat -> nth_error (thread_ids threads) i = Some (Z.of_nat i)).
Proof.
  intros Hs Hreg threads table progress.
  destruct (executeRenderingTasks_next g_bBlenderMode integrator_registered run_threads m
              Hs Hreg) as (m' & E & Et & _).
  exists m'. split; [exact E|]. split.
  - rewrite Et. unfold execution_events. flatten_apps. reflexivity.
  - split; [apply thread_ids_length | apply thread_ids_nth].
Qed.

Lemma executeRenderingTasks_thread_order_witness :
  exists m',
    _executeRenderingTasks false Sample.registered Sample.run_threads Cases.ready_100_50
    = Next tt m' /\
    trace m'
    = [ E_SensorPreProcess;
        E_IntegratorSetProperty "max_bounce" "8"; E_IntegratorSetProperty "rr" "0.5";
        E_IntegratorPreProcess; E_IntegratorSetupCamera;
        E_PreMalloc 67108864 0; E_PreMalloc 67108864 1; E_PreMalloc 67108864 2;
        E_NewThread 0; E_NewThread 1; E_NewThread 2;
        E_BeginThread 0; E_BeginThread 1; E_BeginThread 2;
        E_Join 0; E_Join 1; E_Join 2;
        E_cout_unsigned 100; E_cout_string progress_label; E_cout_endl;
        E_SensorPostProcess ].
Proof.
  destruct (executeRenderingTasks_thread_order false Sample.registered Sample.run_threads
              Cases.ready_100_50 ltac:(discriminate) eq_refl) as (m' & E & Et & _).
  exists m'. split; [exact E|]. rewrite Et. vm_compute. reflexivity.
Defined.

Section RenderCompletes.

Variable g_bBlenderMode : bool.
Variable g_iTileSize : Z.
Variable integrator_registered : string -> bool.
Variable timer_reading : list event -> Z.
Variable run_threads : Z -> list RenderTask -> list bool -> list bool.
Variable m : machine.
Variable sensor : ImageSensor.
Hypothesis sensor_attached : m_imagesensor (sys m) = Some sensor.
Hypothesis camera_attached : m_camera (sys m) <> None.
Hypothesis integrator_known : integrator_registered (m_integratorType (sys m)) = true.
Hypothesis width_range : 0 < sensor_width sensor < 2 ^ 24.
Hypothesis height_range : 0 < sensor_height sensor < 2 ^ 24.
Hypothesis tilesize_range : 0 < g_iTileSize < 2 ^ 24.
Hypothesis total_range :
  cdiv (sensor_width sensor) g_iTileSize * cdiv (sensor_height sensor) g_iTileSize < 2 ^ 32.

(** A render of a system that has its sensor, its camera and a known
    integrator goes through: no early return, no null pointer. *)
Lemma Render_next :
  exists fuel0 q,
    Z.of_nat (List.length q)
    = cdiv (sensor_width sensor) g_iTileSize * cdiv (sensor_height sensor) g_iTileSize /\
    forall fuel, (fuel0 <= fuel)%nat ->
      exists m' before after,
        Render g_bBlenderMode g_iTileSize integrator_registered timer_reading run_threads
               fuel m = Next tt m' /\
        trace m' = trace m ++ before ++ map E_PushTask q ++ after ++ [E_StopTimer] /\
        forallb quiet before = true /\ forallb no_push after = true /\
        m_totalTask (sys m') = Z.of_nat (List.length q) /\
        m_uRenderingTime (sys m') = timer_reading (trace m') /\
        m_imagesensor (sys m') = m_imagesensor (sys m) /\
        m_camera (sys m') = m_camera (sys m).
Proof.
  pose proof (PreProcess_next timer_reading m ltac:(congruence) camera_attached) as E1.
  cbv zeta in E1.
  remember (timer_reading (trace m ++ [E_StartTimer; E_ScenePreProcess; E_StopTimer])) as t1.
  remember (mkMachine (set_m_uPreProcessingTime t1 (sys m)) (task_queue m) (shared m)
              ((trace m ++ [E_StartTimer; E_ScenePreProcess; E_StopTimer])
               ++ [E_slog INFO ("Time spent on preprocessing is " ++ decimal t1 ++ " ms.")%string]))
    as m1 eqn:Em1.
  remember (mkMachine (sys m1) (task_queue m1) (shared m1) (trace m1 ++ [E_StartTimer]))
    as m2 eqn:Em2.
  assert (Hs2 : m_imagesensor (sys m2) = Some sensor) by (subst m2 m1; exact sensor_attached).
  destruct (pushRenderTask_next g_iTileSize m2 sensor Hs2 width_range height_range
              tilesize_range total_range) as (fuel0 & q & Hlen & _ & Hpush).
  exists fuel0, q. split; [exact Hlen|].
  intros fuel Hfuel. specialize (Hpush fuel Hfuel).
  remember (mkMachine (set_tasks (Z.of_nat (List.length q)) (repeat false (List.length q))
                                 (sys m2))
                      (task_queue m2 ++ q) (shared m2) (trace m2 ++ map E_PushTask q))
    as m3 eqn:Em3.
  assert (Hs3 : m_imagesensor (sys m3) <> None)
    by (subst m3; cbn; rewrite Hs2; discriminate).
  assert (Hi3 : integrator_registered (m_integratorType (sys m3)) = true)
    by (subst m3 m2 m1; exact integrator_known).
  destruct (executeRenderingTasks_next g_bBlenderMode integrator_registered run_threads m3
              Hs3 Hi3) as (m4 & E4 & Et4 & Es4).
  cbv zeta in Et4, Es4.
  remember (execution_events (m_integratorType (sys m3)) (m_integratorProperty (sys m3))
                             (m_thread_num (sys m3))
            ++ progress_events g_bBlenderMode
                 (progress_of
                    (count_done (Z.to_nat (m_totalTask (sys m3)))
                       (run_threads (m_thread_num (sys m3)) (task_queue m3)
                          (m_taskDone (sys m3))) 0)
                    (m_totalTask (sys m3)))
            ++ [E_SensorPostProcess]) as after eqn:Eafter.
  assert (Hafter : forallb no_push after = true).
  { subst after. unfold execution_events, progress_events.
    rewrite !forallb_app. repeat (apply andb_true_iff; split);
      try reflexivity; try (apply forallb_map_event; reflexivity).
    destruct g_bBlenderMode; reflexivity. }
  exists (mkMachine (set_m_uRenderingTime (timer_reading (trace m4 ++ [E_StopTimer])) (sys m4))
                    (task_queue m4) (shared m4) (trace m4 ++ [E_StopTimer])).
  exists ([E_StartTimer; E_ScenePreProcess; E_StopTimer;
           E_slog INFO ("Time spent on preprocessing is " ++ decimal t1 ++ " ms.")%string;
           E_StartTimer]).
  exists after.
  split.
  - unfold Render.
    rewrite (bind_next _ _ _ _ _ (call_next tt _ _ _ E1)).
    assert (E2 : @emit_event unit E_StartTimer m1 = Next tt m2) by (subst m2; reflexivity).
    rewrite (bind_next _ _ _ _ _ E2).
    rewrite (bind_next _ _ _ _ _ (call_next tt _ _ _ Hpush)).
    rewrite (bind_next _ _ _ _ _ (call_next tt _ _ _ E4)).
    reflexivity.
  - cbn [trace sys].
    split.
    { rewrite Et4. clear Eafter Hafter.
      subst m3 m2 m1. cbn [trace]. flatten_apps. reflexivity. }
    split; [reflexivity|]. split; [exact Hafter|].
    rewrite Es4. subst m3 m2 m1. cbn. repeat split; reflexivity.
Qed.

End RenderCompletes.

(** X4. A render of a system with its sensor and its camera attached and an
    integrator registered under [m_integratorType] goes through, whatever
    the timer reads and the threads do: [Render] falls off its end without
    a null pointer, for every fuel from some fuel on.  Its calls are those
    of the pre-process, the pushes of the [ceil(W/T) * ceil(H/T)] tasks,
    then calls that push nothing, then [StopTimer]; [m_totalTask] is that
    number, [m_uRenderingTime] is what the timer reads at the end, and the
    sensor and the camera are the ones it started with. *)
Theorem Render_completes
    (g_bBlenderMode : bool) (g_iTileSize : Z) (integrator_registered : string -> bool)
    (timer_reading : list event -> Z)
    (run_threads : Z -> list RenderTask -> list bool -> list bool)
    (m : machine) (sensor : ImageSensor) :
  m_imagesensor (sys m) = Some sensor ->
  m_camera (sys m) <> None ->
  integrator_registered (m_integratorType (sys m)) = true ->
  0 < sensor_width sensor < 2 ^ 24 ->
  0 < sensor_height sensor < 2 ^ 24 ->
  0 < g_iTileSize < 2 ^ 24 ->
  cdiv (sensor_width sensor) g_iTileSize * cdiv (sensor_height sensor) g_iTileSize < 2 ^ 32 ->
  exists fuel0 q,
    Z.of_nat (List.length q)
    = cdiv (sensor_width sensor) g_iTileSize * cdiv (sensor_height sensor) g_iTileSize /\
    forall fuel, (fuel0 <= fuel)%nat ->
      exists m' before after,
        Render g_bBlenderMode g_iTileSize integrator_registered timer_reading run_threads
               fuel m = Next tt m' /\
        trace m' = trace m ++ before ++ map E_PushTask q ++ after ++ [E_StopTimer] /\
        forallb quiet before = true /\ forallb no_push after = true /\
        m_totalTask (sys m') = Z.of_nat (List.length q) /\
        m_uRenderingTime (sys m') = timer_reading (trace m') /\
        m_imagesensor (sys m') = m_imagesensor (sys m) /\
        m_camera (sys m') = m_camera (sys m).
Proof.
  intros Hs Hc Hi Hw Hh Ht Htotal.
  exact (Render_next g_bBlenderMode g_iTileSize integrator_registered timer_reading
           run_threads m sensor Hs Hc Hi Hw Hh Ht Htotal).
Qed.

Lemma Render_completes_witness :
  exists fuel0 q,
    Z.of_nat (List.length q) = 8 /\
    forall fuel, (fuel0 <= fuel)%nat ->
      exists m' before after,
        Render false 32 Sample.registered Sample.timer_reading Sample.run_threads
               fuel Cases.ready_100_50 = Next tt m' /\
        trace m' = trace Cases.ready_100_50 ++ before ++ map E_PushTask q ++ after
                   ++ [E_StopTimer] /\
        forallb quiet before = true /\ forallb no_push after = true /\
        m_totalTask (sys m') = Z.of_nat (List.length q) /\
        m_uRenderingTime (sys m') = Sample.timer_reading (trace m') /\
        m_imagesensor (sys m') = m_imagesensor (sys Cases.ready_100_50) /\
        m_camera (sys m') = m_camera (sys Cases.ready_100_50).
Proof.
  apply (Render_completes false 32 Sample.registered Sample.timer_reading Sample.run_threads
           Cases.ready_100_50 (mkImageSensor false 100 50 [])).
  - reflexivity.
  - discriminate.
  - reflexivity.
  - cbn. lia.
  - cbn. lia.
  - lia.
  - vm_compute. reflexivity.
Defined.

(* ------------------------------------------------------------------ *)
(** ** Further properties of [Setup] *)

(** *** What a block of [Setup] returns *)

Section OnlyReturns.

Context {R : Type}.
Variable r0 : R.

Lemma only_returns_ret {A : Type} (a : A) : only_returns r0 (@ret R A a).
Proof. intros m r m' E. discriminate. Qed.

Lemma only_returns_return_ {A : Type} : only_returns r0 (@return_ R A r0).
Proof. intros m r m' E. unfold return_ in E. congruence. Qed.

Lemma only_returns_crash {A : Type} (f : fault) : only_returns r0 (@crash R A f).
Proof. intros m r m' E. discriminate. Qed.

Lemma only_returns_get_sys : only_returns r0 (@get_sys R).
Proof. intros m r m' E. discriminate. Qed.

Lemma only_returns_update (f : System -> System) : only_returns r0 (@update R f).
Proof. intros m r m' E. discriminate. Qed.

Lemma only_returns_update_shared (f : SharedMemory -> SharedMemory) :
  only_returns r0 (@update_shared R f).
Proof. intros m r m' E. discriminate. Qed.

Lemma only_returns_emit_event (e : event) : only_returns r0 (@emit_event R e).
Proof. intros m r m' E. discriminate. Qed.

Lemma only_returns_deref {A : Type} (name : string) (p : option A) :
  only_returns r0 (@deref R A name p).
Proof. destruct p; intros m r m' E; discriminate. Qed.

Lemma only_returns_c_str (what : string) (p : option string) :
  only_returns r0 (@c_str R what p).
Proof. destruct p; intros m r m' E; discriminate. Qed.

Lemma only_returns_bind {A B : Type} (c : code R A) (k : A -> code R B) :
  only_returns r0 c -> (forall a, only_returns r0 (k a)) -> only_returns r0 (bind c k).
Proof.
  intros Hc Hk m r m' E. unfold bind in E.
  destruct (c m) as [a m1 | r1 m1 | f m1] eqn:Ec.
  - exact (Hk a m1 r m' E).
  - injection E as <- <-. exact (Hc m r1 m1 Ec).
  - discriminate.
Qed.

End OnlyReturns.

(** Closes a goal [only_returns r0 c] by the structure of [c]. *)
Ltac only_returns_steps :=
  repeat first
    [ apply only_returns_bind; [| intro]
    | apply only_returns_ret
    | apply only_returns_return_
    | apply only_returns_crash
    | apply only_returns_get_sys
    | apply only_returns_update
    | apply only_returns_update_shared
    | apply only_returns_emit_event
    | apply only_returns_deref
    | apply only_returns_c_str
    | match goal with
      | |- only_returns _ (match ?x with _ => _ end) => destruct x
      | |- only_returns _ (if ?x then _ else _) => destruct x
      end ].

Lemma integrator_properties_never_returns (props : list TiXmlElement) :
  only_returns false (integrator_properties props).
Proof.
  induction props as [|prop rest IH]; cbn [integrator_properties].
  - apply only_returns_ret.
  - apply only_returns_bind; [apply only_returns_c_str | intro].
    apply only_returns_bind; [apply only_returns_c_str | intro].
    apply only_returns_bind; [apply only_returns_update | intro]. exact IH.
Qed.

Section SetupStages.

Variable g_bBlenderMode : bool.
Variable g_iTileSize : Z.
Variable camera_registered : string -> bool.
Variable sampler_registered : string -> bool.
Variable RoundSize : Sampler -> Z -> Z.
Variable CreateSharedMemory : string -> Z -> SharedMemory.
Variable root : TiXmlElement.

(** Before its last line, [Setup] returns nothing but [false]. *)
Lemma setup_elements_returns_false :
  only_returns false
    (setup_elements g_bBlenderMode camera_registered sampler_registered RoundSize root).
Proof.
  cbv beta zeta delta
    [setup_elements setup_scene setup_integrator setup_target setup_sampler
     setup_camera setup_output setup_threads update_sensor].
  repeat first [ apply integrator_properties_never_returns | progress only_returns_steps ].
Qed.

Lemma setup_camera_sensor_never_returns : only_returns false setup_camera_sensor.
Proof. unfold setup_camera_sensor. only_returns_steps. Qed.

Lemma setup_shared_memory_never_returns (m m' : machine) (r : bool) :
  setup_shared_memory g_iTileSize CreateSharedMemory m <> Return r m'.
Proof.
  intros E.
  assert (Ht : only_returns true (setup_shared_memory g_iTileSize CreateSharedMemory))
    by (unfold setup_shared_memory; cbv zeta; only_returns_steps).
  assert (Hf : only_returns false (setup_shared_memory g_iTileSize CreateSharedMemory))
    by (unfold setup_shared_memory; cbv zeta; only_returns_steps).
  pose proof (Ht _ _ _ E). pose proof (Hf _ _ _ E). congruence.
Qed.

(** The machine after the first line of [Setup]. *)
Lemma setup_elements_begins (m : machine) :
  setup_elements g_bBlenderMode camera_registered sampler_registered RoundSize root m
  = (setup_scene root ;; setup_integrator root ;; setup_target root ;;
     setup_sampler sampler_registered RoundSize root ;;
     setup_camera camera_registered root ;; setup_output root ;; setup_threads root)
      (mkMachine (set_m_imagesensor (Some (mkImageSensor g_bBlenderMode 0 0 [])) (sys m))
                 (task_queue m) (shared m) (trace m)).
Proof. reflexivity. Qed.

(** A run of the elements that falls through went through every block. *)
Lemma setup_elements_stages (m m7 : machine) :
  setup_elements g_bBlenderMode camera_registered sampler_registered RoundSize root m
  = Next tt m7 ->
  exists m1 m2 m3 m4 m5 m6,
    setup_scene root
      (mkMachine (set_m_imagesensor (Some (mkImageSensor g_bBlenderMode 0 0 [])) (sys m))
                 (task_queue m) (shared m) (trace m)) = Next tt m1 /\
    setup_integrator root m1 = Next tt m2 /\
    setup_target root m2 = Next tt m3 /\
    setup_sampler sampler_registered RoundSize root m3 = Next tt m4 /\
    setup_camera camera_registered root m4 = Next tt m5 /\
    setup_output root m5 = Next tt m6 /\
    setup_threads root m6 = Next tt m7.
Proof.
  rewrite setup_elements_begins. unfold bind. intros E.
  destruct (setup_scene root _) as [[] m1 | |]; [|discriminate..].
  destruct (setup_integrator root m1) as [[] m2 | |] eqn:E2; [|discriminate..].
  destruct (setup_target root m2) as [[] m3 | |] eqn:E3; [|discriminate..].
  destruct (setup_sampler sampler_registered RoundSize root m3) as [[] m4 | |] eqn:E4;
    [|discriminate..].
  destruct (setup_camera camera_registered root m4) as [[] m5 | |] eqn:E5; [|discriminate..].
  destruct (setup_output root m5) as [[] m6 | |] eqn:E6; [|discriminate..].
  exists m1, m2, m3, m4, m5, m6. repeat split; assumption.
Qed.

(** A [Setup] that returns [true] went through the elements, the camera
    and the shared region. *)
Lemma Setup_true_stages (m m' : machine) :
  Setup g_bBlenderMode g_iTileSize camera_registered sampler_registered RoundSize
        CreateSharedMemory root m = Return true m' ->
  exists m7 m8,
    setup_elements g_bBlenderMode camera_registered sampler_registered RoundSize root m
    = Next tt m7 /\
    setup_camera_sensor m7 = Next tt m8 /\
    setup_shared_memory g_iTileSize CreateSharedMemory m8 = Next tt m'.
Proof.
  unfold Setup. intros E. unfold bind at 1 in E.
  destruct (setup_elements _ _ _ _ _ m) as [[] m7 | r m7 | f m7] eqn:E7.
  - unfold bind at 1 in E.
    destruct (setup_camera_sensor m7) as [[] m8 | r m8 | f m8] eqn:E8.
    + unfold bind in E.
      destruct (setup_shared_memory g_iTileSize CreateSharedMemory m8)
        as [[] m9 | r m9 | f m9] eqn:E9.
      * injection E as <-. exists m7, m8. repeat split; assumption.
      * exfalso. exact (setup_shared_memory_never_returns _ _ _ E9).
      * discriminate.
    + injection E as -> ->. pose proof (setup_camera_sensor_never_returns _ _ _ E8).
      discriminate.
    + discriminate.
  - injection E as -> ->. pose proof (setup_elements_returns_false _ _ _ E7). discriminate.
  - discriminate.
Qed.

(** A [Setup] that returns [false] returned from among the elements. *)
Lemma Setup_false_stages (m m' : machine) :
  Setup g_bBlenderMode g_iTileSize camera_registered sampler_registered RoundSize
        CreateSharedMemory root m = Return false m' ->
  setup_elements g_bBlenderMode camera_registered sampler_registered RoundSize root m
  = Return false m'.
Proof.
  unfold Setup. intros E. unfold bind at 1 in E.
  destruct (setup_elements _ _ _ _ _ m) as [[] m7 | r m7 | f m7] eqn:E7.
  - exfalso. unfold bind at 1 in E.
    destruct (setup_camera_sensor m7) as [[] m8 | r m8 | f m8] eqn:E8.
    + unfold bind in E.
      destruct (setup_shared_memory g_iTileSize CreateSharedMemory m8)
        as [[] m9 | r m9 | f m9] eqn:E9; [discriminate | | discriminate].
      exact (setup_shared_memory_never_returns _ _ _ E9).
    + unfold setup_camera_sensor, bind, get_sys in E8.
      destruct (m_camera (sys m7)); discriminate.
    + discriminate.
  - injection E as -> ->. reflexivity.
  - discriminate.
Qed.

End SetupStages.

(** *** What a block of [Setup] leaves alone *)

Lemma kept_of_next {R A : Type} (I : machine -> machine -> Prop) (c : code R A)
    (m m' : machine) (a : A) :
  keeps I c -> c m = Next a m' -> I m m'.
Proof. intros Hc E. specialize (Hc m). now rewrite E in Hc. Qed.

Lemma kept_of_return {R A : Type} (I : machine -> machine -> Prop) (c : code R A)
    (m m' : machine) (r : R) :
  keeps I c -> c m = Return r m' -> I m m'.
Proof. intros Hc E. specialize (Hc m). now rewrite E in Hc. Qed.

Section Frames.

Context {T : Type}.
Variable f : System -> T.

Lemma field_kept_refl (m : machine) : field_kept f m m.
Proof. reflexivity. Qed.

Lemma field_kept_trans (a b c : machine) :
  field_kept f a b -> field_kept f b c -> field_kept f a c.
Proof. unfold field_kept. congruence. Qed.

Lemma field_kept_emit_event {R : Type} (e : event) : keeps (field_kept f) (@emit_event R e).
Proof. intros m. reflexivity. Qed.

Lemma field_kept_update_shared {R : Type} (g : SharedMemory -> SharedMemory) :
  keeps (field_kept f) (@update_shared R g).
Proof. intros m. reflexivity. Qed.

Lemma field_kept_update {R : Type} (g : System -> System) :
  (forall s, f (g s) = f s) -> keeps (field_kept f) (@update R g).
Proof. intros Hg m. apply Hg. Qed.

Lemma field_kept_update_sensor {R : Type} (g : ImageSensor -> ImageSensor) :
  (forall s sensor, m_imagesensor s = Some sensor ->
                    f (set_m_imagesensor (Some (g sensor)) s) = f s) ->
  keeps (field_kept f) (@update_sensor R g).
Proof.
  intros Hg m. unfold update_sensor, bind, get_sys.
  destruct (m_imagesensor (sys m)) as [sensor|] eqn:Es; cbn; [|reflexivity].
  apply (Hg _ _ Es).
Qed.

Ltac frame_steps prim :=
  keeps_by field_kept_refl field_kept_trans
    ltac:(first [ apply field_kept_emit_event
                | apply field_kept_update_shared
                | apply field_kept_update; solve [auto]
                | apply field_kept_update_sensor; solve [auto]
                | prim ]).

Variable root : TiXmlElement.

Lemma scene_keeps : keeps (field_kept f) (setup_scene root).
Proof. unfold setup_scene. frame_steps fail. Qed.

Section Integrator.

Hypothesis ignores_type : forall v s, f (set_m_integratorType v s) = f s.
Hypothesis ignores_properties : forall v s, f (set_m_integratorProperty v s) = f s.

Lemma integrator_properties_keeps (props : list TiXmlElement) :
  keeps (field_kept f) (integrator_properties props).
Proof.
  induction props as [|prop rest IH]; cbn [integrator_properties].
  - apply keeps_ret, field_kept_refl.
  - frame_steps ltac:(exact IH).
Qed.

Lemma integrator_keeps : keeps (field_kept f) (setup_integrator root).
Proof.
  unfold setup_integrator. frame_steps ltac:(apply integrator_properties_keeps).
Qed.

End Integrator.

Lemma target_keeps :
  (forall w h s sensor, m_imagesensor s = Some sensor ->
     f (set_m_imagesensor (Some (SetSensorSize w h sensor)) s) = f s) ->
  keeps (field_kept f) (setup_target root).
Proof. intros H. unfold setup_target. frame_steps fail. Qed.

Lemma sampler_keeps (sampler_registered : string -> bool) (RoundSize : Sampler -> Z -> Z) :
  (forall p spp s, f (set_sampler p spp s) = f s) ->
  keeps (field_kept f) (setup_sampler sampler_registered RoundSize root).
Proof. intros H. unfold setup_sampler. cbv zeta. frame_steps fail. Qed.

Lemma camera_keeps (camera_registered : string -> bool) :
  (forall v s, f (set_m_camera v s) = f s) ->
  keeps (field_kept f) (setup_camera camera_registered root).
Proof. intros H. unfold setup_camera. cbv zeta. frame_steps fail. Qed.

Lemma output_keeps :
  (forall n v s sensor, m_imagesensor s = Some sensor ->
     f (set_m_imagesensor (Some (SetSensorProperty n v sensor)) s) = f s) ->
  keeps (field_kept f) (setup_output root).
Proof. intros H. unfold setup_output. frame_steps fail. Qed.

Lemma threads_keeps :
  (forall v s, f (set_m_thread_num v s) = f s) ->
  keeps (field_kept f) (setup_threads root).
Proof. intros H. unfold setup_threads. frame_steps fail. Qed.

Lemma camera_sensor_keeps : keeps (field_kept f) setup_camera_sensor.
Proof. unfold setup_camera_sensor. frame_steps fail. Qed.

Lemma shared_memory_keeps (g_iTileSize : Z) (CreateSharedMemory : string -> Z -> SharedMemory) :
  (forall v s, f (set_m_pProgress v s) = f s) ->
  keeps (field_kept f) (setup_shared_memory g_iTileSize CreateSharedMemory).
Proof. intros H. unfold setup_shared_memory. cbv zeta. frame_steps fail. Qed.

End Frames.

(** *** Invariants of the elements *)

Section ElementsKeep.

Variable I : machine -> machine -> Prop.
Hypothesis I_refl : forall m, I m m.
Hypothesis I_trans : forall a b c, I a b -> I b c -> I a c.
Hypothesis I_update : forall g, keeps I (@update bool g).
Hypothesis I_LoadScene : forall file, keeps I (@emit_event bool (E_LoadScene file)).
Hypothesis I_RoundSize : forall round, keeps I (@emit_event bool (E_RoundSize round)).

Ltac elements_steps prim :=
  keeps_by I_refl I_trans
    ltac:(first [apply I_update | apply I_LoadScene | apply I_RoundSize | prim]).

Lemma integrator_properties_keeps_all (props : list TiXmlElement) :
  keeps I (integrator_properties props).
Proof.
  induction props as [|prop rest IH]; cbn [integrator_properties].
  - apply keeps_ret, I_refl.
  - elements_steps ltac:(exact IH).
Qed.

Lemma scene_keeps_all (root : TiXmlElement) : keeps I (setup_scene root).
Proof. unfold setup_scene. elements_steps fail. Qed.

Lemma integrator_keeps_all (root : TiXmlElement) : keeps I (setup_integrator root).
Proof. unfold setup_integrator. elements_steps ltac:(apply integrator_properties_keeps_all). Qed.

Lemma target_keeps_all (root : TiXmlElement) : keeps I (setup_target root).
Proof. unfold setup_target, update_sensor. elements_steps fail. Qed.

Lemma sampler_keeps_all (sampler_registered : string -> bool) (RoundSize : Sampler -> Z -> Z)
    (root : TiXmlElement) :
  keeps I (setup_sampler sampler_registered RoundSize root).
Proof. unfold setup_sampler. cbv zeta. elements_steps fail. Qed.

(** What holds across an update of the members and across the calls
    [LoadScene] and [RoundSize] holds across the elements of the file. *)
Lemma setup_elements_keeps_all
    (g_bBlenderMode : bool) (camera_registered sampler_registered : string -> bool)
    (RoundSize : Sampler -> Z -> Z) (root : TiXmlElement) :
  keeps I (setup_elements g_bBlenderMode camera_registered sampler_registered RoundSize root).
Proof.
  cbv beta zeta delta
    [setup_elements setup_scene setup_integrator setup_target setup_sampler
     setup_camera setup_output setup_threads update_sensor].
  elements_steps ltac:(apply integrator_properties_keeps_all).
Qed.

End ElementsKeep.

Lemma shared_kept_refl (m : machine) : shared_kept m m.
Proof. reflexivity. Qed.

Lemma shared_kept_trans (a b c : machine) :
  shared_kept a b -> shared_kept b c -> shared_kept a c.
Proof. unfold shared_kept. congruence. Qed.

Lemma shared_kept_update (g : System -> System) : keeps shared_kept (@update bool g).
Proof. intros m. reflexivity. Qed.

Lemma shared_kept_emit_event (e : event) : keeps shared_kept (@emit_event bool e).
Proof. intros m. reflexivity. Qed.

Section SetupOutcome.

Variable g_bBlenderMode : bool.
Variable g_iTileSize : Z.
Variable camera_registered : string -> bool.
Variable sampler_registered : string -> bool.
Variable RoundSize : Sampler -> Z -> Z.
Variable CreateSharedMemory : string -> Z -> SharedMemory.
Variable root : TiXmlElement.

(** A [Setup] that returns [false] has asked for no shared region and has
    not called the camera. *)
Lemma Setup_false_effects (m m' : machine) :
  Setup g_bBlenderMode g_iTileSize camera_registered sampler_registered RoundSize
        CreateSharedMemory root m = Return false m' ->
  shared m' = shared m /\
  m_pProgress (sys m') = m_pProgress (sys m) /\
  appends before_camera m m'.
Proof.
  intros E. apply Setup_false_stages in E. repeat apply conj.
  - apply (kept_of_return shared_kept _ m m' false
             (setup_elements_keeps_all shared_kept shared_kept_refl shared_kept_trans
                shared_kept_update (fun file => shared_kept_emit_event _)
                (fun round => shared_kept_emit_event _)
                g_bBlenderMode camera_registered sampler_registered RoundSize root) E).
  - assert (E' : (setup_elements g_bBlenderMode camera_registered sampler_registered
                    RoundSize root ;; setup_camera_sensor) m = Return false m')
      by (unfold bind; now rewrite E).
    exact (kept_of_return same_progress _ m m' false
             (setup_prefix_same_progress g_bBlenderMode camera_registered sampler_registered
                RoundSize root) E').
  - apply (kept_of_return (appends before_camera) _ m m' false
             (setup_elements_keeps_all (appends before_camera)
                (appends_refl before_camera) (appends_trans before_camera)
                (appends_update before_camera)
                (fun file => appends_emit_event before_camera (E_LoadScene file) eq_refl)
                (fun round => appends_emit_event before_camera (E_RoundSize round) eq_refl)
                g_bBlenderMode camera_registered sampler_registered RoundSize root) E).
Qed.

(** A [Setup] that returns [true] leaves the camera and the sensor
    attached. *)
Lemma Setup_true_attached (m m' : machine) :
  Setup g_bBlenderMode g_iTileSize camera_registered sampler_registered RoundSize
        CreateSharedMemory root m = Return true m' ->
  m_camera (sys m') <> None /\ m_imagesensor (sys m') <> None.
Proof.
  intros E. apply Setup_true_stages in E. destruct E as (m7 & m8 & _ & E8 & E9).
  pose proof (kept_of_next _ _ _ _ _ (camera_sensor_keeps m_camera) E8) as K8.
  pose proof (kept_of_next _ _ _ _ _
                (shared_memory_keeps m_camera g_iTileSize CreateSharedMemory
                   (fun v s => eq_refl)) E9) as K9.
  pose proof (kept_of_next _ _ _ _ _
                (shared_memory_keeps m_imagesensor g_iTileSize CreateSharedMemory
                   (fun v s => eq_refl)) E9) as S9.
  unfold field_kept in *. split.
  - rewrite K9, K8. unfold setup_camera_sensor, bind, get_sys in E8.
    destruct (m_camera (sys m7)); [discriminate | discriminate E8].
  - rewrite S9. unfold setup_shared_memory, bind, get_sys in E9.
    destruct (m_imagesensor (sys m8)); [discriminate | discriminate E9].
Qed.

(** The size the sensor has after the [RenderTargetSize] block. *)
Lemma setup_target_effect (m2 m3 : machine) :
  setup_target root m2 = Next tt m3 -> sensor_size (sys m3) = Some (target_size root).
Proof.
  unfold setup_target, target_size, update_sensor, bind, get_sys, sensor_size.
  destruct (FirstChildElement "RenderTargetSize" root) as [e|].
  - destruct (Attribute "w" e) as [w|]; [|discriminate].
    destruct (Attribute "h" e) as [h|]; [|discriminate]. cbn.
    destruct (m_imagesensor (sys m2)); [|discriminate]. cbn.
    intros E. injection E as <-. reflexivity.
  - destruct (m_imagesensor (sys m2)); [|discriminate]. cbn.
    intros E. injection E as <-. reflexivity.
Qed.

Lemma camera_properties_of_spec (props : list TiXmlElement) (c : Camera) :
  camera_properties_of props c
  = mkCamera (camera_type c) (camera_properties c ++ complete_pairs props).
Proof.
  unfold camera_properties_of. revert c.
  induction props as [|prop rest IH]; intros c; cbn [fold_left complete_pairs flat_map].
  - rewrite app_nil_r. destruct c; reflexivity.
  - rewrite IH.
    destruct (Attribute "name" prop) as [name|]; [|reflexivity].
    destruct (Attribute "value" prop) as [value|]; [|reflexivity].
    cbn. now rewrite <- app_assoc.
Qed.

(** The camera after the [Camera] block. *)
Lemma setup_camera_effect (m4 m5 : machine) :
  setup_camera camera_registered root m4 = Next tt m5 ->
  match FirstChildElement "Camera" root with
  | Some e =>
      exists type,
        Attribute "type" e = Some type /\ camera_registered type = true /\
        m_camera (sys m5)
        = Some (mkCamera type (complete_pairs (ChildElements "Property" e)))
  | None => m_camera (sys m5) = m_camera (sys m4)
  end.
Proof.
  unfold setup_camera, bind.
  destruct (FirstChildElement "Camera" root) as [e|].
  - destruct (Attribute "type" e) as [type|]; [|discriminate]. cbn.
    destruct (camera_registered type) eqn:Hreg; [|discriminate]. cbn.
    intros E. injection E as <-. exists type. cbn.
    rewrite camera_properties_of_spec. split; [reflexivity|]. split; [exact Hreg | reflexivity].
  - intros E. injection E as <-. reflexivity.
Qed.

Lemma integrator_properties_effect (props : list TiXmlElement) (m m' : machine) :
  integrator_properties props m = Next tt m' ->
  m_integratorProperty (sys m') = m_integratorProperty (sys m) ++ stored_properties props /\
  m_integratorType (sys m') = m_integratorType (sys m).
Proof.
  revert m. induction props as [|prop rest IH]; intros m; cbn [integrator_properties].
  - intros E. injection E as <-. cbn. now rewrite app_nil_r.
  - unfold bind. cbn [stored_properties flat_map].
    destruct (Attribute "name" prop) as [name|]; [|discriminate].
    destruct (Attribute "value" prop) as [value|]; [|discriminate]. cbn.
    intros E. apply IH in E. cbn in E. destruct E as [Ep Et].
    rewrite Ep, Et. rewrite <- app_assoc. split; reflexivity.
Qed.

(** The integrator after the [Integrator] block. *)
Lemma setup_integrator_effect (m1 m2 : machine) :
  setup_integrator root m1 = Next tt m2 ->
  exists e type,
    FirstChildElement "Integrator" root = Some e /\
    Attribute "type" e = Some type /\
    m_integratorType (sys m2) = type /\
    m_integratorProperty (sys m2)
    = m_integratorProperty (sys m1) ++ stored_properties (ChildElements "Property" e).
Proof.
  unfold setup_integrator, bind.
  destruct (FirstChildElement "Integrator" root) as [e|]; [|discriminate].
  destruct (Attribute "type" e) as [type|] eqn:Ety; [|discriminate]. cbn.
  intros E. apply integrator_properties_effect in E. cbn in E. destruct E as [Ep Et].
  exists e, type. repeat split; try reflexivity; assumption.
Qed.

(** What [Setup] runs after its first line. *)
Lemma Setup_begins (m : machine) :
  Setup g_bBlenderMode g_iTileSize camera_registered sampler_registered RoundSize
        CreateSharedMemory root m
  = ((setup_scene root ;; setup_integrator root ;; setup_target root ;;
      setup_sampler sampler_registered RoundSize root ;;
      setup_camera camera_registered root ;; setup_output root ;; setup_threads root) ;;
     setup_camera_sensor ;;
     setup_shared_memory g_iTileSize CreateSharedMemory ;;
     return_ true)
      (mkMachine (set_m_imagesensor (Some (mkImageSensor g_bBlenderMode 0 0 [])) (sys m))
                 (task_queue m) (shared m) (trace m)).
Proof. reflexivity. Qed.

(** In whatever way [Setup] ends, the sensor it created is attached. *)
Lemma Setup_sensor_kind (m : machine) :
  sensor_kind (sys (final (Setup g_bBlenderMode g_iTileSize camera_registered
                                 sampler_registered RoundSize CreateSharedMemory root m)))
  = Some g_bBlenderMode.
Proof.
  rewrite Setup_begins.
  match goal with
  | |- sensor_kind (sys (final (?c ?m0))) = _ =>
      assert (K : keeps (field_kept sensor_kind) c)
  end.
  { keeps_by (field_kept_refl sensor_kind) (field_kept_trans sensor_kind)
      ltac:(first
        [ apply scene_keeps
        | apply integrator_keeps; reflexivity
        | apply target_keeps; intros w h s sensor Es; unfold sensor_kind; cbn;
          rewrite Es; reflexivity
        | apply sampler_keeps; reflexivity
        | apply camera_keeps; reflexivity
        | apply output_keeps; intros n v s sensor Es; unfold sensor_kind; cbn;
          rewrite Es; reflexivity
        | apply threads_keeps; reflexivity
        | apply camera_sensor_keeps
        | apply shared_memory_keeps; reflexivity ]). }
  rewrite (K _). reflexivity.
Qed.

Section Stages.

Variables m m1 m2 m3 m4 m5 m6 m7 m8 m' : machine.
Hypothesis E1 :
  setup_scene root
    (mkMachine (set_m_imagesensor (Some (mkImageSensor g_bBlenderMode 0 0 [])) (sys m))
               (task_queue m) (shared m) (trace m)) = Next tt m1.
Hypothesis E2 : setup_integrator root m1 = Next tt m2.
Hypothesis E3 : setup_target root m2 = Next tt m3.
Hypothesis E4 : setup_sampler sampler_registered RoundSize root m3 = Next tt m4.
Hypothesis E5 : setup_camera camera_registered root m4 = Next tt m5.
Hypothesis E6 : setup_output root m5 = Next tt m6.
Hypothesis E7 : setup_threads root m6 = Next tt m7.
Hypothesis E8 : setup_camera_sensor m7 = Next tt m8.
Hypothesis E9 : setup_shared_memory g_iTileSize CreateSharedMemory m8 = Next tt m'.

Context {T : Type}.
Variable f : System -> T.

Lemma kept_after_camera :
  (forall n v s sensor, m_imagesensor s = Some sensor ->
     f (set_m_imagesensor (Some (SetSensorProperty n v sensor)) s) = f s) ->
  (forall v s, f (set_m_thread_num v s) = f s) ->
  (forall v s, f (set_m_pProgress v s) = f s) ->
  f (sys m') = f (sys m5).
Proof.
  intros Ho Ht Hp.
  pose proof (kept_of_next _ _ _ _ _ (output_keeps f root Ho) E6) as K6.
  pose proof (kept_of_next _ _ _ _ _ (threads_keeps f root Ht) E7) as K7.
  pose proof (kept_of_next _ _ _ _ _ (camera_sensor_keeps f) E8) as K8.
  pose proof (kept_of_next _ _ _ _ _
                (shared_memory_keeps f g_iTileSize CreateSharedMemory Hp) E9) as K9.
  unfold field_kept in *. congruence.
Qed.

Lemma kept_after_target :
  (forall p spp s, f (set_sampler p spp s) = f s) ->
  (forall v s, f (set_m_camera v s) = f s) ->
  (forall n v s sensor, m_imagesensor s = Some sensor ->
     f (set_m_imagesensor (Some (SetSensorProperty n v sensor)) s) = f s) ->
  (forall v s, f (set_m_thread_num v s) = f s) ->
  (forall v s, f (set_m_pProgress v s) = f s) ->
  f (sys m') = f (sys m3).
Proof.
  intros Hs Hc Ho Ht Hp.
  pose proof (kept_of_next _ _ _ _ _
                (sampler_keeps f root sampler_registered RoundSize Hs) E4) as K4.
  pose proof (kept_of_next _ _ _ _ _ (camera_keeps f root camera_registered Hc) E5) as K5.
  pose proof (kept_after_camera Ho Ht Hp) as K.
  unfold field_kept in *. congruence.
Qed.

Lemma kept_before_camera :
  (forall v s, f (set_m_imagesensor v s) = f s) ->
  (forall v s, f (set_m_integratorType v s) = f s) ->
  (forall v s, f (set_m_integratorProperty v s) = f s) ->
  (forall p spp s, f (set_sampler p spp s) = f s) ->
  f (sys m4) = f (sys m).
Proof.
  intros Hi Hty Hpr Hs.
  pose proof (kept_of_next _ _ _ _ _ (scene_keeps f root) E1) as K1.
  pose proof (kept_of_next _ _ _ _ _ (integrator_keeps f root Hty Hpr) E2) as K2.
  pose proof (kept_of_next _ _ _ _ _
                (target_keeps f root (fun w h s sensor _ => Hi _ s)) E3) as K3.
  pose proof (kept_of_next _ _ _ _ _
                (sampler_keeps f root sampler_registered RoundSize Hs) E4) as K4.
  unfold field_kept in *. cbn in K1. rewrite Hi in K1. congruence.
Qed.

End Stages.

(** The members after a [Setup] that returned [true]. *)
Lemma Setup_true_state (m m' : machine) :
  Setup g_bBlenderMode g_iTileSize camera_registered sampler_registered RoundSize
        CreateSharedMemory root m = Return true m' ->
  sensor_size (sys m') = Some (target_size root) /\
  match FirstChildElement "Camera" root with
  | Some e =>
      exists type,
        Attribute "type" e = Some type /\ camera_registered type = true /\
        m_camera (sys m')
        = Some (mkCamera type (complete_pairs (ChildElements "Property" e)))
  | None => m_camera (sys m') = m_camera (sys m)
  end /\
  exists e type,
    FirstChildElement "Integrator" root = Some e /\
    Attribute "type" e = Some type /\
    m_integratorType (sys m') = type /\
    m_integratorProperty (sys m')
    = m_integratorProperty (sys m) ++ stored_properties (ChildElements "Property" e).
Proof.
  intros E. apply Setup_true_stages in E. destruct E as (m7 & m8 & E7 & E8 & E9).
  apply setup_elements_stages in E7.
  destruct E7 as (m1 & m2 & m3 & m4 & m5 & m6 & E1 & E2 & E3 & E4 & E5 & E6 & E7).
  repeat apply conj.
  - rewrite <- (setup_target_effect m2 m3 E3).
    apply (kept_after_target m3 m4 m5 m6 m7 m8 m' E4 E5 E6 E7 E8 E9 sensor_size);
      try reflexivity.
    intros n v s sensor Es. unfold sensor_size. cbn. rewrite Es. reflexivity.
  - pose proof (setup_camera_effect m4 m5 E5) as Hc.
    assert (K : m_camera (sys m') = m_camera (sys m5)).
    { apply (kept_after_camera m5 m6 m7 m8 m' E6 E7 E8 E9 m_camera); reflexivity. }
    destruct (FirstChildElement "Camera" root) as [e|].
    + destruct Hc as (type & Ety & Hreg & Hc). exists type. rewrite K. auto.
    + rewrite K, Hc.
      apply (kept_before_camera m m1 m2 m3 m4 E1 E2 E3 E4 m_camera); reflexivity.
  - destruct (setup_integrator_effect m1 m2 E2) as (e & type & Ee & Ety & Ht & Hp).
    exists e, type. split; [exact Ee|]. split; [exact Ety|].
    pose proof (kept_of_next _ _ _ _ _ (scene_keeps m_integratorProperty root) E1) as K1.
    unfold field_kept in K1. cbn in K1.
    pose proof (kept_of_next _ _ _ _ _
                  (target_keeps (fun s => (m_integratorType s, m_integratorProperty s)) root
                     (fun w h s sensor _ => eq_refl)) E3) as K3.
    unfold field_kept in K3.
    pose proof (kept_after_target m3 m4 m5 m6 m7 m8 m' E4 E5 E6 E7 E8 E9
                  (fun s => (m_integratorType s, m_integratorProperty s))
                  (fun p spp s => eq_refl) (fun v s => eq_refl)
                  (fun n v s sensor _ => eq_refl) (fun v s => eq_refl)
                  (fun v s => eq_refl)) as K.
    cbn beta in K. rewrite K3 in K. injection K as Kt Kp.
    rewrite Kt, Kp, Ht, Hp, K1. split; reflexivity.
Qed.

(** X5. A [Setup] that returns [true] leaves a camera and an image sensor
    attached, so that the pre-process of a render that follows goes through
    instead of giving up with a warning. *)
Theorem Setup_true_makes_ready (timer_reading : list event -> Z) (m m' : machine) :
  Setup g_bBlenderMode g_iTileSize camera_registered sampler_registered RoundSize
        CreateSharedMemory root m = Return true m' ->
  m_camera (sys m') <> None /\
  m_imagesensor (sys m') <> None /\
  exists m'',
    PreProcess timer_reading m' = Next tt m'' /\
    ~ In (E_slog WARNING
            "There is no camera attached in the system , can't render anything.")
         (skipn (List.length (trace m')) (trace m'')).
Proof.
  intros E. destruct (Setup_true_attached m m' E) as [Hc Hs].
  split; [exact Hc|]. split; [exact Hs|].
  pose proof (PreProcess_next timer_reading m' Hs Hc) as Ep. cbv zeta in Ep.
  eexists. split; [exact Ep|]. cbn [trace].
  rewrite <- app_assoc, skipn_app, skipn_all, Nat.sub_diag. cbn.
  intros [H | [H | [H | [H | []]]]]; discriminate.
Qed.

(** X6. A [Setup] that returns [false] has returned from among the elements
    of the file: it has asked for no shared region and has not called the
    camera, and the shared region and the progress pointer are what they
    were. *)
Theorem Setup_false_requests_no_region (m m' : machine) :
  Setup g_bBlenderMode g_iTileSize camera_registered sampler_registered RoundSize
        CreateSharedMemory root m = Return false m' ->
  shared m' = shared m /\
  m_pProgress (sys m') = m_pProgress (sys m) /\
  exists calls,
    trace m' = trace m ++ calls /\
    (forall name size, ~ In (E_CreateSharedMemory name size) calls) /\
    ~ In E_CameraSetImageSensor calls /\ ~ In E_CameraPreProcess calls.
Proof.
  intros E. destruct (Setup_false_effects m m' E) as (Hsh & Hp & calls & Et & Hc).
  split; [exact Hsh|]. split; [exact Hp|]. exists calls. split; [exact Et|].
  rewrite forallb_forall in Hc.
  repeat split; try intros name size; intros Hin; apply Hc in Hin; discriminate.
Qed.

(** X7. After a [Setup] that returns [true] the sensor has the size of the
    [RenderTargetSize] element, its [w] and [h] read by [atoi], and 1920 by
    1080 when the file has no such element; the blocks that follow do not
    change it. *)
Theorem Setup_target_size (m m' : machine) :
  Setup g_bBlenderMode g_iTileSize camera_registered sampler_registered RoundSize
        CreateSharedMemory root m = Return true m' ->
  exists sensor,
    m_imagesensor (sys m') = Some sensor /\
    (FirstChildElement "RenderTargetSize" root = None ->
       sensor_width sensor = 1920 /\ sensor_height sensor = 1080) /\
    (forall e, FirstChildElement "RenderTargetSize" root = Some e ->
       exists w h,
         Attribute "w" e = Some w /\ Attribute "h" e = Some h /\
         sensor_width sensor = u32 (atoi w) /\ sensor_height sensor = u32 (atoi h)).
Proof.
  intros E. pose proof (Setup_true_state m m' E) as (Hsize & _).
  apply Setup_true_stages in E. destruct E as (m7 & m8 & E7 & _ & _).
  apply setup_elements_stages in E7.
  destruct E7 as (m1 & m2 & m3 & _ & _ & _ & _ & _ & E3 & _).
  unfold sensor_size in Hsize.
  destruct (m_imagesensor (sys m')) as [sensor|]; [|discriminate].
  cbn in Hsize. injection Hsize as Hsize. exists sensor. split; [reflexivity|].
  unfold target_size in Hsize. unfold setup_target, bind in E3.
  destruct (FirstChildElement "RenderTargetSize" root) as [e|].
  - split; [discriminate|]. intros e' Ee. injection Ee as <-.
    destruct (Attribute "w" e) as [w|]; [|discriminate E3].
    destruct (Attribute "h" e) as [h|]; [|discriminate E3].
    exists w, h. injection Hsize as Hw Hh. auto.
  - split; [|discriminate]. intros _. injection Hsize as Hw Hh. auto.
Qed.

(** X8. After a [Setup] that returns [true] on a file with a [Camera]
    element, the camera is the one created for the [type] of the element,
    and it was given, in the order of the file, the [Property] children that
    have both a [name] and a [value]; the others are passed over. *)
Theorem Setup_camera_properties (m m' : machine) (e : TiXmlElement) :
  Setup g_bBlenderMode g_iTileSize camera_registered sampler_registered RoundSize
        CreateSharedMemory root m = Return true m' ->
  FirstChildElement "Camera" root = Some e ->
  exists type,
    Attribute "type" e = Some type /\ camera_registered type = true /\
    m_camera (sys m') = Some (mkCamera type (complete_pairs (ChildElements "Property" e))).
Proof.
  intros E Ee. pose proof (Setup_true_state m m' E) as (_ & Hc & _).
  rewrite Ee in Hc. exact Hc.
Qed.

(** X9. After a [Setup] that returns [true], [m_integratorType] is the
    [type] of the [Integrator] element and [m_integratorProperty] is what
    it was before the call followed by the [Property] children of the
    element in the order of the file: the list is added to, not replaced. *)
Theorem Setup_integrator_properties (m m' : machine) :
  Setup g_bBlenderMode g_iTileSize camera_registered sampler_registered RoundSize
        CreateSharedMemory root m = Return true m' ->
  exists e type,
    FirstChildElement "Integrator" root = Some e /\
    Attribute "type" e = Some type /\
    m_integratorType (sys m') = type /\
    m_integratorProperty (sys m')
    = m_integratorProperty (sys m) ++ stored_properties (ChildElements "Property" e) /\
    List.length (stored_properties (ChildElements "Property" e))
    = List.length (ChildElements "Property" e).
Proof.
  intros E. pose proof (Setup_true_state m m' E) as (_ & _ & e & type & Ee & Ety & Ht & Hp).
  exists e, type. repeat (split; [assumption|]).
  apply Setup_true_stages in E. destruct E as (m7 & m8 & E7 & _ & _).
  apply setup_elements_stages in E7.
  destruct E7 as (m1 & m2 & _ & _ & _ & _ & _ & E2 & _).
  unfold setup_integrator, bind in E2. rewrite Ee, Ety in E2. cbn in E2.
  revert E2. generalize (ChildElements "Property" e).
  generalize (mkMachine (set_m_integratorType type (sys m1)) (task_queue m1) (shared m1)
                        (trace m1)).
  intros m0 props. revert m0.
  induction props as [|prop rest IH]; intros m0 E2; [reflexivity|].
  cbn [integrator_properties] in E2. unfold bind in E2.
  cbn [stored_properties flat_map].
  destruct (Attribute "name" prop) as [name|]; [|discriminate E2].
  destruct (Attribute "value" prop) as [value|]; [|discriminate E2].
  cbn in E2. cbn. f_equal. exact (IH _ E2).
Qed.

(** X10. In whatever way [Setup] ends, by returning [true] or [false] or
    by a null pointer, the image sensor it created in its first lines is
    attached afterwards, and it is a Blender image exactly in Blender
    mode. *)
Theorem Setup_always_attaches_sensor (m : machine) :
  exists sensor,
    m_imagesensor (sys (final (Setup g_bBlenderMode g_iTileSize camera_registered
                                     sampler_registered RoundSize CreateSharedMemory
                                     root m)))
    = Some sensor /\
    sensor_blender sensor = g_bBlenderMode.
Proof.
  pose proof (Setup_sensor_kind m) as K. unfold sensor_kind in K.
  destruct (m_imagesensor _) as [sensor|]; [|discriminate].
  exists sensor. split; [reflexivity|]. cbn in K. congruence.
Qed.

(** The sampler after the [Sampler] block. *)
Lemma setup_sampler_effect (m3 m4 : machine) :
  setup_sampler sampler_registered RoundSize root m3 = Next tt m4 ->
  match FirstChildElement "Sampler" root with
  | Some e =>
      exists round type,
        Attribute "round" e = Some round /\ Attribute "type" e = Some type /\
        sampler_registered type = true /\
        m_pSampler (sys m4) = Some (mkSampler type) /\
        m_iSamplePerPixel (sys m4) = RoundSize (mkSampler type) (sampler_round round)
  | None =>
      m_pSampler (sys m4) = Some (mkSampler "StratifiedSampler") /\
      m_iSamplePerPixel (sys m4) = RoundSize (mkSampler "StratifiedSampler") 16
  end.
Proof.
  unfold setup_sampler, bind, get_sys.
  destruct (FirstChildElement "Sampler" root) as [e|].
  - destruct (Attribute "round" e) as [round|]; [|discriminate].
    destruct (Attribute "type" e) as [type|]; [|discriminate]. cbn.
    destruct (sampler_registered type) eqn:Hreg; [|discriminate]. cbn.
    intros E. injection E as <-. exists round, type. cbn.
    split; [reflexivity|]. split; [reflexivity|]. split; [exact Hreg|].
    split; reflexivity.
  - cbn. intros E. injection E as <-. split; reflexivity.
Qed.

(** X16. What [Setup] does about elements the file leaves out, when it
    returns [true]: without a [Sampler] element the sampler is a
    [StratifiedSampler] and [m_iSamplePerPixel] is its [RoundSize(16)];
    with one, the sampler is the one created for its [type] and
    [m_iSamplePerPixel] is its [RoundSize] of the clamped [round]; without a
    [ThreadNum] element [m_thread_num] is what it was before the call. *)
Theorem Setup_defaults (m m' : machine) :
  Setup g_bBlenderMode g_iTileSize camera_registered sampler_registered RoundSize
        CreateSharedMemory root m = Return true m' ->
  match FirstChildElement "Sampler" root with
  | Some e =>
      exists round type,
        Attribute "round" e = Some round /\ Attribute "type" e = Some type /\
        sampler_registered type = true /\
        m_pSampler (sys m') = Some (mkSampler type) /\
        m_iSamplePerPixel (sys m') = RoundSize (mkSampler type) (sampler_round round)
  | None =>
      m_pSampler (sys m') = Some (mkSampler "StratifiedSampler") /\
      m_iSamplePerPixel (sys m') = RoundSize (mkSampler "StratifiedSampler") 16
  end /\
  (FirstChildElement "ThreadNum" root = None -> m_thread_num (sys m') = m_thread_num (sys m)).
Proof.
  intros E. apply Setup_true_stages in E. destruct E as (m7 & m8 & E7 & E8 & E9).
  apply setup_elements_stages in E7.
  destruct E7 as (m1 & m2 & m3 & m4 & m5 & m6 & E1 & E2 & E3 & E4 & E5 & E6 & E7).
  split.
  - pose proof (setup_sampler_effect m3 m4 E4) as Hs.
    pose proof (kept_of_next _ _ _ _ _
                  (camera_keeps (fun s => (m_pSampler s, m_iSamplePerPixel s)) root
                     camera_registered (fun v s => eq_refl)) E5) as K5.
    pose proof (kept_after_camera m5 m6 m7 m8 m' E6 E7 E8 E9
                  (fun s => (m_pSampler s, m_iSamplePerPixel s))
                  (fun n v s sensor _ => eq_refl) (fun v s => eq_refl)
                  (fun v s => eq_refl)) as K.
    unfold field_kept in K5. cbn beta in K, K5. rewrite K5 in K. injection K as Kp Ks.
    rewrite Kp, Ks. exact Hs.
  - intros Hnone.
    pose proof (kept_before_camera m m1 m2 m3 m4 E1 E2 E3 E4 m_thread_num
                  (fun v s => eq_refl) (fun v s => eq_refl) (fun v s => eq_refl)
                  (fun p spp s => eq_refl)) as K4.
    pose proof (kept_of_next _ _ _ _ _
                  (camera_keeps m_thread_num root camera_registered (fun v s => eq_refl))
                  E5) as K5.
    pose proof (kept_of_next _ _ _ _ _
                  (output_keeps m_thread_num root (fun n v s sensor _ => eq_refl)) E6) as K6.
    pose proof (kept_of_next _ _ _ _ _ (camera_sensor_keeps m_thread_num) E8) as K8.
    pose proof (kept_of_next _ _ _ _ _
                  (shared_memory_keeps m_thread_num g_iTileSize CreateSharedMemory
                     (fun v s => eq_refl)) E9) as K9.
    unfold setup_threads in E7. rewrite Hnone in E7. injection E7 as <-.
    unfold field_kept in *. congruence.
Qed.

End SetupOutcome.

(** *** A camera that cannot be created *)

Lemma shared_kept_blocks (sampler_registered : string -> bool)
    (RoundSize : Sampler -> Z -> Z) (root : TiXmlElement) :
  keeps shared_kept (setup_scene root) /\
  keeps shared_kept (setup_integrator root) /\
  keeps shared_kept (setup_target root) /\
  keeps shared_kept (setup_sampler sampler_registered RoundSize root).
Proof.
  repeat split;
    first [ apply scene_keeps_all | apply integrator_keeps_all
          | apply target_keeps_all | apply sampler_keeps_all ];
    first [ exact shared_kept_refl | exact shared_kept_trans | exact shared_kept_update
          | intro; apply shared_kept_emit_event ].
Qed.

(** X11. When the file has a [Camera] element whose [type] names no
    registered camera, and the elements before it are read without trouble,
    [Setup] returns [false] at line 376 with [m_camera] null, whatever it
    was before, and with the new image sensor attached; it has asked for no
    shared region. *)
Theorem Setup_unknown_camera_returns_false
    (g_bBlenderMode : bool) (g_iTileSize : Z)
    (camera_registered sampler_registered : string -> bool)
    (RoundSize : Sampler -> Z -> Z) (CreateSharedMemory : string -> Z -> SharedMemory)
    (root e : TiXmlElement) (type : string) (m : machine) :
  reads_succeed sampler_registered root ->
  FirstChildElement "Camera" root = Some e ->
  Attribute "type" e = Some type ->
  camera_registered type = false ->
  exists m',
    Setup g_bBlenderMode g_iTileSize camera_registered sampler_registered RoundSize
          CreateSharedMemory root m = Return false m' /\
    m_camera (sys m') = None /\
    m_imagesensor (sys m') <> None /\
    shared m' = shared m.
Proof.
  intros Hr Ee Ety Hreg. rewrite Setup_begins.
  remember (mkMachine (set_m_imagesensor (Some (mkImageSensor g_bBlenderMode 0 0 [])) (sys m))
                      (task_queue m) (shared m) (trace m)) as m0 eqn:Em0.
  assert (S0 : m_imagesensor (sys m0) <> None) by (subst m0; discriminate).
  assert (H0 : shared m0 = shared m) by (subst m0; reflexivity).
  destruct (next_untouched _ m0 (setup_scene_untouched root)
              (setup_scene_next sampler_registered root Hr m0)) as (m1 & E1 & U1).
  destruct (next_untouched _ m1 (setup_integrator_untouched root)
              (setup_integrator_next sampler_registered root Hr m1)) as (m2 & E2 & U2).
  pose proof (untouched_trans _ _ _ U1 U2) as U12.
  destruct (next_untouched _ m2 (setup_target_untouched root)
              (setup_target_next sampler_registered root Hr m2 ltac:(apply U12, S0)))
    as (m3 & E3 & U3).
  pose proof (untouched_trans _ _ _ U12 U3) as U13.
  destruct (next_untouched _ m3 (setup_sampler_untouched sampler_registered RoundSize root)
              (setup_sampler_next sampler_registered RoundSize root Hr m3))
    as (m4 & E4 & U4).
  pose proof (untouched_trans _ _ _ U13 U4) as U14.
  assert (K : shared m4 = shared m0).
  { destruct (shared_kept_blocks sampler_registered RoundSize root) as (B1 & B2 & B3 & B4).
    pose proof (kept_of_next _ _ _ _ _ B1 E1) as K1.
    pose proof (kept_of_next _ _ _ _ _ B2 E2) as K2.
    pose proof (kept_of_next _ _ _ _ _ B3 E3) as K3.
    pose proof (kept_of_next _ _ _ _ _ B4 E4) as K4.
    unfold shared_kept in *. congruence. }
  unfold bind at 1.
  rewrite (bind_next _ _ _ _ _ E1), (bind_next _ _ _ _ _ E2), (bind_next _ _ _ _ _ E3),
    (bind_next _ _ _ _ _ E4).
  unfold bind at 1. unfold setup_camera. rewrite Ee, Ety. unfold bind. cbn.
  rewrite Hreg. cbn.
  eexists. split; [reflexivity|]. cbn.
  split; [reflexivity|]. split; [apply U14, S0 | congruence].
Qed.

Lemma reads_succeed_odd_camera : reads_succeed Sample.registered Files.odd_camera.
Proof.
  unfold reads_succeed. repeat apply conj.
  - do 2 eexists. split; reflexivity.
  - do 2 eexists. split; [reflexivity|]. split; [reflexivity|]. constructor.
  - intros e E. discriminate.
  - intros e E. discriminate.
  - intros e E. discriminate.
  - intros e E. discriminate.
Defined.

Lemma Setup_unknown_camera_returns_false_witness :
  exists m',
    Setup true 32 Files.no_fisheye Sample.registered Sample.RoundSize Sample.dirty_region
          Files.odd_camera Files.used = Return false m' /\
    m_camera (sys m') = None /\
    m_imagesensor (sys m') <> None /\
    shared m' = shared Files.used.
Proof.
  apply (Setup_unknown_camera_returns_false true 32 Files.no_fisheye Sample.registered
           Sample.RoundSize Sample.dirty_region Files.odd_camera
           (Element "Camera" [("type", "fisheye")]%string
              [ Sample.element "Property" [("name", "fov"); ("value", "170")]%string;
                Sample.element "Property" [("name", "lens")]%string;
                Sample.element "Property" [("name", "up"); ("value", "0 1 0")]%string ])
           "fisheye"%string Files.used).
  - exact reads_succeed_odd_camera.
  - reflexivity.
  - reflexivity.
  - reflexivity.
Defined.

(** *** Sample runs *)

Lemma Setup_odd_camera :
  exists m',
    Setup false 32 Sample.registered Sample.registered Sample.RoundSize Sample.no_region
          Files.odd_camera Sample.constructed = Return true m'.
Proof. eexists. vm_compute. reflexivity. Qed.

Lemma Setup_used :
  exists m',
    Setup false 32 Sample.registered Sample.registered Sample.RoundSize Sample.no_region
          Sample.full_scene Files.used = Return true m'.
Proof. eexists. vm_compute. reflexivity. Qed.

Lemma Setup_true_makes_ready_witness :
  exists m',
    Setup false 32 Sample.registered Sample.registered Sample.RoundSize Sample.no_region
          Files.odd_camera Sample.constructed = Return true m' /\
    m_camera (sys m') <> None /\
    m_imagesensor (sys m') <> None /\
    exists m'',
      PreProcess Sample.timer_reading m' = Next tt m'' /\
      ~ In (E_slog WARNING
              "There is no camera attached in the system , can't render anything.")
           (skipn (List.length (trace m')) (trace m'')).
Proof.
  destruct Setup_odd_camera as (m' & E). exists m'. split; [exact E|].
  exact (Setup_true_makes_ready false 32 Sample.registered Sample.registered Sample.RoundSize
           Sample.no_region Files.odd_camera Sample.timer_reading Sample.constructed m' E).
Defined.

Lemma Setup_false_requests_no_region_witness :
  exists m',
    Setup true 32 Sample.registered Sample.registered Sample.RoundSize Sample.dirty_region
          Sample.scene_without_value Files.used = Return false m' /\
    shared m' = shared Files.used /\
    m_pProgress (sys m') = m_pProgress (sys Files.used) /\
    exists calls,
      trace m' = trace Files.used ++ calls /\
      (forall name size, ~ In (E_CreateSharedMemory name size) calls) /\
      ~ In E_CameraSetImageSensor calls /\ ~ In E_CameraPreProcess calls.
Proof.
  eexists. split; [vm_compute; reflexivity|].
  apply (Setup_false_requests_no_region true 32 Sample.registered Sample.registered
           Sample.RoundSize Sample.dirty_region Sample.scene_without_value Files.used).
  vm_compute. reflexivity.
Defined.

Lemma Setup_target_size_witness :
  exists m' sensor,
    Setup false 32 Sample.registered Sample.registered Sample.RoundSize Sample.no_region
          Files.odd_camera Sample.constructed = Return true m' /\
    m_imagesensor (sys m') = Some sensor /\
    sensor_width sensor = 1920 /\ sensor_height sensor = 1080.
Proof.
  destruct Setup_odd_camera as (m' & E).
  destruct (Setup_target_size false 32 Sample.registered Sample.registered Sample.RoundSize
              Sample.no_region Files.odd_camera Sample.constructed m' E)
    as (sensor & Es & Hdefault & _).
  exists m', sensor. split; [exact E|]. split; [exact Es|]. apply Hdefault. reflexivity.
Defined.

Lemma Setup_camera_properties_witness :
  exists m',
    Setup false 32 Sample.registered Sample.registered Sample.RoundSize Sample.no_region
          Files.odd_camera Sample.constructed = Return true m' /\
    m_camera (sys m')
    = Some (mkCamera "fisheye" [("fov", "170"); ("up", "0 1 0")]%string).
Proof.
  destruct Setup_odd_camera as (m' & E).
  destruct (Setup_camera_properties false 32 Sample.registered Sample.registered
              Sample.RoundSize Sample.no_region Files.odd_camera Sample.constructed m' _
              E eq_refl) as (type & Ety & _ & Hc).
  exists m'. split; [exact E|]. rewrite Hc. injection Ety as <-. reflexivity.
Defined.

Lemma Setup_integrator_properties_witness :
  exists m',
    Setup false 32 Sample.registered Sample.registered Sample.RoundSize Sample.no_region
          Sample.full_scene Files.used = Return true m' /\
    m_integratorType (sys m') = "pt"%string /\
    m_integratorProperty (sys m')
    = [mkProperty "max_bounce" "8"; mkProperty "rr" "0.5"; mkProperty "max_bounce" "8"].
Proof.
  destruct Setup_used as (m' & E).
  destruct (Setup_integrator_properties false 32 Sample.registered Sample.registered
              Sample.RoundSize Sample.no_region Sample.full_scene Files.used m' E)
    as (e & type & Ee & Ety & Ht & Hp & _).
  exists m'. split; [exact E|].
  injection Ee as <-. injection Ety as <-. split; [exact Ht|]. rewrite Hp. reflexivity.
Defined.

Lemma Setup_defaults_witness :
  exists m',
    Setup false 32 Sample.registered Sample.registered Sample.RoundSize Sample.no_region
          Files.odd_camera Sample.constructed = Return true m' /\
    m_pSampler (sys m') = Some (mkSampler "StratifiedSampler") /\
    m_iSamplePerPixel (sys m') = 16 /\
    m_thread_num (sys m') = 1.
Proof.
  destruct Setup_odd_camera as (m' & E).
  destruct (Setup_defaults false 32 Sample.registered Sample.registered Sample.RoundSize
              Sample.no_region Files.odd_camera Sample.constructed m' E) as ((Hp & Hs) & Ht).
  exists m'. split; [exact E|]. split; [exact Hp|]. split; [exact Hs|]. exact (Ht eq_refl).
Defined.

(** *** The round of the sampler, case by case *)

Lemma atoi_range (s : string) : - 2 ^ 31 <= atoi s < 2 ^ 31.
Proof.
  assert (H : forall z, - 2 ^ 31 <= s32 z < 2 ^ 31).
  { intros z. unfold s32.
    pose proof (Z.mod_pos_bound (z + 2 ^ 31) (2 ^ 32) ltac:(lia)). lia. }
  unfold atoi. destruct (skip_spaces s) as [|c r]; [apply H|].
  destruct c as [[] [] [] [] [] [] [] []]; apply H.
Qed.

(** X12. The round [Setup] hands to [RoundSize] is the [int] that [atoi]
    reads, converted to [unsigned] before it is clamped: a negative value
    becomes 1024, not 1; zero becomes 1; a value from 1 to 1024 is kept;
    a larger one becomes 1024. *)
Theorem sampler_round_cases (str_round : string) :
  (atoi str_round < 0 -> sampler_round str_round = 1024) /\
  (atoi str_round = 0 -> sampler_round str_round = 1) /\
  (1 <= atoi str_round <= 1024 -> sampler_round str_round = atoi str_round) /\
  (1024 < atoi str_round -> sampler_round str_round = 1024).
Proof.
  pose proof (atoi_range str_round) as Hr.
  unfold sampler_round, u32. cbv zeta.
  change (2 ^ 31) with 2147483648 in Hr. change (2 ^ 32) with 4294967296.
  remember (atoi str_round) as n eqn:En. clear En.
  repeat apply conj; intros Hn.
  - replace (n mod 4294967296) with (n + 4294967296)
      by (apply (Z.mod_unique _ _ (-1)); lia).
    destruct (Z.ltb_spec (n + 4294967296) 1); [lia|].
    destruct (Z.ltb_spec 1024 (n + 4294967296)); lia.
  - subst n. reflexivity.
  - rewrite Z.mod_small by lia.
    destruct (Z.ltb_spec n 1); [lia|]. destruct (Z.ltb_spec 1024 n); lia.
  - rewrite Z.mod_small by lia.
    destruct (Z.ltb_spec n 1); [lia|]. destruct (Z.ltb_spec 1024 n); lia.
Qed.

Lemma sampler_round_cases_witness :
  atoi "-5" = -5 /\ sampler_round "-5" = 1024 /\
  atoi " 64 spp" = 64 /\ sampler_round " 64 spp" = 64.
Proof.
  split; [reflexivity|]. split.
  - apply (proj1 (sampler_round_cases "-5")). reflexivity.
  - split; [reflexivity|].
    apply (proj1 (proj2 (proj2 (sampler_round_cases " 64 spp")))). vm_compute.
    split; discriminate.
Defined.

(* ------------------------------------------------------------------ *)
(** ** The order of the tiles *)

(** The ring of the current cell, from the number of passes made. *)
Lemma ring_of_leg (c : Vector2i.t) (k : Z) (s : spiral) (n : Z) :
  0 <= k -> on_leg c k s n ->
  (ring c (cur_pos s) = 0 /\ n = 0)
  \/ (1 <= ring c (cur_pos s) /\
      (2 * ring c (cur_pos s) - 1) * (2 * ring c (cur_pos s) - 1) <= n
      < (2 * ring c (cur_pos s) + 1) * (2 * ring c (cur_pos s) + 1)).
Proof.
  intros Hk Hleg. unfold on_leg in Hleg. cbv zeta in Hleg. unfold ring.
  remember (Vector2i.x (cur_pos s)) as px. remember (Vector2i.y (cur_pos s)) as py.
  remember (Vector2i.x c) as cx. remember (Vector2i.y c) as cy.
  remember (cur_len s) as l.
  destruct Hleg as [H | [H | [H | H]]].
  - destruct H as (_ & _ & Hl & Hl0 & Hpx & Hpy & Hn).
    destruct (Z.eq_dec l 0) as [E0 | E0].
    + left. specialize (Hl0 E0). subst k l. lia.
    + right. destruct (Z_le_gt_dec l (2 * k)) as [Hle | Hgt].
      * assert (Er : Z.max (Z.abs (px - cx)) (Z.abs (py - cy)) = k) by lia.
        rewrite Er. nia.
      * assert (Er : Z.max (Z.abs (px - cx)) (Z.abs (py - cy)) = k + 1) by lia.
        rewrite Er. nia.
  - destruct H as (_ & _ & Hl & Hpx & Hpy & Hn). right.
    assert (Er : Z.max (Z.abs (px - cx)) (Z.abs (py - cy)) = k + 1) by lia.
    rewrite Er. nia.
  - destruct H as (_ & _ & Hl & Hpx & Hpy & Hn). right.
    assert (Er : Z.max (Z.abs (px - cx)) (Z.abs (py - cy)) = k + 1) by lia.
    rewrite Er. nia.
  - destruct H as (_ & _ & Hl & Hpx & Hpy & Hn). right.
    assert (Er : Z.max (Z.abs (px - cx)) (Z.abs (py - cy)) = k + 1) by lia.
    rewrite Er. nia.
Qed.

Lemma ring_nonneg (c p : Vector2i.t) : 0 <= ring c p.
Proof. unfold ring. lia. Qed.

Section RingOrder.

Variables width height tilesize : Z.
Variable tn : Vector2i.t.

(** The loop never comes back to a ring it has left. *)
Lemma ring_monotone (i j : nat) :
  (i <= j)%nat ->
  ring (Vector2i.div tn 2) (cur_pos (iterate width height tilesize tn i))
  <= ring (Vector2i.div tn 2) (cur_pos (iterate width height tilesize tn j)).
Proof.
  intros Hij.
  destruct (trail_visited width height tilesize tn i) as (ki & Hki & Hli & _).
  destruct (trail_visited width height tilesize tn j) as (kj & Hkj & Hlj & _).
  pose proof (ring_of_leg _ _ _ _ Hki Hli) as Ri.
  pose proof (ring_of_leg _ _ _ _ Hkj Hlj) as Rj.
  pose proof (ring_nonneg (Vector2i.div tn 2)
                (cur_pos (iterate width height tilesize tn j))) as Nj.
  remember (ring (Vector2i.div tn 2) (cur_pos (iterate width height tilesize tn i))) as ri.
  remember (ring (Vector2i.div tn 2) (cur_pos (iterate width height tilesize tn j))) as rj.
  destruct Ri as [[Ri _] | [Ri1 Ri2]]; [lia|].
  destruct Rj as [[Rj Nj0] | [Rj1 Rj2]]; [nia|].
  destruct (Z_le_gt_dec ri rj) as [Hle | Hgt]; [exact Hle | exfalso].
  assert ((2 * rj + 1) * (2 * rj + 1) <= (2 * ri - 1) * (2 * ri - 1)) by nia.
  lia.
Qed.

End RingOrder.

(** The elements of a filtered list come in the order they have in the
    list. *)
Lemma filter_order {A : Type} (f : A -> bool) (l : list A) (i j : nat) (a b : A) :
  (i < j)%nat ->
  nth_error (filter f l) i = Some a -> nth_error (filter f l) j = Some b ->
  exists i' j', (i' < j')%nat /\ nth_error l i' = Some a /\ nth_error l j' = Some b.
Proof.
  revert i j. induction l as [|x l IH]; intros i j Hij Hi Hj.
  - destruct i; discriminate.
  - cbn [filter] in Hi, Hj. destruct (f x).
    + destruct j as [|j]; [lia|]. cbn [nth_error] in Hj.
      destruct i as [|i].
      * cbn [nth_error] in Hi. injection Hi as <-.
        apply nth_error_In in Hj. apply filter_In in Hj. destruct Hj as [Hj _].
        apply In_nth_error in Hj. destruct Hj as (j' & Hj).
        exists 0%nat, (S j'). repeat split; [lia | assumption].
      * cbn [nth_error] in Hi.
        destruct (IH i j ltac:(lia) Hi Hj) as (i' & j' & Hlt & Hi' & Hj').
        exists (S i'), (S j'). repeat split; [lia | assumption | assumption].
    + destruct (IH i j Hij Hi Hj) as (i' & j' & Hlt & Hi' & Hj').
      exists (S i'), (S j'). repeat split; [lia | assumption | assumption].
Qed.

Lemma task_cell_inside (W H T id : Z) (p : Vector2i.t) :
  0 < W < 2 ^ 24 -> 0 < H < 2 ^ 24 -> 0 < T < 2 ^ 24 ->
  inside (Vector2i.mk (cdiv W T) (cdiv H T)) p = true ->
  task_cell T (make_task W H T id p) = p.
Proof.
  intros HW HH HT Hin.
  destruct (make_task_inside W H T HW HH ltac:(lia) id p Hin) as [-> _].
  unfold task_cell, cell_of. cbn [ori Vector2i.x Vector2i.y].
  rewrite !Z.div_mul by lia. destruct p; reflexivity.
Qed.

(** X13. The tiles are pushed from the centre outwards: of two tasks in the
    queue, the one pushed first starts in a cell that is at most as many
    rings away from the cell [tile_num / 2] as the other; the loop never
    comes back to a ring it has left.  (Sizes below [2 ^ 24].) *)
Theorem pushRenderTask_centre_out (W H T : Z) :
  0 < W < 2 ^ 24 -> 0 < H < 2 ^ 24 -> 0 < T < 2 ^ 24 ->
  cdiv W T * cdiv H T < 2 ^ 32 ->
  exists fuel0 p,
    (forall fuel, (fuel0 <= fuel)%nat -> pushRenderTask W H T fuel = Some p) /\
    forall i j t t',
      (i < j)%nat ->
      nth_error (p_queue p) i = Some t -> nth_error (p_queue p) j = Some t' ->
      ring (Vector2i.div (tile_num W H T) 2) (task_cell T t)
      <= ring (Vector2i.div (tile_num W H T) 2) (task_cell T t').
Proof.
  intros HW HH HT Htotal.
  destruct (pushed_tasks W H T HW HH HT Htotal) as (n & _ & _ & _ & _ & Hin & Hlen & Hrun).
  cbv zeta in Hin, Hlen, Hrun.
  rewrite (tile_num_exact W H T HW HH HT).
  remember (Vector2i.mk (cdiv W T) (cdiv H T)) as tn eqn:Etn.
  remember (filter (inside tn) (trail W H T tn n)) as cells eqn:Ecells.
  exists (push_fuel tn). eexists. split; [exact Hrun|].
  cbn [p_queue]. intros i j t t' Hij Hi Hj.
  destruct (queue_task W H T cells i t ltac:(lia) Hi) as (p & Hp & ->).
  destruct (queue_task W H T cells j t' ltac:(lia) Hj) as (q & Hq & ->).
  assert (Hpin : inside tn p = true) by (apply Hin; eapply nth_error_In; exact Hp).
  assert (Hqin : inside tn q = true) by (apply Hin; eapply nth_error_In; exact Hq).
  rewrite Etn in Hpin, Hqin.
  rewrite (task_cell_inside W H T _ p HW HH HT Hpin).
  rewrite (task_cell_inside W H T _ q HW HH HT Hqin).
  rewrite Ecells in Hp, Hq.
  destruct (filter_order _ _ i j p q Hij Hp Hq) as (i' & j' & Hlt & Hp' & Hq').
  assert (Hi' : (i' < n)%nat).
  { rewrite <- (trail_length W H T tn n). apply nth_error_Some. congruence. }
  assert (Hj' : (j' < n)%nat).
  { rewrite <- (trail_length W H T tn n). apply nth_error_Some. congruence. }
  rewrite trail_nth in Hp' by assumption. rewrite trail_nth in Hq' by assumption.
  injection Hp' as <-. injection Hq' as <-.
  apply ring_monotone. lia.
Qed.

Lemma pushRenderTask_centre_out_witness :
  exists fuel0 p,
    (forall fuel, (fuel0 <= fuel)%nat -> pushRenderTask 100 50 32 fuel = Some p) /\
    forall i j t t',
      (i < j)%nat ->
      nth_error (p_queue p) i = Some t -> nth_error (p_queue p) j = Some t' ->
      ring (Vector2i.div (tile_num 100 50 32) 2) (task_cell 32 t)
      <= ring (Vector2i.div (tile_num 100 50 32) 2) (task_cell 32 t').
Proof.
  apply (pushRenderTask_centre_out 100 50 32); try lia. vm_compute. reflexivity.
Defined.

(* ------------------------------------------------------------------ *)
(** ** [Setup], then [Render] *)

Lemma setup_shared_memory_effect (g_iTileSize : Z)
    (CreateSharedMemory : string -> Z -> SharedMemory) (m8 m' : machine) :
  setup_shared_memory g_iTileSize CreateSharedMemory m8 = Next tt m' ->
  exists sensor,
    m_imagesensor (sys m8) = Some sensor /\
    trace m' = trace m8
               ++ [E_CreateSharedMemory "SORTBLEND_SHAREMEM"
                     (shared_size_of g_iTileSize (sensor_width sensor)
                                     (sensor_height sensor))].
Proof.
  unfold setup_shared_memory, bind, get_sys.
  destruct (m_imagesensor (sys m8)) as [sensor|]; [|discriminate].
  cbn [deref ret emit_event]. intros E. exists sensor. split; [reflexivity|].
  destruct (sm_bytes (CreateSharedMemory _ _)); cbn in E; injection E as <-; reflexivity.
Qed.

(** X14. [Setup] and [Render] agree on the tiles.  After a [Setup] that
    returned [true] for a target of [W] by [H] (sizes below [2 ^ 24], a
    region below [2 ^ 31] bytes), with an integrator registered under the
    type of the file: the last call of [Setup] asked for a region whose
    header has [ceil(W/T) * ceil(H/T)] bytes, and a [Render] that follows
    goes through and pushes exactly that many tasks, one per header byte,
    and sets [m_totalTask] to that number. *)
Theorem Setup_then_Render
    (g_bBlenderMode : bool) (g_iTileSize : Z)
    (camera_registered sampler_registered integrator_registered : string -> bool)
    (RoundSize : Sampler -> Z -> Z) (CreateSharedMemory : string -> Z -> SharedMemory)
    (timer_reading : list event -> Z)
    (run_threads : Z -> list RenderTask -> list bool -> list bool)
    (root : TiXmlElement) (m m' : machine) (W H : Z) :
  Setup g_bBlenderMode g_iTileSize camera_registered sampler_registered RoundSize
        CreateSharedMemory root m = Return true m' ->
  target_size root = (W, H) ->
  0 < W < 2 ^ 24 -> 0 < H < 2 ^ 24 -> 0 < g_iTileSize < 2 ^ 24 ->
  region_size W H g_iTileSize < 2 ^ 31 ->
  integrator_registered (m_integratorType (sys m')) = true ->
  let tiles := cdiv W g_iTileSize * cdiv H g_iTileSize in
  exists calls fuel0 q,
    trace m'
    = calls ++ [E_CreateSharedMemory "SORTBLEND_SHAREMEM"
                  (tiles + tiles * g_iTileSize * g_iTileSize * 4 * 4 * 2 + 2)] /\
    Z.of_nat (List.length q) = tiles /\
    forall fuel, (fuel0 <= fuel)%nat ->
      exists m'' before after,
        Render g_bBlenderMode g_iTileSize integrator_registered timer_reading run_threads
               fuel m' = Next tt m'' /\
        trace m'' = trace m' ++ before ++ map E_PushTask q ++ after ++ [E_StopTimer] /\
        forallb no_push before = true /\ forallb no_push after = true /\
        m_totalTask (sys m'') = tiles.
Proof.
  intros E Hsize HW HH HT Hregion Hint tiles.
  pose proof (Setup_true_state _ _ _ _ _ _ _ _ _ E) as (Hs & _).
  destruct (Setup_true_attached _ _ _ _ _ _ _ _ _ E) as [Hc _].
  pose proof E as E'. apply Setup_true_stages in E'.
  destruct E' as (m7 & m8 & _ & _ & E9).
  destruct (setup_shared_memory_effect _ _ _ _ E9) as (sensor8 & Es8 & Et).
  pose proof (kept_of_next _ _ _ _ _
                (shared_memory_keeps m_imagesensor g_iTileSize CreateSharedMemory
                   (fun v s => eq_refl)) E9) as K9.
  unfold field_kept in K9. rewrite Es8 in K9.
  unfold sensor_size in Hs. rewrite K9 in Hs. cbn in Hs. rewrite Hsize in Hs.
  injection Hs as Hw Hh.
  rewrite Hw, Hh in Et.
  destruct (shared_size_exact g_iTileSize W H HW HH HT Hregion) as [_ Esize].
  rewrite Esize in Et. unfold region_size in Et. fold tiles in Et.
  assert (Hlt : cdiv W g_iTileSize * cdiv H g_iTileSize < 2 ^ 32).
  { unfold region_size in Hregion.
    pose proof (cdiv_spec W g_iTileSize ltac:(lia) ltac:(lia)) as (_ & Hx).
    pose proof (cdiv_spec H g_iTileSize ltac:(lia) ltac:(lia)) as (_ & Hy).
    remember (cdiv W g_iTileSize * cdiv H g_iTileSize) as n.
    assert (1 <= n) by nia.
    assert (0 <= n * g_iTileSize * g_iTileSize * 4 * 4 * 2) by nia.
    change (2 ^ 31) with 2147483648 in Hregion. change (2 ^ 32) with 4294967296. lia. }
  destruct (Render_next g_bBlenderMode g_iTileSize integrator_registered timer_reading
              run_threads m' sensor8 K9 Hc Hint
              ltac:(rewrite Hw; exact HW) ltac:(rewrite Hh; exact HH) HT
              ltac:(rewrite Hw, Hh; exact Hlt)) as (fuel0 & q & Hlen & Hrun).
  rewrite Hw, Hh in Hlen.
  exists (trace m8), fuel0, q. split; [exact Et|]. split; [exact Hlen|].
  intros fuel Hfuel.
  destruct (Hrun fuel Hfuel) as (m'' & before & after & Er & Etr & Hb & Ha & Htot & _).
  exists m'', before, after. split; [exact Er|]. split; [exact Etr|].
  split.
  { rewrite forallb_forall in *. intros e He. specialize (Hb e He).
    apply andb_true_iff in Hb. tauto. }
  split; [exact Ha|]. rewrite Htot. exact Hlen.
Qed.

Lemma Setup_then_Render_witness :
  exists m' calls fuel0 q,
    Setup false 32 Sample.registered Sample.registered Sample.RoundSize Sample.no_region
          Files.odd_camera Sample.constructed = Return true m' /\
    trace m' = calls ++ [E_CreateSharedMemory "SORTBLEND_SHAREMEM" 66848762] /\
    Z.of_nat (List.length q) = 2040 /\
    forall fuel, (fuel0 <= fuel)%nat ->
      exists m'' before after,
        Render false 32 Sample.registered Sample.timer_reading Sample.run_threads
               fuel m' = Next tt m'' /\
        trace m'' = trace m' ++ before ++ map E_PushTask q ++ after ++ [E_StopTimer] /\
        forallb no_push before = true /\ forallb no_push after = true /\
        m_totalTask (sys m'') = 2040.
Proof.
  destruct Setup_odd_camera as (m' & E).
  assert (Hint : Sample.registered (m_integratorType (sys m')) = true) by reflexivity.
  destruct (Setup_then_Render false 32 Sample.registered Sample.registered Sample.registered
              Sample.RoundSize Sample.no_region Sample.timer_reading Sample.run_threads
              Files.odd_camera Sample.constructed m' 1920 1080 E eq_refl
              ltac:(lia) ltac:(lia) ltac:(lia) ltac:(vm_compute; reflexivity) Hint)
    as (calls & fuel0 & q & Et & Hlen & Hrun).
  exists m', calls, fuel0, q. split; [exact E|].
  assert (E60 : cdiv 1920 32 * cdiv 1080 32 = 2040) by (vm_compute; reflexivity).
  rewrite E60 in Et, Hlen, Hrun. split; [exact Et|]. split; [exact Hlen|]. exact Hrun.
Defined.

(* ------------------------------------------------------------------ *)
(** ** An image without pixels *)

Section SpiralStrip.

Variables width height tilesize : Z.
Variable tn : Vector2i.t.
Hypothesis tn_x_nonneg : 0 <= Vector2i.x tn.
Hypothesis tn_y_nonneg : 0 <= Vector2i.y tn.
Hypothesis tn_some : 0 < Vector2i.x tn \/ 0 < Vector2i.y tn.

Lemma centre_in_strip :
  2 * Vector2i.x (Vector2i.div tn 2) <= Vector2i.x tn <= 2 * Vector2i.x (Vector2i.div tn 2) + 1 /\
  2 * Vector2i.y (Vector2i.div tn 2) <= Vector2i.y tn <= 2 * Vector2i.y (Vector2i.div tn 2) + 1.
Proof.
  unfold Vector2i.div; cbn [Vector2i.x Vector2i.y].
  rewrite !Z.quot_div_nonneg by lia.
  pose proof (Z.div_mod (Vector2i.x tn) 2 ltac:(lia)).
  pose proof (Z.mod_pos_bound (Vector2i.x tn) 2 ltac:(lia)).
  pose proof (Z.div_mod (Vector2i.y tn) 2 ltac:(lia)).
  pose proof (Z.mod_pos_bound (Vector2i.y tn) 2 ltac:(lia)).
  lia.
Qed.

(** While every cell looked at was inside on one axis at least, the ring
    number stays below the larger side of the grid, also when the other
    side is zero. *)
Lemma strip_ring_bounded (k : Z) (s : spiral) (n : Z) :
  0 <= k ->
  on_leg (Vector2i.div tn 2) k s n ->
  (forall qx qy, visited (Vector2i.div tn 2) k s qx qy ->
                 outside_both tn (Vector2i.mk qx qy) = false) ->
  k <= Z.max (Vector2i.x tn) (Vector2i.y tn)
  /\ n <= 4 * (k * k) + 10 * k + 6.
Proof.
  intros Hk Hleg Hsafe.
  pose proof centre_in_strip as Hc.
  assert (Hcorner : forall qx qy, visited (Vector2i.div tn 2) k s qx qy ->
            (0 <= qx < Vector2i.x tn) \/ (0 <= qy < Vector2i.y tn)).
  { intros qx qy Hv. apply Hsafe in Hv. apply outside_both_false in Hv. exact Hv. }
  clear Hsafe.
  remember (Vector2i.div tn 2) as c eqn:Ec. clear Ec.
  unfold on_leg in Hleg. cbv zeta in Hleg.
  destruct Hleg as [Hl | [Hl | [Hl | Hl]]]; destruct Hl as (Hd & Hl).
  - destruct (Z.eq_dec (cur_len s) 0) as [E | E]; [lia|].
    specialize (Hcorner (Vector2i.x c + k) (Vector2i.y c + k)).
    rewrite (visited_up _ _ _ _ _ Hd) in Hcorner. lia.
  - specialize (Hcorner (Vector2i.x c + k) (Vector2i.y c - k - 1)).
    rewrite (visited_left _ _ _ _ _ Hd) in Hcorner. lia.
  - specialize (Hcorner (Vector2i.x c - k - 1) (Vector2i.y c - k - 1)).
    rewrite (visited_down _ _ _ _ _ Hd) in Hcorner. lia.
  - specialize (Hcorner (Vector2i.x c - k - 1) (Vector2i.y c + k + 1)).
    rewrite (visited_right _ _ _ _ _ Hd) in Hcorner. lia.
Qed.

(** The loop returns on a grid with an empty side as well. *)
Lemma strip_returns :
  exists n,
    (0 < n)%nat /\ Z.of_nat n <= pass_bound tn /\
    forall fuel, (n <= fuel)%nat ->
      spiral_loop width height tilesize fuel tn (spiral_init tn)
      = Some (iterate width height tilesize tn n).
Proof.
  remember (fun m => outside_both tn (cur_pos (iterate width height tilesize tn m))) as f
    eqn:Ef.
  assert (Hb : 0 <= pass_bound tn) by apply pass_bound_nonneg.
  assert (Hsafe : forall n, (forall m, (m < n)%nat -> f m = false) ->
            forall k qx qy,
              (forall ax ay, In (Vector2i.mk ax ay) (trail width height tilesize tn n) <->
                             visited (Vector2i.div tn 2) k
                                     (iterate width height tilesize tn n) ax ay) ->
              visited (Vector2i.div tn 2) k (iterate width height tilesize tn n) qx qy ->
              outside_both tn (Vector2i.mk qx qy) = false).
  { intros n Hn k qx qy Hvis Hv. apply Hvis in Hv.
    apply In_nth_error in Hv. destruct Hv as (i & Hi).
    assert (Hlt : (i < n)%nat).
    { rewrite <- (trail_length width height tilesize tn n). apply nth_error_Some. congruence. }
    rewrite trail_nth in Hi by assumption. injection Hi as Hi.
    rewrite <- Hi. specialize (Hn i Hlt). rewrite Ef in Hn. exact Hn. }
  destruct (first_true f (Z.to_nat (pass_bound tn))) as [(n & Hn & Hf & Hmin) | Hall].
  - exists n.
    assert (Hpos : (0 < n)%nat).
    { destruct n; [|lia]. exfalso. rewrite Ef in Hf. cbn in Hf.
      pose proof centre_in_strip as Hc.
      apply outside_both_spec in Hf. cbn [Vector2i.div Vector2i.x Vector2i.y] in *. lia. }
    split; [assumption|]. split; [lia|].
    intros fuel Hfuel. destruct n as [|n]; [lia|].
    unfold iterate. apply spiral_loop_first; [| rewrite Ef in Hf; exact Hf | lia].
    intros m Hm. specialize (Hmin (S m) ltac:(lia)). rewrite Ef in Hmin. exact Hmin.
  - exfalso.
    remember (Z.to_nat (pass_bound tn)) as N eqn:EN.
    destruct (trail_visited width height tilesize tn N) as (k & Hk & Hleg & Hvis).
    assert (Hmin : forall m, (m < N)%nat -> f m = false) by (intros; apply Hall; lia).
    destruct (strip_ring_bounded k _ _ Hk Hleg) as [Hkm Hn].
    { intros ax ay. apply (Hsafe N Hmin k ax ay Hvis). }
    assert (HN : Z.of_nat N = pass_bound tn) by (subst N; lia).
    rewrite HN in Hn. unfold pass_bound in Hn. cbv zeta in Hn.
    remember (Z.max (Vector2i.x tn) (Vector2i.y tn)) as M.
    assert (k * k <= M * M) by nia. lia.
Qed.

(** A grid with an empty side has no cell inside. *)
Lemma strip_queue_empty (n : nat) :
  Vector2i.x tn = 0 \/ Vector2i.y tn = 0 ->
  queue (iterate width height tilesize tn n) = [].
Proof.
  intros Hz. destruct (queue_iterate width height tilesize tn n) as [-> _].
  replace (filter (inside tn) (trail width height tilesize tn n)) with (@nil Vector2i.t);
    [reflexivity|].
  symmetry. generalize (trail width height tilesize tn n). intros l.
  induction l as [|p l IH]; [reflexivity|]. cbn [filter].
  destruct (inside tn p) eqn:Ein; [|exact IH].
  apply inside_spec in Ein. lia.
Qed.

End SpiralStrip.

Lemma ceil_div_float_zero (tilesize : Z) :
  0 < tilesize < 2 ^ 24 -> ceil_div_float 0 tilesize = 0.
Proof.
  intros Ht. unfold ceil_div_float.
  assert (E0 : F32.of_Z 0 = S754_zero false) by (vm_compute; reflexivity).
  rewrite E0. destruct tilesize as [|p|p]; try lia.
  destruct (of_Z_normal p ltac:(lia)) as (m & e & Ep & _).
  unfold F32.of_Z, F32.prec, F32.emax. rewrite Ep. reflexivity.
Qed.

Lemma ceil_div_float_any (dim tilesize : Z) :
  0 <= dim < 2 ^ 24 -> 0 < tilesize < 2 ^ 24 ->
  ceil_div_float dim tilesize = cdiv dim tilesize /\ 0 <= cdiv dim tilesize.
Proof.
  intros Hd Ht. destruct (Z.eq_dec dim 0) as [-> | Hne].
  - rewrite ceil_div_float_zero by assumption. unfold cdiv.
    rewrite Z.div_small by lia. lia.
  - rewrite ceil_div_float_exact by lia.
    pose proof (cdiv_spec dim tilesize ltac:(lia) ltac:(lia)). lia.
Qed.

Lemma cdiv_zero (dim tilesize : Z) :
  0 <= dim -> 0 < tilesize -> (cdiv dim tilesize = 0 <-> dim = 0).
Proof.
  intros Hd Ht. unfold cdiv. split.
  - intros E. destruct (Z.eq_dec dim 0) as [|Hne]; [assumption|]. exfalso.
    assert (1 <= (dim + tilesize - 1) / tilesize) by (apply Z.div_le_lower_bound; lia). lia.
  - intros ->. apply Z.div_small. lia.
Qed.

(** The counting loops of lines 180 to 182 count nothing in an image
    without pixels. *)
Lemma count_rows_no_width (height tilesize : Z) (fuel : nat) (i : Z) :
  0 < tilesize < 2 ^ 24 -> 0 <= height < 2 ^ 24 ->
  0 <= i -> passes_left height tilesize i < Z.of_nat fuel ->
  count_rows 0 height tilesize fuel i 0 = Some 0.
Proof.
  intros Ht Hh. revert i. induction fuel as [|fuel IH]; intros i Hi Hfuel.
  - pose proof (passes_left_nonneg tilesize Ht height i Hi). lia.
  - cbn [count_rows]. destruct (Z.ltb_spec i height) as [Hlt | Hge]; [|reflexivity].
    cbn [count_row]. change (0 <? 0) with false. cbv iota.
    rewrite (passes_left_step tilesize Ht height i) in Hfuel by lia.
    change (2 ^ 24) with 16777216 in *.
    rewrite (u32_small (i + tilesize)) by (change (2 ^ 32) with 4294967296; lia).
    apply IH; lia.
Qed.

Lemma count_rows_empty (width height tilesize : Z) :
  0 <= width < 2 ^ 24 -> 0 <= height < 2 ^ 24 -> 0 < tilesize < 2 ^ 24 ->
  width = 0 \/ height = 0 ->
  forall fuel, (Z.to_nat (cdiv height tilesize) < fuel)%nat ->
    count_rows width height tilesize fuel 0 0 = Some 0.
Proof.
  intros Hw Hh Ht Hz fuel Hfuel.
  destruct (Z.eq_dec height 0) as [-> | Hne].
  - destruct fuel; [lia|]. reflexivity.
  - destruct Hz as [-> | ->]; [|lia].
    apply count_rows_no_width; try assumption; try lia.
    unfold passes_left. destruct (Z.ltb_spec 0 height); [|lia].
    rewrite Z.sub_0_r.
    pose proof (cdiv_spec height tilesize ltac:(lia) ltac:(lia)). lia.
Qed.

(** X15. An image without pixels, its width or its height zero, gets no
    task: the counting loops leave [m_totalTask] at 0, the loop over the
    spiral still returns, although no cell is ever inside the grid, and the
    queue is left empty.  (The other side and the tile below [2 ^ 24].) *)
Theorem pushRenderTask_empty_image (W H T : Z) :
  0 <= W < 2 ^ 24 -> 0 <= H < 2 ^ 24 -> 0 < T < 2 ^ 24 ->
  W = 0 \/ H = 0 ->
  exists fuel0,
    forall fuel, (fuel0 <= fuel)%nat ->
      pushRenderTask W H T fuel = Some (mkPushed 0 [] []).
Proof.
  intros HW HH HT Hz.
  destruct (ceil_div_float_any W T HW HT) as [Ex Hx].
  destruct (ceil_div_float_any H T HH HT) as [Ey Hy].
  assert (Etn : tile_num W H T = Vector2i.mk (cdiv W T) (cdiv H T))
    by (unfold tile_num; now rewrite Ex, Ey).
  assert (Hside : cdiv W T = 0 \/ cdiv H T = 0).
  { destruct Hz as [-> | ->]; [left | right]; apply cdiv_zero; lia. }
  destruct (Z.eq_dec (cdiv W T) 0) as [Zx | Nx];
    [destruct (Z.eq_dec (cdiv H T) 0) as [Zy | Ny]|].
  - exists 1%nat. intros fuel Hfuel. unfold pushRenderTask.
    rewrite (count_rows_empty W H T HW HH HT Hz) by (rewrite Zy; cbn; lia).
    rewrite Etn, Zx, Zy. destruct fuel; [lia|]. reflexivity.
  - destruct (strip_returns W H T (Vector2i.mk (cdiv W T) (cdiv H T)))
      as (n & _ & _ & Hloop); cbn [Vector2i.x Vector2i.y]; try lia.
    exists (n + S (Z.to_nat (cdiv H T)))%nat. intros fuel Hfuel. unfold pushRenderTask.
    rewrite (count_rows_empty W H T HW HH HT Hz) by lia.
    rewrite Etn, Hloop by lia.
    rewrite strip_queue_empty by (cbn [Vector2i.x Vector2i.y]; lia). reflexivity.
  - destruct (strip_returns W H T (Vector2i.mk (cdiv W T) (cdiv H T)))
      as (n & _ & _ & Hloop); cbn [Vector2i.x Vector2i.y]; try lia.
    exists (n + S (Z.to_nat (cdiv H T)))%nat. intros fuel Hfuel. unfold pushRenderTask.
    rewrite (count_rows_empty W H T HW HH HT Hz) by lia.
    rewrite Etn, Hloop by lia.
    rewrite strip_queue_empty by (cbn [Vector2i.x Vector2i.y]; lia). reflexivity.
Qed.

Lemma pushRenderTask_empty_image_witness :
  exists fuel0,
    forall fuel, (fuel0 <= fuel)%nat ->
      pushRenderTask 0 1080 32 fuel = Some (mkPushed 0 [] []).
Proof.
  apply (pushRenderTask_empty_image 0 1080 32); lia.
Defined.
